(** * stripe-auto: the invoice retrieval, merge and dispatch pipeline

    A shallow embedding of four generations of the route that the
    repository holds:

    - [GenerateAndEmail]: src/app/api/generateAndEmail/route.js
      (keys from config.json; failures raise and end in the outer
      handler of [POST]);
    - [Scheduled]: src/app/api/scheduled/route.js, first document, the
      scheduled [handler] (console logging, every step guarded);
    - [MonthlyJob]: src/unnamed/part_000, first document
      ([runMonthlyJob] over the previous calendar month, with a [logs]
      array);
    - [RangeJob]: src/unnamed/part_000, second document
      ([runMonthlyJob] over the trailing range, with a [logs] array).

    The further properties also cover [ScheduledPost], the second
    document of src/app/api/scheduled/route.js (a [POST] with keys from
    the environment), [Dates.formatDate] of part_000 and
    [Page.handleSubmit] of src/app/page.js.  The parsing of the request
    and the calendar arithmetic of the window are left out.

    The remote services (Stripe listing, axios, nodemailer) and pdf-lib
    are not part of the repository: they are the fields of the class
    [Remote], and the theorems hold for all of its instances.  The
    module [Demo] is one instance, on which the statements are run. *)

From Stdlib Require Import String List ZArith Bool Arith Lia.
From Stdlib Require Import Ascii DecimalString DecimalNat.
From Equations Require Import Equations.
Import ListNotations.
Open Scope string_scope.

Set Implicit Arguments.

(** ** JavaScript values the routes test for truthiness *)

(** A value that is [null]/[undefined] or a string: [None] is the absent
    value.  [!v] holds of the absent value and of the empty string. *)
Definition falsy (v : option string) : bool :=
  match v with
  | None => true
  | Some s => String.eqb s ""
  end.

(** The string a template literal prints for a possibly absent value. *)
Definition show (v : option string) : string :=
  match v with
  | Some s => s
  | None => "undefined"
  end.

Definition show_nat (n : nat) : string :=
  NilZero.string_of_uint (Nat.to_uint n).

(** [Array.prototype.includes] on strings. *)
Fixpoint includes (xs : list string) (x : string) : bool :=
  match xs with
  | [] => false
  | y :: ys => String.eqb y x || includes ys x
  end.

Definition upper_ascii (c : Ascii.ascii) : Ascii.ascii :=
  let n := Ascii.nat_of_ascii c in
  if ((97 <=? n) && (n <=? 122))%nat then Ascii.ascii_of_nat (n - 32) else c.

(** [String.prototype.toUpperCase], on the ASCII letters the account keys
    are made of. *)
Fixpoint toUpperCase (s : string) : string :=
  match s with
  | EmptyString => EmptyString
  | String c r => String (upper_ascii c) (toUpperCase r)
  end.

(** The last element of an array, [xs[xs.length - 1]]. *)
Fixpoint lastOf {A : Type} (xs : list A) : option A :=
  match xs with
  | [] => None
  | [x] => Some x
  | _ :: r => lastOf r
  end.

(** ** Data model *)

(** One invoice as Stripe returns it (the fields the routes read). *)
Record Invoice := mkInvoice {
  id : string;
  number : string;
  status : string;
  invoice_pdf : option string;
  amount_paid : Z;
  amount_due : Z
}.

(** The [pdfLink] object the listing builds for each invoice. *)
Record PdfLink := mkPdfLink {
  link_invoice_pdf : option string;
  link_invoice_number : string;
  link_amount_paid : Z;
  link_amount_due : Z
}.

(** The argument of [stripe.invoices.list]. *)
Record ListParams := mkListParams {
  limit : nat;
  starting_after : option string;
  created_gte : Z;
  created_lte : Z
}.

(** One page of the listing; [data] may be missing. *)
Record ListPage := mkListPage {
  data : option (list Invoice);
  has_more : bool
}.

(** The two arrays [getInvoices] returns. *)
Record Links := mkLinks {
  paidAndOpenLinks : list PdfLink;
  otherStatusLinks : list PdfLink
}.

Record Attachment (B : Type) := mkAttachment {
  filename : string;
  content : B
}.

(** The argument of [transporter.sendMail]. *)
Record Mail (B : Type) := mkMail {
  mail_from : string;
  mail_to : string;
  subject : string;
  text : string;
  attachments : list (Attachment B)
}.

(** The JSON body of a run result; a key the route does not set is
    [None]. *)
Record Body := mkBody {
  success : option bool;
  message : option string;
  body_logs : option (list string);
  month : option string;
  year : option string
}.

(** [NextResponse.json(body, { status })]. *)
Record Response := mkResponse {
  body : Body;
  http_status : nat
}.

(** What the routes read from [process.env]. *)
Record Env := mkEnv {
  STRIPE_PC : option string;
  STRIPE_ET : option string;
  STRIPE_PCP : option string;
  ADMIN_EMAIL : option string;
  GMAIL_APP_PASSWORD : option string
}.

(** The window of a run ([gte], [lte], in epoch seconds) and the strings
    its log lines, file names and subjects are built from.  The calendar
    arithmetic that derives them from the request or from the clock is
    outside this development. *)
Record Period := mkPeriod {
  gte : Z;
  lte : Z;
  monthName : string;
  periodYear : string;
  nowISO : string;
  lastMonthISO : string;
  startISO : string;
  endISO : string;
  startYMD : string;
  endYMD : string
}.

(** The argument of [nodemailer.createTransport]. *)
Record Transporter := mkTransporter {
  service : string;
  auth_user : string;
  auth_pass : string
}.

(** One request to [stripe.invoices.list] with its answer: an error
    message or a page. *)
Definition Exchange : Type := ListParams * (string + ListPage).

(** ** The collaborators *)

(** The services a run talks to, the pdf-lib operations it uses and the
    runtime's rendering of errors.  Services answer from a [World] they
    may change; a call either raises ([inl], with the message of the
    error) or answers ([inr]).  Loading and copying work on downloaded
    bytes and may raise; creating a document, adding a page, drawing on
    it and saving work on what the route itself built and are total.
    [PDFDocument_save] is given the pages the route added; what the
    saved bytes hold is the library's (pdf-lib saves a document without
    pages with one blank page).

    An error is known by its message.  [show_error e] is the text of
    [`${error}`], the name of the error's class before its message;
    [inspect_error e] is what [console.error(text, error)] prints for
    the error object, its stack included.  Both are the runtime's and
    depend on the library that raised the error. *)
Class Remote := {
  World : Type;
  Bytes : Type;
  PdfPage : Type;
  Stripe : Type;
  show_error : string -> string;
  inspect_error : string -> string;
  initStripe : string -> string + Stripe;
  invoices_list : Stripe -> ListParams -> World -> (string + ListPage) * World;
  http_get : string -> World -> (string + Bytes) * World;
  sendMail : Transporter -> Mail Bytes -> World -> (string + unit) * World;
  PDFDocument_load : option Bytes -> string + list PdfPage;
  copyPages : list PdfPage -> string + list PdfPage;
  addPage : PdfPage;
  drawText : PdfPage -> string -> PdfPage;
  PDFDocument_save : list PdfPage -> Bytes
}.

(** ** Runs: state, outcomes, and the monad of the routes *)

(** How an asynchronous function ends.  [Diverged] is a [while (true)]
    that was still paging when its page budget ran out. *)
Inductive Outcome (A : Type) : Type :=
| Returned (a : A)
| Threw (e : string)
| Diverged.

Arguments Returned {A} a.
Arguments Threw {A} e.
Arguments Diverged {A}.

Section Runs.
Context {R : Remote}.

(** What a run has done so far: the services' state, the console, the
    [logs] array of the later generations, and the calls made. *)
Record State := mkState {
  world : World;
  console : list string;
  logs : list string;
  listed : list Exchange;
  fetched : list string;
  sent : list (Mail Bytes)
}.

Definition M (A : Type) : Type := State -> Outcome A * State.

Definition ret {A} (a : A) : M A := fun s => (Returned a, s).

Definition bind {A B} (m : M A) (k : A -> M B) : M B :=
  fun s =>
    match m s with
    | (Returned a, s') => k a s'
    | (Threw e, s') => (Threw e, s')
    | (Diverged, s') => (Diverged, s')
    end.

Definition throw {A} (e : string) : M A := fun s => (Threw e, s).

Definition diverge {A} : M A := fun s => (Diverged, s).

(** [try { m } catch (error) { h error }]. *)
Definition try_catch {A} (m : M A) (h : string -> M A) : M A :=
  fun s =>
    match m s with
    | (Threw e, s') => h e s'
    | r => r
    end.

End Runs.

Declare Scope run_scope.
Delimit Scope run_scope with run.
Notation "x <- m ;; k" := (bind m (fun x => k))
  (at level 100, m at next level, right associativity) : run_scope.
Notation "m ;; k" := (bind m (fun _ => k))
  (at level 100, right associativity) : run_scope.
Open Scope run_scope.

Section Primitives.
Context {R : Remote}.

Definition console_log (line : string) : M unit :=
  fun s => (Returned tt,
            mkState (world s) (console s ++ [line]) (logs s)
                    (listed s) (fetched s) (sent s)).

(** [console.error] and [console.warn] write to the same console. *)
Definition console_error (line : string) : M unit := console_log line.
Definition console_warn (line : string) : M unit := console_log line.

(** [pushLog(logs, message)]: to the console and to the [logs] array. *)
Definition pushLog (line : string) : M unit :=
  fun s => (Returned tt,
            mkState (world s) (console s ++ [line]) (logs s ++ [line])
                    (listed s) (fetched s) (sent s)).

(** [const logs = []]: a run starts with an array of its own. *)
Definition fresh_logs (s : State) : State :=
  mkState (world s) (console s) [] (listed s) (fetched s) (sent s).

Definition newLogs : M unit := fun s => (Returned tt, fresh_logs s).

(** The current contents of the [logs] array. *)
Definition readLogs : M (list string) := fun s => (Returned (logs s), s).

(** [await http.get(url, { responseType: "arraybuffer" })], giving
    [response.data]. *)
Definition http_get_call (url : string) : M Bytes :=
  fun s =>
    let (r, w) := http_get url (world s) in
    let s' := mkState w (console s) (logs s) (listed s)
                      (fetched s ++ [url]) (sent s) in
    match r with
    | inl e => (Threw e, s')
    | inr b => (Returned b, s')
    end.

(** [await stripe.invoices.list(params)]. *)
Definition invoices_list_call (stripe : Stripe) (params : ListParams)
  : M ListPage :=
  fun s =>
    let (r, w) := invoices_list stripe params (world s) in
    let s' := mkState w (console s) (logs s) (listed s ++ [(params, r)])
                      (fetched s) (sent s) in
    match r with
    | inl e => (Threw e, s')
    | inr p => (Returned p, s')
    end.

(** [await transporter.sendMail(mail)]. *)
Definition sendMail_call (transporter : Transporter) (mail : Mail Bytes)
  : M unit :=
  fun s =>
    let (r, w) := sendMail transporter mail (world s) in
    let s' := mkState w (console s) (logs s) (listed s)
                      (fetched s) (sent s ++ [mail]) in
    match r with
    | inl e => (Threw e, s')
    | inr u => (Returned u, s')
    end.

(** A pure operation that may raise. *)
Definition lift {A} (r : string + A) : M A :=
  match r with
  | inl e => throw e
  | inr a => ret a
  end.

(** [for (const x of xs) { acc = body acc x }], the arrays a loop pushes
    to being its accumulator. *)
Fixpoint for_of {A X} (body : A -> X -> M A) (acc : A) (xs : list X) : M A :=
  match xs with
  | [] => ret acc
  | x :: r => acc' <- body acc x ;; for_of body acc' r
  end.

(** How one turn of a [while] body ends: with a [return], or by falling
    through to the next turn. *)
Inductive Flow (A : Type) : Type :=
| Return (a : A)
| Next.

End Primitives.

Arguments Return {A} a.
Arguments Next {A}.

Definition maxAttempts : nat := 5.

Section Retry.
Context {R : Remote}.

(** [while (attempt <= maxAttempts) { body; attempt++ } return after;]
    where a turn of [body] may [return] on its own. *)
Equations? retry_from {A : Type} (body : nat -> M (Flow A)) (after : A)
  (attempt : nat) (s : State) : Outcome A * State
  by wf (S maxAttempts - attempt) lt :=
  retry_from body after attempt s with le_dec attempt maxAttempts := {
    | left _ =>
        (r <- body attempt ;;
         match r with
         | Return v => ret v
         | Next => fun s' => retry_from body after (S attempt) s'
         end) s
    | right _ => ret after s }.
Proof.
  unfold maxAttempts in *.
  do 6 (destruct attempt as [|attempt]; [cbn; lia|]). lia.
Qed.

End Retry.

(** ** src/app/api/scheduled/route.js: the scheduled handler *)

Module Scheduled.
Section Code.
Context {R : Remote}.

(** One turn of the retry loop: the [try] block and its [catch]. *)
Definition download_attempt (url : option string) (invoiceNumber : string)
  (attempt : nat) : M (Flow (option Bytes)) :=
  try_catch
    (if falsy url then
       console_error ("No PDF URL for invoice " ++ invoiceNumber) ;;
       ret (Return None)
     else
       response <- http_get_call (show url) ;;
       console_log ("File downloaded in memory for invoice: " ++ invoiceNumber) ;;
       ret (Return (Some response)))
    (fun error =>
       console_error ("Error downloading " ++ invoiceNumber ++ " (attempt "
                      ++ show_nat attempt ++ "): " ++ inspect_error error) ;;
       if (attempt =? maxAttempts)%nat then
         console_error ("Skipping invoice " ++ invoiceNumber
                        ++ " after max attempts") ;;
         ret (Return None)
       else ret Next).

(** [let attempt = 1; while (attempt <= maxAttempts) { ... attempt++; }
    return null;] *)
Definition downloadPdfInMemory (url : option string) (invoiceNumber : string)
  : M (option Bytes) :=
  retry_from (download_attempt url invoiceNumber) None 1.

(** One turn of the merge loop; [mergedPdf] is the list of pages added
    so far. *)
Definition merge_step (mergedPdf : list PdfPage) (buffer : option Bytes)
  : M (list PdfPage) :=
  match buffer with
  | None => ret mergedPdf
  | Some _ =>
      tempPdf <- lift (PDFDocument_load buffer) ;;
      copiedPages <- lift (copyPages tempPdf) ;;
      ret (mergedPdf ++ copiedPages)%list
  end.

Definition mergePdfs (pdfBuffers : list (option Bytes)) : M (option Bytes) :=
  try_catch
    (mergedPdf <- for_of merge_step [] pdfBuffers ;;
     ret (Some (PDFDocument_save mergedPdf)))
    (fun err =>
       console_error ("Error merging PDF buffers: " ++ inspect_error err) ;;
       ret None).

Definition createEmptyPdf : M (option Bytes) :=
  try_catch
    (let page := drawText addPage "No data available for this category." in
     ret (Some (PDFDocument_save [page])))
    (fun err =>
       console_error ("Error creating empty PDF: " ++ inspect_error err) ;;
       ret None).

(** The body of [invoices.data.forEach]. *)
Definition collect_invoice (acc : Links) (invoice : Invoice) : M Links :=
  let pdfLink := mkPdfLink (invoice_pdf invoice) (number invoice)
                           (amount_paid invoice) (amount_due invoice) in
  let acc' :=
    if includes ["paid"; "open"] (status invoice)
    then mkLinks (paidAndOpenLinks acc ++ [pdfLink]) (otherStatusLinks acc)
    else mkLinks (paidAndOpenLinks acc) (otherStatusLinks acc ++ [pdfLink]) in
  console_log ("Invoice ID: " ++ id invoice) ;;
  console_log "---------------------------" ;;
  ret acc'.

(** The [while (true)] of [getInvoices], run for at most [pages] pages. *)
Fixpoint getInvoices_loop (pages : nat) (stripe : Stripe) (gte lte : Z)
  (starting_after : option string) (acc : Links) : M Links :=
  match pages with
  | 0 => diverge
  | S pages' =>
      invoices <- invoices_list_call stripe
                    (mkListParams 10 starting_after gte lte) ;;
      match data invoices with
      | None => ret acc
      | Some [] => ret acc
      | Some records =>
          acc' <- for_of collect_invoice acc records ;;
          if negb (has_more invoices) then ret acc'
          else getInvoices_loop pages' stripe gte lte
                 (option_map id (lastOf records)) acc'
      end
  end.

Definition getInvoices (pages : nat) (stripe : Stripe) (gte lte : Z)
  : M Links :=
  try_catch
    (getInvoices_loop pages stripe gte lte None (mkLinks [] []))
    (fun error =>
       console_error ("Error fetching invoices from Stripe: "
                      ++ inspect_error error) ;;
       ret (mkLinks [] [])).

Definition STRIPE_KEYS (env : Env) : list (string * option string) :=
  [("PC", STRIPE_PC env); ("ET", STRIPE_ET env); ("PCP", STRIPE_PCP env)].

(** The two arrays of attachments, [attachmentsET] and
    [attachmentsNonET]. *)
Definition Groups : Type :=
  (list (Attachment Bytes) * list (Attachment Bytes))%type.

(** The download loop of one category (lines 223-236). *)
Definition download_all (links : list PdfLink) : M (list (option Bytes)) :=
  for_of
    (fun pdfBuffers invoice =>
       try_catch
         (buff <- downloadPdfInMemory (link_invoice_pdf invoice)
                    (link_invoice_number invoice) ;;
          match buff with
          | Some _ => ret (pdfBuffers ++ [buff])%list
          | None => ret pdfBuffers
          end)
         (fun err =>
            console_error ("Error downloading invoice "
                           ++ link_invoice_number invoice ++ ": "
                           ++ inspect_error err) ;;
            ret pdfBuffers))
    [] links.

(** [finalPdfBuffer] of one category (lines 219-247). *)
Definition finalPdf (configKey name : string) (links : list PdfLink)
  : M (option Bytes) :=
  if (0 <? length links)%nat then
    pdfBuffers <- download_all links ;;
    finalPdfBuffer <- mergePdfs pdfBuffers ;;
    match finalPdfBuffer with
    | None =>
        console_warn ("Merging failed or empty for " ++ configKey ++ "-"
                      ++ name ++ ", creating fallback PDF...") ;;
        createEmptyPdf
    | Some _ => ret finalPdfBuffer
    end
  else createEmptyPdf.

(** The body of [for (const cat of categories)] (lines 218-265). *)
Definition category_step (period : Period) (configKey : string)
  (groups : Groups) (cat : string * list PdfLink) : M Groups :=
  let (name, links) := cat in
  finalPdfBuffer <- finalPdf configKey name links ;;
  match finalPdfBuffer with
  | None =>
      console_error ("Could not create final PDF for " ++ configKey ++ "-"
                     ++ name ++ ", skipping attachment...") ;;
      ret groups
  | Some bytes =>
      let attachment :=
        mkAttachment
          (toUpperCase configKey ++ "-" ++ name ++ "-" ++ monthName period
           ++ "-" ++ periodYear period ++ ".pdf")
          bytes in
      if String.eqb configKey "ET"
      then ret ((fst groups ++ [attachment])%list, snd groups)
      else ret (fst groups, (snd groups ++ [attachment])%list)
  end.

(** The body of [for (const configKey of Object.keys(STRIPE_KEYS))]
    (lines 190-266). *)
Definition key_step (pages : nat) (period : Period) (groups : Groups)
  (entry : string * option string) : M Groups :=
  let (configKey, keyVal) := entry in
  if falsy keyVal then
    console_error ("Missing environment variable for " ++ configKey
                   ++ ", skipping...") ;;
    ret groups
  else
    result <- try_catch
                (stripe <- lift (initStripe (show keyVal)) ;;
                 result <- getInvoices pages stripe (gte period) (lte period) ;;
                 ret (Some result))
                (fun err =>
                   console_error ("Error initializing Stripe or retrieving data for "
                                  ++ configKey ++ ": " ++ inspect_error err) ;;
                   ret None) ;;
    match result with
    | None => ret groups
    | Some result =>
        for_of (category_step period configKey) groups
          [("Paid_And_Open", paidAndOpenLinks result);
           ("Other_Status", otherStatusLinks result)]
    end.

(** Lines 148-266: the window is logged and the attachments of every
    account are gathered. *)
Definition gather (pages : nat) (env : Env) (period : Period) : M Groups :=
  console_log "===== Starting monthly PDF email job =====" ;;
  console_log ("Now: " ++ nowISO period) ;;
  console_log ("Last Month Date: " ++ lastMonthISO period) ;;
  console_log ("Start date: " ++ startISO period) ;;
  console_log ("End date: " ++ endISO period) ;;
  for_of (key_step pages period) ([], []) (STRIPE_KEYS env).

(** Lines 268-325: the credentials check and the two messages. *)
Definition dispatch (env : Env) (period : Period) (groups : Groups)
  : M Response :=
  let (attachmentsET, attachmentsNonET) := groups in
  let adminEmail := ADMIN_EMAIL env in
  let gmailAppPassword := GMAIL_APP_PASSWORD env in
  if falsy adminEmail || falsy gmailAppPassword then
    console_error "Missing Gmail credentials. Please set ADMIN_EMAIL & GMAIL_APP_PASSWORD." ;;
    ret (mkResponse
           (mkBody (Some false) (Some "Missing email credentials") None None None)
           200)
  else
    let transporter :=
      mkTransporter "gmail" (show adminEmail) (show gmailAppPassword) in
    (if (0 <? length attachmentsET)%nat then
       try_catch
         (sendMail_call transporter
            (mkMail (show adminEmail) "mumair299792458u@gmail.com"
               ("PDF Invoices for " ++ monthName period ++ " "
                ++ periodYear period ++ " (ET)")
               ("Attached are the combined PDF invoices (ET) for "
                ++ monthName period ++ ", " ++ periodYear period ++ ".")
               attachmentsET) ;;
          console_log "ET email sent successfully.")
         (fun err => console_error ("Error sending ET email: " ++ inspect_error err))
     else console_log "No ET attachments to send.") ;;
    (if (0 <? length attachmentsNonET)%nat then
       try_catch
         (sendMail_call transporter
            (mkMail (show adminEmail) "uzairshabbirsab@gmail.com"
               ("PDF Invoices for " ++ monthName period ++ " "
                ++ periodYear period ++ " (PC & PCP)")
               ("Attached are the combined PDF invoices (PC & PCP) for "
                ++ monthName period ++ ", " ++ periodYear period ++ ".")
               attachmentsNonET) ;;
          console_log "PC & PCP email sent successfully.")
         (fun err => console_error ("Error sending PC/PCP email: " ++ inspect_error err))
     else console_log "No PC/PCP attachments to send.") ;;
    console_log "===== Monthly PDF email job completed. =====" ;;
    ret (mkResponse (mkBody (Some true) None None None None) 200).

(** The default export: one scheduled run. *)
Definition handler (pages : nat) (env : Env) (period : Period) : M Response :=
  groups <- gather pages env period ;;
  dispatch env period groups.

(** [GET] only describes the route (lines 135-139). *)
Definition GET : M Response :=
  ret (mkResponse
         (mkBody None
            (Some "This route is triggered automatically on the 2nd of each month via Vercel Cron.")
            None None None)
         200).

End Code.
End Scheduled.

(** ** src/app/api/generateAndEmail/route.js: the first generation *)

(** What lines 99-133 of [POST] make of the request: its JSON does not
    parse, a field is missing, a field is not a month or a year, or the
    window is built. *)
Inductive Request : Type :=
| BadJson (e : string)
| MissingField
| InvalidField
| Window (period : Period).

Module GenerateAndEmail.
Section Code.
Context {R : Remote}.

(** One turn of the retry loop: the [try] block and its [catch]. *)
Definition download_attempt (url : option string) (invoiceNumber : string)
  (attempt : nat) : M (Flow (option Bytes)) :=
  try_catch
    (if falsy url then
       throw ("PDF URL missing for invoice number: " ++ invoiceNumber)
     else
       response <- http_get_call (show url) ;;
       console_log ("File downloaded in memory for invoice: " ++ invoiceNumber) ;;
       ret (Return (Some response)))
    (fun error =>
       console_error ("Error downloading " ++ invoiceNumber ++ ": "
                      ++ inspect_error error) ;;
       if (attempt =? maxAttempts)%nat then
         throw ("Failed to download " ++ invoiceNumber ++ " after "
                ++ show_nat attempt ++ " attempts")
       else
         console_log ("Retrying download of " ++ invoiceNumber ++ " (attempt "
                      ++ show_nat attempt ++ ")") ;;
         ret Next).

(** [let attempt = 1; while (attempt <= maxAttempts) { ... attempt++; }];
    past the loop the function ends without a value. *)
Definition downloadPdfInMemory (url : option string) (invoiceNumber : string)
  : M (option Bytes) :=
  retry_from (download_attempt url invoiceNumber) None 1.

(** One turn of the merge loop: every entry is loaded, absent or not. *)
Definition merge_step (mergedPdf : list PdfPage) (buffer : option Bytes)
  : M (list PdfPage) :=
  tempPdf <- lift (PDFDocument_load buffer) ;;
  copiedPages <- lift (copyPages tempPdf) ;;
  ret (mergedPdf ++ copiedPages)%list.

Definition mergePdfs (pdfBuffers : list (option Bytes)) : M Bytes :=
  mergedPdf <- for_of merge_step [] pdfBuffers ;;
  ret (PDFDocument_save mergedPdf).

Definition createEmptyPdf : M Bytes :=
  let page := drawText addPage "No data available for this category." in
  ret (PDFDocument_save [page]).

(** The body of [invoices.data.forEach]. *)
Definition collect_invoice (acc : Links) (invoice : Invoice) : M Links :=
  let pdfLink := mkPdfLink (invoice_pdf invoice) (number invoice)
                           (amount_paid invoice) (amount_due invoice) in
  let acc' :=
    if includes ["paid"; "open"] (status invoice)
    then mkLinks (paidAndOpenLinks acc ++ [pdfLink]) (otherStatusLinks acc)
    else mkLinks (paidAndOpenLinks acc) (otherStatusLinks acc ++ [pdfLink]) in
  console_log ("Invoice ID: " ++ id invoice) ;;
  console_log "---------------------------" ;;
  ret acc'.

(** The [while (true)] of [getInvoices], run for at most [pages] pages. *)
Fixpoint getInvoices_loop (pages : nat) (stripe : Stripe) (gte lte : Z)
  (starting_after : option string) (acc : Links) : M Links :=
  match pages with
  | 0 => diverge
  | S pages' =>
      invoices <- invoices_list_call stripe
                    (mkListParams 10 starting_after gte lte) ;;
      match data invoices with
      | None => ret acc
      | Some [] => ret acc
      | Some records =>
          acc' <- for_of collect_invoice acc records ;;
          if negb (has_more invoices) then ret acc'
          else getInvoices_loop pages' stripe gte lte
                 (option_map id (lastOf records)) acc'
      end
  end.

Definition getInvoices (pages : nat) (stripe : Stripe) (gte lte : Z)
  : M Links :=
  getInvoices_loop pages stripe gte lte None (mkLinks [] []).

Definition Groups : Type :=
  (list (Attachment Bytes) * list (Attachment Bytes))%type.

(** The download loop of one category (lines 176-184). *)
Definition download_all (links : list PdfLink) : M (list (option Bytes)) :=
  for_of
    (fun pdfBuffers invoice =>
       buffer <- downloadPdfInMemory (link_invoice_pdf invoice)
                   (link_invoice_number invoice) ;;
       match buffer with
       | Some _ => ret (pdfBuffers ++ [buffer])%list
       | None => ret pdfBuffers
       end)
    [] links.

(** [finalPdfBuffer] of one category (lines 172-189). *)
Definition finalPdf (links : list PdfLink) : M Bytes :=
  if (0 <? length links)%nat then
    pdfBuffers <- download_all links ;;
    mergePdfs pdfBuffers
  else createEmptyPdf.

(** The body of [for (const cat of categories)] (lines 171-203). *)
Definition category_step (period : Period) (configKey : string)
  (groups : Groups) (cat : string * list PdfLink) : M Groups :=
  let (name, links) := cat in
  finalPdfBuffer <- finalPdf links ;;
  let attachment :=
    mkAttachment
      (toUpperCase configKey ++ "-" ++ name ++ "-" ++ monthName period
       ++ "-" ++ periodYear period ++ ".pdf")
      finalPdfBuffer in
  if String.eqb configKey "ET"
  then ret ((fst groups ++ [attachment])%list, snd groups)
  else ret (fst groups, (snd groups ++ [attachment])%list).

(** The body of [for (const configKey of Object.keys(config))]
    (lines 161-204); [config] is the imported config.json. *)
Definition key_step (pages : nat) (period : Period) (groups : Groups)
  (entry : string * string) : M Groups :=
  let (configKey, keyVal) := entry in
  stripe <- lift (initStripe keyVal) ;;
  result <- getInvoices pages stripe (gte period) (lte period) ;;
  for_of (category_step period configKey) groups
    [("Paid_And_Open", paidAndOpenLinks result);
     ("Other_Status", otherStatusLinks result)].

(** Lines 129-204. *)
Definition gather (pages : nat) (config : list (string * string))
  (period : Period) : M Groups :=
  console_log ("Start date: " ++ startISO period) ;;
  console_log ("End date: " ++ endISO period) ;;
  for_of (key_step pages period) ([], []) config.

(** Lines 206-253. *)
Definition dispatch (env : Env) (period : Period) (groups : Groups)
  : M Response :=
  let (attachmentsET, attachmentsNonET) := groups in
  let adminEmail := ADMIN_EMAIL env in
  let gmailAppPassword := GMAIL_APP_PASSWORD env in
  if falsy adminEmail || falsy gmailAppPassword then
    ret (mkResponse
           (mkBody None
              (Some "Missing credentials. Make sure ADMIN_EMAIL and GMAIL_APP_PASSWORD are set.")
              None None None)
           500)
  else
    let transporter :=
      mkTransporter "gmail" (show adminEmail) (show gmailAppPassword) in
    (if (0 <? length attachmentsET)%nat then
       sendMail_call transporter
         (mkMail (show adminEmail) "mumair299792458u@gmail.com"
            ("PDF Invoices for " ++ monthName period ++ " "
             ++ periodYear period ++ " (ET)")
            ("Attached are the combined PDF invoices (ET) for "
             ++ monthName period ++ ", " ++ periodYear period ++ ".")
            attachmentsET)
     else ret tt) ;;
    (if (0 <? length attachmentsNonET)%nat then
       sendMail_call transporter
         (mkMail (show adminEmail) "uzairshabbirsab@gmail.com"
            ("PDF Invoices for " ++ monthName period ++ " "
             ++ periodYear period ++ " (PC & PCP)")
            ("Attached are the combined PDF invoices (PC & PCP) for "
             ++ monthName period ++ ", " ++ periodYear period ++ ".")
            attachmentsNonET)
     else ret tt) ;;
    ret (mkResponse (mkBody (Some true) None None None None) 200).

Definition POST (pages : nat) (config : list (string * string)) (env : Env)
  (request : Request) : M Response :=
  try_catch
    (match request with
     | BadJson e => throw e
     | MissingField =>
         ret (mkResponse
                (mkBody None (Some "Please provide both year and month.")
                        None None None)
                400)
     | InvalidField =>
         ret (mkResponse
                (mkBody None (Some "Invalid year or month.") None None None)
                400)
     | Window period =>
         groups <- gather pages config period ;;
         dispatch env period groups
     end)
    (fun error =>
       console_error ("Error generating or emailing PDFs: "
                      ++ inspect_error error) ;;
       ret (mkResponse (mkBody (Some false) (Some error) None None None) 500)).

(** [GET] is refused (lines 263-268). *)
Definition GET : M Response :=
  ret (mkResponse
         (mkBody None (Some "Method Not Allowed. Use POST.") None None None)
         405).

End Code.
End GenerateAndEmail.

(** ** src/unnamed/part_000, first document: the previous-month job *)

Module MonthlyJob.
Section Code.
Context {R : Remote}.

(** One turn of the retry loop: the [try] block and its [catch]. *)
Definition download_attempt (url : option string) (invoiceNumber : string)
  (attempt : nat) : M (Flow (option Bytes)) :=
  try_catch
    (if falsy url then
       pushLog ("No PDF URL for invoice " ++ invoiceNumber) ;;
       ret (Return None)
     else
       response <- http_get_call (show url) ;;
       pushLog ("File downloaded in memory for invoice: " ++ invoiceNumber) ;;
       ret (Return (Some response)))
    (fun error =>
       pushLog ("Error downloading " ++ invoiceNumber ++ " (attempt "
                ++ show_nat attempt ++ "): " ++ show_error error) ;;
       if (attempt =? maxAttempts)%nat then
         pushLog ("Skipping invoice " ++ invoiceNumber
                  ++ " after max attempts") ;;
         ret (Return None)
       else ret Next).

(** [let attempt = 1; while (attempt <= maxAttempts) { ... attempt++; }
    return null;] *)
Definition downloadPdfInMemory (url : option string) (invoiceNumber : string)
  : M (option Bytes) :=
  retry_from (download_attempt url invoiceNumber) None 1.

Definition merge_step (mergedPdf : list PdfPage) (buffer : option Bytes)
  : M (list PdfPage) :=
  match buffer with
  | None => ret mergedPdf
  | Some _ =>
      tempPdf <- lift (PDFDocument_load buffer) ;;
      copiedPages <- lift (copyPages tempPdf) ;;
      ret (mergedPdf ++ copiedPages)%list
  end.

Definition mergePdfs (pdfBuffers : list (option Bytes)) : M (option Bytes) :=
  try_catch
    (mergedPdf <- for_of merge_step [] pdfBuffers ;;
     ret (Some (PDFDocument_save mergedPdf)))
    (fun err =>
       pushLog ("Error merging PDF buffers: " ++ show_error err) ;;
       ret None).

Definition createEmptyPdf : M (option Bytes) :=
  try_catch
    (let page := drawText addPage "No data available for this category." in
     ret (Some (PDFDocument_save [page])))
    (fun err =>
       pushLog ("Error creating empty PDF: " ++ show_error err) ;;
       ret None).

(** The body of [for (const invoice of invoices.data)]; [line] is the
    log line of the invoice. *)
Definition collect_invoice (line : Invoice -> string) (acc : Links)
  (invoice : Invoice) : M Links :=
  let pdfLink := mkPdfLink (invoice_pdf invoice) (number invoice)
                           (amount_paid invoice) (amount_due invoice) in
  let acc' :=
    if includes ["paid"; "open"] (status invoice)
    then mkLinks (paidAndOpenLinks acc ++ [pdfLink]) (otherStatusLinks acc)
    else mkLinks (paidAndOpenLinks acc) (otherStatusLinks acc ++ [pdfLink]) in
  pushLog (line invoice) ;;
  ret acc'.

Fixpoint getInvoices_loop (line : Invoice -> string) (pages : nat)
  (stripe : Stripe) (gte lte : Z) (starting_after : option string)
  (acc : Links) : M Links :=
  match pages with
  | 0 => diverge
  | S pages' =>
      invoices <- invoices_list_call stripe
                    (mkListParams 10 starting_after gte lte) ;;
      match data invoices with
      | None => ret acc
      | Some [] => ret acc
      | Some records =>
          acc' <- for_of (collect_invoice line) acc records ;;
          if negb (has_more invoices) then ret acc'
          else getInvoices_loop line pages' stripe gte lte
                 (option_map id (lastOf records)) acc'
      end
  end.

(** [getInvoices] of both documents of part_000; they differ in the log
    line of an invoice only. *)
Definition getInvoices_with (line : Invoice -> string) (pages : nat)
  (stripe : Stripe) (gte lte : Z) : M Links :=
  try_catch
    (getInvoices_loop line pages stripe gte lte None (mkLinks [] []))
    (fun error =>
       pushLog ("Error fetching invoices from Stripe: " ++ show_error error) ;;
       ret (mkLinks [] [])).

Definition getInvoices : nat -> Stripe -> Z -> Z -> M Links :=
  getInvoices_with (fun invoice => "Invoice ID: " ++ id invoice).

Definition STRIPE_KEYS (env : Env) : list (string * option string) :=
  [("PC", STRIPE_PC env); ("ET", STRIPE_ET env); ("PCP", STRIPE_PCP env)].

Definition Groups : Type :=
  (list (Attachment Bytes) * list (Attachment Bytes))%type.

(** The download loop of one category (lines 221-234). *)
Definition download_all (links : list PdfLink) : M (list (option Bytes)) :=
  for_of
    (fun pdfBuffers invoice =>
       try_catch
         (buff <- downloadPdfInMemory (link_invoice_pdf invoice)
                    (link_invoice_number invoice) ;;
          match buff with
          | Some _ => ret (pdfBuffers ++ [buff])%list
          | None => ret pdfBuffers
          end)
         (fun err =>
            pushLog ("Error downloading invoice "
                     ++ link_invoice_number invoice ++ ": "
                     ++ show_error err) ;;
            ret pdfBuffers))
    [] links.

(** [finalPdfBuffer] of one category (lines 218-244). *)
Definition finalPdf (configKey name : string) (links : list PdfLink)
  : M (option Bytes) :=
  if (0 <? length links)%nat then
    pdfBuffers <- download_all links ;;
    finalPdfBuffer <- mergePdfs pdfBuffers ;;
    match finalPdfBuffer with
    | None =>
        pushLog ("Merging failed or empty for " ++ configKey ++ "-"
                 ++ name ++ ", creating fallback PDF...") ;;
        createEmptyPdf
    | Some _ => ret finalPdfBuffer
    end
  else createEmptyPdf.

(** The body of [for (const cat of categories)] (lines 217-261). *)
Definition category_step (period : Period) (configKey : string)
  (groups : Groups) (cat : string * list PdfLink) : M Groups :=
  let (name, links) := cat in
  finalPdfBuffer <- finalPdf configKey name links ;;
  match finalPdfBuffer with
  | None =>
      pushLog ("Could not create final PDF for " ++ configKey ++ "-"
               ++ name ++ ", skipping attachment...") ;;
      ret groups
  | Some bytes =>
      let attachment :=
        mkAttachment
          (toUpperCase configKey ++ "-" ++ name ++ "-" ++ monthName period
           ++ "-" ++ periodYear period ++ ".pdf")
          bytes in
      if String.eqb configKey "ET"
      then ret ((fst groups ++ [attachment])%list, snd groups)
      else ret (fst groups, (snd groups ++ [attachment])%list)
  end.

(** The body of [for (const configKey of Object.keys(STRIPE_KEYS))]
    (lines 191-262). *)
Definition key_step (pages : nat) (period : Period) (groups : Groups)
  (entry : string * option string) : M Groups :=
  let (configKey, keyVal) := entry in
  if falsy keyVal then
    pushLog ("Missing environment variable for " ++ configKey
             ++ ", skipping...") ;;
    ret groups
  else
    result <- try_catch
                (stripe <- lift (initStripe (show keyVal)) ;;
                 result <- getInvoices pages stripe (gte period) (lte period) ;;
                 ret (Some result))
                (fun err =>
                   pushLog ("Error initializing Stripe or retrieving data for "
                            ++ configKey ++ ": " ++ show_error err) ;;
                   ret None) ;;
    match result with
    | None => ret groups
    | Some result =>
        for_of (category_step period configKey) groups
          [("Paid_And_Open", paidAndOpenLinks result);
           ("Other_Status", otherStatusLinks result)]
    end.

(** Lines 150-262. *)
Definition gather (pages : nat) (env : Env) (period : Period) : M Groups :=
  pushLog "===== Starting monthly PDF email job =====" ;;
  pushLog ("Now: " ++ nowISO period) ;;
  pushLog ("Last Month Date: " ++ lastMonthISO period) ;;
  pushLog ("Start date: " ++ startISO period) ;;
  pushLog ("End date: " ++ endISO period) ;;
  for_of (key_step pages period) ([], []) (STRIPE_KEYS env).

(** Lines 264-330. *)
Definition dispatch (env : Env) (period : Period) (groups : Groups)
  : M Body :=
  let (attachmentsET, attachmentsNonET) := groups in
  let adminEmail := ADMIN_EMAIL env in
  let gmailAppPassword := GMAIL_APP_PASSWORD env in
  if falsy adminEmail || falsy gmailAppPassword then
    pushLog "Missing Gmail credentials. Please set ADMIN_EMAIL & GMAIL_APP_PASSWORD." ;;
    logs <- readLogs ;;
    ret (mkBody (Some false) (Some "Missing email credentials") (Some logs)
                (Some (monthName period)) (Some (periodYear period)))
  else
    let transporter :=
      mkTransporter "gmail" (show adminEmail) (show gmailAppPassword) in
    (if (0 <? length attachmentsET)%nat then
       try_catch
         (sendMail_call transporter
            (mkMail (show adminEmail) "mumair299792458u@gmail.com"
               ("PDF Invoices for " ++ monthName period ++ " "
                ++ periodYear period ++ " (ET)")
               ("Attached are the combined PDF invoices (ET) for "
                ++ monthName period ++ ", " ++ periodYear period ++ ".")
               attachmentsET) ;;
          pushLog "ET email sent successfully.")
         (fun err => pushLog ("Error sending ET email: " ++ show_error err))
     else pushLog "No ET attachments to send.") ;;
    (if (0 <? length attachmentsNonET)%nat then
       try_catch
         (sendMail_call transporter
            (mkMail (show adminEmail) "uzairshabbirsab@gmail.com"
               ("PDF Invoices for " ++ monthName period ++ " "
                ++ periodYear period ++ " (PC & PCP)")
               ("Attached are the combined PDF invoices (PC & PCP) for "
                ++ monthName period ++ ", " ++ periodYear period ++ ".")
               attachmentsNonET) ;;
          pushLog "PC & PCP email sent successfully.")
         (fun err => pushLog ("Error sending PC/PCP email: " ++ show_error err))
     else pushLog "No PC/PCP attachments to send.") ;;
    pushLog "===== Monthly PDF email job completed. =====" ;;
    logs <- readLogs ;;
    ret (mkBody (Some true) None (Some logs)
                (Some (monthName period)) (Some (periodYear period))).

Definition runMonthlyJob (pages : nat) (env : Env) (period : Period)
  : M Body :=
  newLogs ;;
  groups <- gather pages env period ;;
  dispatch env period groups.

(** [GET]; the default export differs in the text of its log line
    only. *)
Definition GET (pages : nat) (env : Env) (period : Period) : M Response :=
  try_catch
    (result <- runMonthlyJob pages env period ;;
     ret (mkResponse result 200))
    (fun err =>
       console_error ("Top-level error in monthly job: " ++ inspect_error err) ;;
       ret (mkResponse (mkBody (Some false) (Some err) None None None) 500)).

End Code.
End MonthlyJob.

(** ** src/unnamed/part_000, second document: the trailing-range job *)

Module RangeJob.
Section Code.
Context {R : Remote}.

(** [downloadPdfInMemory], [mergePdfs] and [createEmptyPdf] have the text
    of the first document. *)
Definition downloadPdfInMemory : option string -> string -> M (option Bytes) :=
  MonthlyJob.downloadPdfInMemory.

Definition mergePdfs : list (option Bytes) -> M (option Bytes) :=
  MonthlyJob.mergePdfs.

Definition createEmptyPdf : M (option Bytes) := MonthlyJob.createEmptyPdf.

Definition getInvoices : nat -> Stripe -> Z -> Z -> M Links :=
  MonthlyJob.getInvoices_with
    (fun invoice =>
       "Invoice ID: " ++ id invoice ++ " (num: " ++ number invoice ++ ")").

Definition STRIPE_KEYS (env : Env) : list (string * option string) :=
  [("PC", STRIPE_PC env); ("ET", STRIPE_ET env); ("PCP", STRIPE_PCP env)].

Definition Groups : Type :=
  (list (Attachment Bytes) * list (Attachment Bytes))%type.

(** The download loop of one category (lines 579-588). *)
Definition download_all (links : list PdfLink) : M (list (option Bytes)) :=
  for_of
    (fun pdfBuffers invoice =>
       buffer <- downloadPdfInMemory (link_invoice_pdf invoice)
                   (link_invoice_number invoice) ;;
       match buffer with
       | Some _ => ret (pdfBuffers ++ [buffer])%list
       | None => ret pdfBuffers
       end)
    [] links.

(** [finalPdfBuffer] of one category (lines 575-600). *)
Definition finalPdf (configKey name : string) (links : list PdfLink)
  : M (option Bytes) :=
  if (0 <? length links)%nat then
    pdfBuffers <- download_all links ;;
    if (0 <? length pdfBuffers)%nat then mergePdfs pdfBuffers
    else
      pushLog ("No valid PDFs for " ++ configKey ++ "-" ++ name
               ++ ", creating empty PDF") ;;
      createEmptyPdf
  else createEmptyPdf.

(** The body of [for (const cat of categories)] (lines 574-618). *)
Definition category_step (period : Period) (configKey : string)
  (groups : Groups) (cat : string * list PdfLink) : M Groups :=
  let (name, links) := cat in
  finalPdfBuffer <- finalPdf configKey name links ;;
  match finalPdfBuffer with
  | None =>
      pushLog ("Could not create final PDF for " ++ configKey ++ "-"
               ++ name ++ ", skipping") ;;
      ret groups
  | Some bytes =>
      let fileName :=
        toUpperCase configKey ++ "-" ++ name ++ "-" ++ startYMD period
        ++ "_to_" ++ endYMD period ++ ".pdf" in
      let attachment := mkAttachment fileName bytes in
      if String.eqb configKey "ET"
      then ret ((fst groups ++ [attachment])%list, snd groups)
      else ret (fst groups, (snd groups ++ [attachment])%list)
  end.

(** The body of [for (const configKey of Object.keys(STRIPE_KEYS))]
    (lines 548-619). *)
Definition key_step (pages : nat) (period : Period) (groups : Groups)
  (entry : string * option string) : M Groups :=
  let (configKey, stripeKey) := entry in
  if falsy stripeKey then
    pushLog ("Missing env var for " ++ configKey ++ ", skipping") ;;
    ret groups
  else
    result <- try_catch
                (stripe <- lift (initStripe (show stripeKey)) ;;
                 result <- getInvoices pages stripe (gte period) (lte period) ;;
                 ret (Some result))
                (fun err =>
                   pushLog ("Error with Stripe for " ++ configKey ++ ": "
                            ++ show_error err) ;;
                   ret None) ;;
    match result with
    | None => ret groups
    | Some result =>
        for_of (category_step period configKey) groups
          [("Paid_And_Open", paidAndOpenLinks result);
           ("Other_Status", otherStatusLinks result)]
    end.

(** Lines 519-619. *)
Definition gather (pages : nat) (env : Env) (period : Period) : M Groups :=
  pushLog "===== Starting PDF invoice job =====" ;;
  pushLog ("Now: " ++ nowISO period) ;;
  pushLog ("Range Start: " ++ startISO period) ;;
  pushLog ("Range End:   " ++ endISO period) ;;
  for_of (key_step pages period) ([], []) (STRIPE_KEYS env).

(** Lines 621-678. *)
Definition dispatch (env : Env) (period : Period) (groups : Groups)
  : M Body :=
  let (attachmentsET, attachmentsNonET) := groups in
  let adminEmail := ADMIN_EMAIL env in
  let gmailAppPassword := GMAIL_APP_PASSWORD env in
  if falsy adminEmail || falsy gmailAppPassword then
    pushLog "Missing email credentials. Not sending anything." ;;
    logs <- readLogs ;;
    ret (mkBody (Some false) (Some "Missing email credentials") (Some logs)
                None None)
  else
    let transporter :=
      mkTransporter "gmail" (show adminEmail) (show gmailAppPassword) in
    (if (0 <? length attachmentsET)%nat then
       try_catch
         (sendMail_call transporter
            (mkMail (show adminEmail) "mumair299792458u@gmail.com"
               ("PDF Invoices for " ++ startYMD period ++ " to "
                ++ endYMD period ++ " (ET)")
               ("Attached are the combined PDF invoices (ET) covering "
                ++ startYMD period ++ " through " ++ endYMD period ++ ".")
               attachmentsET) ;;
          pushLog "ET email sent successfully.")
         (fun err => pushLog ("Error sending ET email: " ++ show_error err))
     else pushLog "No ET attachments to send.") ;;
    (if (0 <? length attachmentsNonET)%nat then
       try_catch
         (sendMail_call transporter
            (mkMail (show adminEmail) "mumair299792458u@gmail.com"
               ("PDF Invoices for " ++ startYMD period ++ " to "
                ++ endYMD period ++ " (PC & PCP)")
               ("Attached are the combined PDF invoices (PC & PCP) covering "
                ++ startYMD period ++ " through " ++ endYMD period ++ ".")
               attachmentsNonET) ;;
          pushLog "PC & PCP email sent successfully.")
         (fun err => pushLog ("Error sending PC/PCP email: " ++ show_error err))
     else pushLog "No PC/PCP attachments to send.") ;;
    pushLog "===== Invoice job completed. =====" ;;
    logs <- readLogs ;;
    ret (mkBody (Some true) None (Some logs) None None).

Definition runMonthlyJob (pages : nat) (env : Env) (period : Period)
  : M Body :=
  newLogs ;;
  groups <- gather pages env period ;;
  dispatch env period groups.

(** [GET] and the default export (lines 681-700); the default export
    differs in the text of its log line only. *)
Definition GET (pages : nat) (env : Env) (period : Period) : M Response :=
  try_catch
    (result <- runMonthlyJob pages env period ;;
     ret (mkResponse result 200))
    (fun err =>
       console_error ("Top-level error in monthly job: " ++ inspect_error err) ;;
       ret (mkResponse (mkBody (Some false) (Some err) None None None) 500)).

End Code.
End RangeJob.

(** ** The vocabulary of the statements *)

Section Vocabulary.
Context {R : Remote}.

(** From world [w], the next [n] fetches of [url] all fail. *)
Fixpoint fetch_fails (n : nat) (url : string) (w : World) : bool :=
  match n with
  | 0 => true
  | S n' =>
      match http_get url w with
      | (inl _, w') => fetch_fails n' url w'
      | (inr _, _) => false
      end
  end.

(** A record is in the primary category when its status is "paid" or
    "open". *)
Definition primary (invoice : Invoice) : bool :=
  String.eqb (status invoice) "paid" || String.eqb (status invoice) "open".

Definition pdfLink_of (invoice : Invoice) : PdfLink :=
  mkPdfLink (invoice_pdf invoice) (number invoice)
            (amount_paid invoice) (amount_due invoice).

(** The records of a page, none when [data] is missing. *)
Definition records_of (p : ListPage) : list Invoice :=
  match data p with
  | Some records => records
  | None => []
  end.

(** The records a sequence of exchanges delivered, in the order
    received. *)
Definition received (xs : list Exchange) : list Invoice :=
  flat_map (fun x => match snd x with
                     | inr p => records_of p
                     | inl _ => []
                     end) xs.

(** The two categories of a sequence of records: the primary records
    and the others, each in the order of the sequence. *)
Definition classified (records : list Invoice) : Links :=
  mkLinks (map pdfLink_of (filter primary records))
          (map pdfLink_of (filter (fun i => negb (primary i)) records)).

Definition append_links (a b : Links) : Links :=
  mkLinks (paidAndOpenLinks a ++ paidAndOpenLinks b)
          (otherStatusLinks a ++ otherStatusLinks b).

(** The exchange was answered by an error. *)
Definition raised (x : Exchange) : bool :=
  match snd x with
  | inl _ => true
  | inr _ => false
  end.

(** A page after which the listing asks no more: no records, or no
    further pages signalled. *)
Definition final_page (p : ListPage) : bool :=
  match records_of p with
  | [] => true
  | _ :: _ => negb (has_more p)
  end.

(** The identifier of the last record of a page. *)
Definition last_id (p : ListPage) : option string :=
  option_map id (lastOf (records_of p)).

(** Why a listing made no further request. *)
Inductive Stop : Type :=
| StopFinal
| StopRaised (e : string)
| StopBudget.

(** [paging gte lte budget cursor xs stop]: [xs] are the exchanges of a
    listing that starts at [cursor] and may make [budget] requests.
    Every request has page size 10 and the window; the cursor of a
    request is the last identifier of the page before.  After a page
    that is not final the listing asks again; it stops at the first
    final page or at the first request that raises, and for want of
    budget only when [budget] pages, none of them final, were received. *)
Inductive paging (gte lte : Z)
  : nat -> option string -> list Exchange -> Stop -> Prop :=
| paging_budget cursor :
    paging gte lte 0 cursor [] StopBudget
| paging_raised budget cursor e :
    paging gte lte (S budget) cursor
           [(mkListParams 10 cursor gte lte, inl e)] (StopRaised e)
| paging_final budget cursor p :
    final_page p = true ->
    paging gte lte (S budget) cursor
           [(mkListParams 10 cursor gte lte, inr p)] StopFinal
| paging_more budget cursor p xs stop :
    final_page p = false ->
    paging gte lte budget (last_id p) xs stop ->
    paging gte lte (S budget) cursor
           ((mkListParams 10 cursor gte lte, inr p) :: xs) stop.

(** The listing as the specification words it, run against the source
    from world [w]: ask for 10 records of the window after [cursor];
    stop when the request raises, when the page holds no record or the
    source signals no further page; else go on after the last record of
    the page.  It gives the exchanges, why they stopped and the world
    they left; at most [budget] requests are made. *)
Fixpoint walk (budget : nat) (stripe : Stripe) (gte lte : Z)
  (cursor : option string) (w : World) : list Exchange * Stop * World :=
  match budget with
  | 0 => ([], StopBudget, w)
  | S budget' =>
      let params := mkListParams 10 cursor gte lte in
      match invoices_list stripe params w with
      | (inl e, w') => ([(params, inl e)], StopRaised e, w')
      | (inr p, w') =>
          if final_page p then ([(params, inr p)], StopFinal, w')
          else
            let '(xs, stop, w'') :=
              walk budget' stripe gte lte (last_id p) w' in
            ((params, inr p) :: xs, stop, w'')
      end
  end.

(** Between [s] and [s'] only the console and the [logs] array grew. *)
Definition chatter (s s' : State) : Prop :=
  world s' = world s /\ listed s' = listed s /\
  fetched s' = fetched s /\ sent s' = sent s.

(** The pages of one downloaded buffer: it is loaded, then its pages are
    copied. *)
Definition buffer_pages (buffer : option Bytes) : string + list PdfPage :=
  match PDFDocument_load buffer with
  | inl e => inl e
  | inr tempPdf => copyPages tempPdf
  end.

(** The pages of the non-null buffers, in input order; the first buffer
    that fails to load or copy fails the whole. *)
Fixpoint merged_pages (buffers : list (option Bytes))
  : string + list PdfPage :=
  match buffers with
  | [] => inr []
  | None :: rest => merged_pages rest
  | Some b :: rest =>
      match buffer_pages (Some b) with
      | inl e => inl e
      | inr pages =>
          match merged_pages rest with
          | inl e => inl e
          | inr more => inr (pages ++ more)%list
          end
      end
  end.

(** The one-page placeholder [createEmptyPdf] saves. *)
Definition placeholder : Bytes :=
  PDFDocument_save [drawText addPage "No data available for this category."].

(** What [mergePdfs] saves when no page was added to [mergedPdf].  The
    pages these bytes hold are the library's: pdf-lib's [save] puts one
    blank page into a document that has none. *)
Definition nothing_merged : Bytes := PDFDocument_save [].

(** Two states that differ in the [logs] array at most. *)
Definition same_but_logs (s s' : State) : Prop :=
  world s = world s' /\ console s = console s' /\ listed s = listed s' /\
  fetched s = fetched s' /\ sent s = sent s'.

(** A step that does not read the [logs] array: from two such states it
    ends alike, in two such states. *)
Definition ignores_logs {A} (m : M A) : Prop :=
  forall s s', same_but_logs s s' ->
    fst (m s) = fst (m s') /\ same_but_logs (snd (m s)) (snd (m s')).

(** A step of a run that sends no message. *)
Definition sends_nothing {A} (m : M A) : Prop :=
  forall s, sent (snd (m s)) = sent s.

(** How a retry loop ends when its last turn ends as [final]. *)
Definition finish {A} (after : A) (final : Outcome (Flow A)) : Outcome A :=
  match final with
  | Returned (Return v) => Returned v
  | Returned Next => Returned after
  | Threw e => Threw e
  | Diverged => Diverged
  end.

(** The mailer credentials are not both set. *)
Definition credentials_missing (env : Env) : bool :=
  falsy (ADMIN_EMAIL env) || falsy (GMAIL_APP_PASSWORD env).

(** The log line and the message about missing mailer credentials. *)
Definition missing_gmail : string :=
  "Missing Gmail credentials. Please set ADMIN_EMAIL & GMAIL_APP_PASSWORD.".

Definition missing_first : string :=
  "Missing credentials. Make sure ADMIN_EMAIL and GMAIL_APP_PASSWORD are set.".

(** The outcome is a returned value. *)
Definition returned {A} (out : Outcome A) : bool :=
  match out with
  | Returned _ => true
  | _ => false
  end.

(** The transporter and the two messages of a monthly run. *)
Definition transporter_of (env : Env) : Transporter :=
  mkTransporter "gmail" (show (ADMIN_EMAIL env))
                (show (GMAIL_APP_PASSWORD env)).

Definition et_mail (env : Env) (period : Period)
  (attachmentsET : list (Attachment Bytes)) : Mail Bytes :=
  mkMail (show (ADMIN_EMAIL env)) "mumair299792458u@gmail.com"
    ("PDF Invoices for " ++ monthName period ++ " " ++ periodYear period
     ++ " (ET)")
    ("Attached are the combined PDF invoices (ET) for " ++ monthName period
     ++ ", " ++ periodYear period ++ ".")
    attachmentsET.

Definition pc_mail (env : Env) (period : Period)
  (attachmentsNonET : list (Attachment Bytes)) : Mail Bytes :=
  mkMail (show (ADMIN_EMAIL env)) "uzairshabbirsab@gmail.com"
    ("PDF Invoices for " ++ monthName period ++ " " ++ periodYear period
     ++ " (PC & PCP)")
    ("Attached are the combined PDF invoices (PC & PCP) for "
     ++ monthName period ++ ", " ++ periodYear period ++ ".")
    attachmentsNonET.

End Vocabulary.

(** ** A concrete set of collaborators

    Pages are numbers and a document is the list of its pages; a
    document without pages is saved with one blank page, as pdf-lib's
    [save] does.  The account "sk_down" cannot be listed, "sk_flaky" fails on its second
    page, "sk_two" has three invoices on two pages, every other account
    has none.  The host "https://dead"
    never answers.  Mail to the first recipient is rejected. *)

Module Demo.

Definition inv1 : Invoice :=
  mkInvoice "in_1" "INV-1" "paid" (Some "https://files/1.pdf") 100 100.
Definition inv2 : Invoice :=
  mkInvoice "in_2" "INV-2" "void" None 0 50.
Definition inv3 : Invoice :=
  mkInvoice "in_3" "INV-3" "open" (Some "https://dead") 0 70.

Definition list_page (stripe : string) (params : ListParams)
  : string + ListPage :=
  if String.eqb stripe "sk_down" then inl "api down"
  else if String.eqb stripe "sk_flaky" then
    match starting_after params with
    | None => inr (mkListPage (Some [inv1; inv2]) true)
    | Some _ => inl "rate limited"
    end
  else if String.eqb stripe "sk_two" then
    match starting_after params with
    | None => inr (mkListPage (Some [inv1; inv2]) true)
    | Some _ => inr (mkListPage (Some [inv3]) false)
    end
  else inr (mkListPage (Some []) false).

#[export] Instance remote : Remote := {|
  World := nat;
  Bytes := list nat;
  PdfPage := nat;
  Stripe := string;
  show_error := fun e => "Error: " ++ e;
  inspect_error := fun e => "Error: " ++ e ++ " at <anonymous>";
  initStripe := fun key => inr key;
  invoices_list := fun stripe params w => (list_page stripe params, S w);
  http_get := fun url w =>
    if String.eqb url "https://dead" then (inl "ECONNRESET", S w)
    else (inr [1; 2], S w);
  sendMail := fun _ mail w =>
    if String.eqb (mail_to mail) "mumair299792458u@gmail.com"
    then (inl "rejected", S w)
    else (inr tt, S w);
  PDFDocument_load := fun buffer =>
    match buffer with
    | None => inl "not a buffer"
    | Some [] => inl "not a PDF"
    | Some pages => inr pages
    end;
  copyPages := fun pages => inr pages;
  addPage := 0;
  drawText := fun page _ => S page;
  PDFDocument_save := fun pages =>
    match pages with
    | [] => [0]
    | _ :: _ => pages
    end
|}.

Definition start : State := mkState (0 : World) [] [] [] [] [].

Definition window_start : Z := 1735689600.
Definition window_end : Z := 1738367999.

(** The exchanges of a listing of "sk_two" and of "sk_flaky". *)
Definition exchanges_two : list Exchange :=
  [(mkListParams 10 None window_start window_end,
    inr (mkListPage (Some [inv1; inv2]) true));
   (mkListParams 10 (Some "in_2") window_start window_end,
    inr (mkListPage (Some [inv3]) false))].

Definition exchanges_flaky : list Exchange :=
  [(mkListParams 10 None window_start window_end,
    inr (mkListPage (Some [inv1; inv2]) true));
   (mkListParams 10 (Some "in_2") window_start window_end,
    inl "rate limited")].

Definition period : Period :=
  mkPeriod window_start window_end "January" "2025"
           "2025-02-02T00:00:00.000Z" "2025-01-01T00:00:00.000Z"
           "2025-01-01T00:00:00.000Z" "2025-01-31T23:59:59.999Z"
           "2025-01-01" "2025-01-31".

Definition env_full : Env :=
  mkEnv (Some "sk_pc") (Some "sk_two") (Some "sk_down")
        (Some "admin@example.com") (Some "app-password").

Definition env_no_mailer : Env :=
  mkEnv (Some "sk_pc") (Some "sk_two") (Some "sk_down") None None.

Definition config : list (string * string) :=
  [("PC", "sk_pc"); ("ET", "sk_et"); ("PCP", "sk_pcp")].

(** What the scheduled handler and the first generation gather for the
    demonstration. *)
Definition scheduled_groups : Scheduled.Groups :=
  Eval vm_compute in
    match fst (Scheduled.gather 5 env_full period start) with
    | Returned groups => groups
    | _ => ([], [])
    end.

Definition first_groups : GenerateAndEmail.Groups :=
  Eval vm_compute in
    match fst (GenerateAndEmail.gather 5 config period start) with
    | Returned groups => groups
    | _ => ([], [])
    end.

End Demo.

(** ** src/unnamed/part_000, second document: [formatDate] *)

(** What [formatDate] reads of a [Date]: [getFullYear()], [getMonth()]
    (0-based) and [getDate()], for years that are not negative. *)
Record DateParts := mkDateParts {
  fullYear : nat;
  monthIndex : nat;
  dayOfMonth : nat
}.

Module Dates.

Fixpoint take_chars (n : nat) (s : string) : string :=
  match n, s with
  | S n', String c r => String c (take_chars n' r)
  | _, _ => EmptyString
  end.

Fixpoint repeat_string (n : nat) (s : string) : string :=
  match n with
  | 0 => EmptyString
  | S n' => s ++ repeat_string n' s
  end.

(** [s.padStart(targetLength, padString)]: [s] when it is long enough or
    the pad is empty, else the pad repeated and cut to the missing
    length, before [s]. *)
Definition padStart (targetLength : nat) (padString s : string) : string :=
  let missing := targetLength - String.length s in
  if (missing =? 0)%nat || (String.length padString =? 0)%nat then s
  else take_chars missing (repeat_string missing padString) ++ s.

(** Lines 502-508. *)
Definition formatDate (dateObj : DateParts) : string :=
  let yyyy := fullYear dateObj in
  let mm := padStart 2 "0" (show_nat (monthIndex dateObj + 1)) in
  let dd := padStart 2 "0" (show_nat (dayOfMonth dateObj)) in
  show_nat yyyy ++ "-" ++ mm ++ "-" ++ dd.

(** The two decimal digits of a number below 100. *)
Definition digit (k : nat) : Ascii.ascii := Ascii.ascii_of_nat (48 + k).

Definition two_digits (n : nat) : string :=
  String (digit (n / 10)) (String (digit (n mod 10)) EmptyString).

(** The number a text of decimal digits writes. *)
Definition read_number (s : string) : option nat :=
  option_map Nat.of_uint (NilZero.uint_of_string s).

(** Reads a text YYYY-MM-DD back: ten characters with dashes at
    positions 4 and 7, the year before the first dash, the month,
    counted from 1, between the dashes, the day after the second. *)
Definition read_date (s : string) : option DateParts :=
  match String.get 4 s, String.get 7 s with
  | Some c1, Some c2 =>
      if (String.length s =? 10)%nat && Ascii.eqb c1 "-" && Ascii.eqb c2 "-"
      then
        match read_number (substring 0 4 s), read_number (substring 5 2 s),
              read_number (substring 8 2 s) with
        | Some y, Some (S m), Some d => Some (mkDateParts y m d)
        | _, _, _ => None
        end
      else None
  | _, _ => None
  end.

(** A date of the calendar whose year is written with four digits. *)
Definition plain_date (d : DateParts) : bool :=
  ((String.length (show_nat (fullYear d)) =? 4)
   && (monthIndex d <=? 11)
   && (1 <=? dayOfMonth d) && (dayOfMonth d <=? 31))%nat.

End Dates.

(** ** src/app/api/scheduled/route.js, second document: the [POST] with
    keys from the environment *)

Module ScheduledPost.
Section Code.
Context {R : Remote}.

(** One turn of the retry loop: the [try] block and its [catch]. *)
Definition download_attempt (url : option string) (invoiceNumber : string)
  (attempt : nat) : M (Flow (option Bytes)) :=
  try_catch
    (if falsy url then
       console_error ("Skipping invoice " ++ invoiceNumber
                      ++ ": Missing PDF URL.") ;;
       ret (Return None)
     else
       response <- http_get_call (show url) ;;
       console_log ("File downloaded in memory for invoice: " ++ invoiceNumber) ;;
       ret (Return (Some response)))
    (fun error =>
       console_error ("Error downloading " ++ invoiceNumber ++ " (attempt "
                      ++ show_nat attempt ++ "): " ++ inspect_error error) ;;
       if (attempt =? maxAttempts)%nat then
         console_error ("Skipping invoice " ++ invoiceNumber
                        ++ " after max attempts") ;;
         ret (Return None)
       else
         console_log ("Retrying download of " ++ invoiceNumber ++ " (attempt "
                      ++ show_nat attempt ++ ")") ;;
         ret Next).

(** [let attempt = 1; while (attempt <= maxAttempts) { ... attempt++; }
    return null;] *)
Definition downloadPdfInMemory (url : option string) (invoiceNumber : string)
  : M (option Bytes) :=
  retry_from (download_attempt url invoiceNumber) None 1.

(** One turn of the merge loop: null entries are skipped, nothing is
    caught. *)
Definition merge_step (mergedPdf : list PdfPage) (buffer : option Bytes)
  : M (list PdfPage) :=
  match buffer with
  | None => ret mergedPdf
  | Some _ =>
      tempPdf <- lift (PDFDocument_load buffer) ;;
      copiedPages <- lift (copyPages tempPdf) ;;
      ret (mergedPdf ++ copiedPages)%list
  end.

Definition mergePdfs (pdfBuffers : list (option Bytes)) : M Bytes :=
  mergedPdf <- for_of merge_step [] pdfBuffers ;;
  ret (PDFDocument_save mergedPdf).

Definition createEmptyPdf : M Bytes :=
  let page := drawText addPage "No data available for this category." in
  ret (PDFDocument_save [page]).

(** The body of [for (const invoice of invoices.data)]. *)
Definition collect_invoice (acc : Links) (invoice : Invoice) : M Links :=
  let pdfLink := mkPdfLink (invoice_pdf invoice) (number invoice)
                           (amount_paid invoice) (amount_due invoice) in
  let acc' :=
    if includes ["paid"; "open"] (status invoice)
    then mkLinks (paidAndOpenLinks acc ++ [pdfLink]) (otherStatusLinks acc)
    else mkLinks (paidAndOpenLinks acc) (otherStatusLinks acc ++ [pdfLink]) in
  console_log ("Invoice ID: " ++ id invoice ++ " / Number: "
               ++ number invoice) ;;
  ret acc'.

(** The [while (true)] of [getInvoices], run for at most [pages] pages. *)
Fixpoint getInvoices_loop (pages : nat) (stripe : Stripe) (gte lte : Z)
  (starting_after : option string) (acc : Links) : M Links :=
  match pages with
  | 0 => diverge
  | S pages' =>
      invoices <- invoices_list_call stripe
                    (mkListParams 10 starting_after gte lte) ;;
      match data invoices with
      | None => ret acc
      | Some [] => ret acc
      | Some records =>
          acc' <- for_of collect_invoice acc records ;;
          if negb (has_more invoices) then ret acc'
          else getInvoices_loop pages' stripe gte lte
                 (option_map id (lastOf records)) acc'
      end
  end.

Definition getInvoices (pages : nat) (stripe : Stripe) (gte lte : Z)
  : M Links :=
  getInvoices_loop pages stripe gte lte None (mkLinks [] []).

Definition STRIPE_KEYS (env : Env) : list (string * option string) :=
  [("PC", STRIPE_PC env); ("ET", STRIPE_ET env); ("PCP", STRIPE_PCP env)].

Definition Groups : Type :=
  (list (Attachment Bytes) * list (Attachment Bytes))%type.

(** The download loop of one category (lines 519-527). *)
Definition download_all (links : list PdfLink) : M (list (option Bytes)) :=
  for_of
    (fun pdfBuffers invoice =>
       downloadedPdf <- downloadPdfInMemory (link_invoice_pdf invoice)
                          (link_invoice_number invoice) ;;
       match downloadedPdf with
       | Some _ => ret (pdfBuffers ++ [downloadedPdf])%list
       | None => ret pdfBuffers
       end)
    [] links.

(** [finalPdfBuffer] of one category (lines 515-539). *)
Definition finalPdf (links : list PdfLink) : M Bytes :=
  if (0 <? length links)%nat then
    pdfBuffers <- download_all links ;;
    if (0 <? length pdfBuffers)%nat then mergePdfs pdfBuffers
    else createEmptyPdf
  else createEmptyPdf.

(** The body of [for (const cat of categories)] (lines 514-552). *)
Definition category_step (period : Period) (configKey : string)
  (groups : Groups) (cat : string * list PdfLink) : M Groups :=
  let (name, links) := cat in
  finalPdfBuffer <- finalPdf links ;;
  let attachment :=
    mkAttachment
      (toUpperCase configKey ++ "-" ++ name ++ "-" ++ monthName period
       ++ "-" ++ periodYear period ++ ".pdf")
      finalPdfBuffer in
  if String.eqb configKey "ET"
  then ret ((fst groups ++ [attachment])%list, snd groups)
  else ret (fst groups, (snd groups ++ [attachment])%list).

(** The body of [for (const configKey of Object.keys(STRIPE_KEYS))]
    (lines 495-553). *)
Definition key_step (pages : nat) (period : Period) (groups : Groups)
  (entry : string * option string) : M Groups :=
  let (configKey, stripeKey) := entry in
  if falsy stripeKey then
    console_error ("Missing environment variable for " ++ configKey
                   ++ ", skipping this key.") ;;
    ret groups
  else
    stripe <- lift (initStripe (show stripeKey)) ;;
    result <- getInvoices pages stripe (gte period) (lte period) ;;
    for_of (category_step period configKey) groups
      [("Paid_And_Open", paidAndOpenLinks result);
       ("Other_Status", otherStatusLinks result)].

(** Lines 469-553. *)
Definition gather (pages : nat) (env : Env) (period : Period) : M Groups :=
  console_log ("Start date: " ++ startISO period) ;;
  console_log ("End date: " ++ endISO period) ;;
  for_of (key_step pages period) ([], []) (STRIPE_KEYS env).

(** Lines 555-609. *)
Definition dispatch (env : Env) (period : Period) (groups : Groups)
  : M Response :=
  let (attachmentsET, attachmentsNonET) := groups in
  let adminEmail := ADMIN_EMAIL env in
  let gmailAppPassword := GMAIL_APP_PASSWORD env in
  if falsy adminEmail || falsy gmailAppPassword then
    ret (mkResponse
           (mkBody None
              (Some "Missing credentials. Make sure ADMIN_EMAIL and GMAIL_APP_PASSWORD are set.")
              None None None)
           500)
  else
    let transporter :=
      mkTransporter "gmail" (show adminEmail) (show gmailAppPassword) in
    (if (0 <? length attachmentsET)%nat then
       try_catch
         (sendMail_call transporter
            (mkMail (show adminEmail) "mumair299792458u@gmail.com"
               ("PDF Invoices for " ++ monthName period ++ " "
                ++ periodYear period ++ " (ET)")
               ("Attached are the combined PDF invoices (ET) for "
                ++ monthName period ++ ", " ++ periodYear period ++ ".")
               attachmentsET) ;;
          console_log "ET email sent successfully.")
         (fun err => console_error ("Error sending ET email: " ++ inspect_error err))
     else ret tt) ;;
    (if (0 <? length attachmentsNonET)%nat then
       try_catch
         (sendMail_call transporter
            (mkMail (show adminEmail) "uzairshabbirsab@gmail.com"
               ("PDF Invoices for " ++ monthName period ++ " "
                ++ periodYear period ++ " (PC & PCP)")
               ("Attached are the combined PDF invoices (PC & PCP) for "
                ++ monthName period ++ ", " ++ periodYear period ++ ".")
               attachmentsNonET) ;;
          console_log "PC & PCP email sent successfully.")
         (fun err => console_error ("Error sending PC/PCP email: " ++ inspect_error err))
     else ret tt) ;;
    ret (mkResponse (mkBody (Some true) None None None None) 200).

Definition POST (pages : nat) (env : Env) (request : Request) : M Response :=
  try_catch
    (match request with
     | BadJson e => throw e
     | MissingField =>
         ret (mkResponse
                (mkBody None (Some "Please provide both year and month.")
                        None None None)
                400)
     | InvalidField =>
         ret (mkResponse
                (mkBody None (Some "Invalid year or month.") None None None)
                400)
     | Window period =>
         groups <- gather pages env period ;;
         dispatch env period groups
     end)
    (fun error =>
       console_error ("Error generating or emailing PDFs: "
                      ++ inspect_error error) ;;
       ret (mkResponse (mkBody (Some false) (Some error) None None None) 500)).

(** [GET] is refused (lines 620-625). *)
Definition GET : M Response :=
  ret (mkResponse
         (mkBody None (Some "Method Not Allowed. Use POST.") None None None)
         405).

End Code.
End ScheduledPost.

(** ** src/app/page.js: what the form shows *)

(** How the [fetch] of [handleSubmit] ends: it fails, or the route
    answers. *)
Inductive Fetched : Type :=
| NetworkError (e : string)
| Answer (response : Response).

Module Page.

(** [response.ok]: a status from 200 to 299. *)
Definition ok (response : Response) : bool :=
  ((200 <=? http_status response) && (http_status response <=? 299))%nat.

(** The message [handleSubmit] leaves on the page (lines 9-35), after
    "Processing...". *)
Definition handleSubmit (fetched : Fetched) : string :=
  match fetched with
  | NetworkError e => "An error occurred: " ++ e
  | Answer response =>
      if negb (ok response) then
        "An error occurred: "
        ++ (if falsy (message (body response)) then "Unknown error"
            else show (message (body response)))
      else
        match success (body response) with
        | Some true => "PDFs generated and emailed successfully!"
        | _ => "Failed to send PDFs."
        end
  end.

End Page.

(** An answer of a [POST]: 200 with [success: true], or an error status
    without it. *)
Definition post_answer (response : Response) : Prop :=
  (http_status response = 200 /\ success (body response) = Some true) \/
  ((http_status response = 400 \/ http_status response = 500) /\
   success (body response) <> Some true).

(** ** The vocabulary of the further statements *)

Section FurtherVocabulary.
Context {R : Remote}.

(** A step that raises nothing to its caller. *)
Definition never_raises {A} (m : M A) : Prop :=
  forall s e, fst (m s) <> Threw e.

(** A step that ends whatever the page budget. *)
Definition halts {A} (m : M A) : Prop :=
  forall s, fst (m s) <> Diverged.

(** From world [w], the fetch of [url] fails [n] times and then answers:
    the bytes and the world after the answer. *)
Fixpoint fetch_after (n : nat) (url : string) (w : World)
  : option (Bytes * World) :=
  match n with
  | 0 =>
      match http_get url w with
      | (inr b, w') => Some (b, w')
      | (inl _, _) => None
      end
  | S n' =>
      match http_get url w with
      | (inl _, w') => fetch_after n' url w'
      | (inr _, _) => None
      end
  end.

(** The messages a monthly dispatch attempts for two groups: one per
    group that is not empty, the first group first. *)
Definition due_mails (env : Env) (period : Period)
  (groups : list (Attachment Bytes) * list (Attachment Bytes))
  : list (Mail Bytes) :=
  (match fst groups with
   | [] => []
   | _ :: _ => [et_mail env period (fst groups)]
   end ++
   match snd groups with
   | [] => []
   | _ :: _ => [pc_mail env period (snd groups)]
   end)%list.

(** The account has a key and a client is made of it. *)
Definition account_ready (keyVal : option string) : bool :=
  negb (falsy keyVal) &&
  match initStripe (show keyVal) with
  | inr _ => true
  | inl _ => false
  end.

(** The two file names of an account in a monthly run. *)
Definition account_files (period : Period) (configKey : string)
  : list string :=
  map (fun name =>
         toUpperCase configKey ++ "-" ++ name ++ "-" ++ monthName period
         ++ "-" ++ periodYear period ++ ".pdf")
      ["Paid_And_Open"; "Other_Status"].

(** The file names of the two groups of a monthly run over the three
    accounts: those of "ET", and those of "PC" then "PCP". *)
Definition group_files (env : Env) (period : Period)
  : list string * list string :=
  ((if account_ready (STRIPE_ET env) then account_files period "ET" else []),
   ((if account_ready (STRIPE_PC env) then account_files period "PC" else [])
    ++ (if account_ready (STRIPE_PCP env) then account_files period "PCP"
        else []))%list).

(** The file names of the attachments of two groups. *)
Definition group_names
  (groups : list (Attachment Bytes) * list (Attachment Bytes))
  : list string * list string :=
  (map (@filename Bytes) (fst groups), map (@filename Bytes) (snd groups)).

(** The downloads of the records of a category, one after the other:
    what each returned, in the order of the records. *)
Fixpoint each_download
  (download : option string -> string -> M (option Bytes))
  (links : list PdfLink) : M (list (option Bytes)) :=
  match links with
  | [] => ret []
  | link :: rest =>
      b <- download (link_invoice_pdf link) (link_invoice_number link) ;;
      bs <- each_download download rest ;;
      ret (b :: bs)
  end.

(** The entries of an array that are not [null], in order. *)
Definition present (results : list (option Bytes)) : list (option Bytes) :=
  filter (fun b => match b with Some _ => true | None => false end) results.

(** A step whose every line goes to the console and to the [logs] array
    alike. *)
Definition mirrors {A} (m : M A) : Prop :=
  forall s, exists lines,
    console (snd (m s)) = (console s ++ lines)%list /\
    logs (snd (m s)) = (logs s ++ lines)%list.

End FurtherVocabulary.

(** ** A source that never runs out

    Every page of every account holds one record and signals more; the
    host fails the first two fetches and answers from the third on; no
    buffer parses as a document. *)

Module Endless.

#[export] Instance remote : Remote := {|
  World := nat;
  Bytes := list nat;
  PdfPage := nat;
  Stripe := string;
  show_error := fun e => "Error: " ++ e;
  inspect_error := fun e => "Error: " ++ e ++ " at <anonymous>";
  initStripe := fun key => inr key;
  invoices_list := fun _ _ w =>
    (inr (mkListPage (Some [Demo.inv1]) true), S w);
  http_get := fun _ w =>
    if (w <? 2)%nat then (inl "ETIMEDOUT", S w) else (inr [1], S w);
  sendMail := fun _ _ w => (inr tt, S w);
  PDFDocument_load := fun _ => inl "not a PDF";
  copyPages := fun pages => inr pages;
  addPage := 0;
  drawText := fun page _ => S page;
  PDFDocument_save := fun pages =>
    match pages with
    | [] => [0]
    | _ :: _ => pages
    end
|}.

Definition start : State := mkState (0 : World) [] [] [] [] [].

End Endless.

(** * Facts and theorems *)

Unset Implicit Arguments.

Section RetryFacts.
Context {R : Remote}.

Lemma retry_from_turn {A} (body : nat -> M (Flow A)) after a s :
  retry_from body after a s =
  if le_dec a maxAttempts then
    (r <- body a ;;
     match r with
     | Return v => ret v
     | Next => fun s' => retry_from body after (S a) s'
     end) s
  else ret after s.
Proof.
  simp retry_from. destruct (le_dec a maxAttempts); reflexivity.
Qed.

Lemma fetch_fails_step n url w :
  fetch_fails (S n) url w = true ->
  exists e w', http_get url w = (inl e, w') /\ fetch_fails n url w' = true.
Proof.
  simpl. destruct (http_get url w) as [[e|b] w']; [eauto | discriminate].
Qed.

(** A loop whose every turn fetches [url] and, on failure, falls through
    until the last turn: against a dead [url] it fetches once per
    remaining turn and ends as the last turn does. *)
Lemma retry_from_dead {A} (body : nat -> M (Flow A)) after url final :
  (forall a s e w', http_get url (world s) = (inl e, w') ->
     exists s', body a s =
                  ((if (a =? maxAttempts)%nat then final else Returned Next), s')
                /\ world s' = w'
                /\ fetched s' = (fetched s ++ [url])%list) ->
  forall k s, 1 <= k <= maxAttempts ->
    fetch_fails k url (world s) = true ->
    fst (retry_from body after (S maxAttempts - k) s) = finish after final /\
    fetched (snd (retry_from body after (S maxAttempts - k) s))
    = (fetched s ++ repeat url k)%list.
Proof.
  intros Hbody. induction k as [|k IH]; intros s Hk Hf; [lia|].
  apply fetch_fails_step in Hf. destruct Hf as (e & w' & Hg & Hf).
  destruct (Hbody (S maxAttempts - S k) s e w' Hg) as (s' & Ha & Hw & Hfe).
  rewrite retry_from_turn.
  destruct (le_dec (S maxAttempts - S k) maxAttempts) as [_|n]; [|lia].
  unfold bind. rewrite Ha.
  destruct (Nat.eqb_spec (S maxAttempts - S k) maxAttempts) as [E|E].
  - assert (k = 0) by lia. subst k.
    destruct final as [[v|]| |]; cbn; rewrite ?Hfe; auto.
  - assert (1 <= k <= maxAttempts) as Hk' by lia.
    replace (S (S maxAttempts - S k)) with (S maxAttempts - k) by lia.
    rewrite <- Hw in Hf.
    destruct (IH s' Hk' Hf) as [H1 H2].
    rewrite H1, H2, Hfe. split; [reflexivity|].
    rewrite <- app_assoc. reflexivity.
Qed.

(** A loop whose every turn falls through without a fetch until the last
    turn ends as the last turn does, and fetches nothing. *)
Lemma retry_from_idle {A} (body : nat -> M (Flow A)) after final :
  (forall a s,
     exists s', body a s =
                  ((if (a =? maxAttempts)%nat then final else Returned Next), s')
                /\ world s' = world s
                /\ fetched s' = fetched s) ->
  forall k s, 1 <= k <= maxAttempts ->
    fst (retry_from body after (S maxAttempts - k) s) = finish after final /\
    fetched (snd (retry_from body after (S maxAttempts - k) s)) = fetched s /\
    world (snd (retry_from body after (S maxAttempts - k) s)) = world s.
Proof.
  intros Hbody. induction k as [|k IH]; intros s Hk; [lia|].
  destruct (Hbody (S maxAttempts - S k) s) as (s' & Ha & Hw & Hfe).
  rewrite retry_from_turn.
  destruct (le_dec (S maxAttempts - S k) maxAttempts) as [_|n]; [|lia].
  unfold bind. rewrite Ha.
  destruct (Nat.eqb_spec (S maxAttempts - S k) maxAttempts) as [E|E].
  - assert (k = 0) by lia. subst k.
    destruct final as [[v|]| |]; cbn; rewrite ?Hfe, ?Hw; auto.
  - assert (1 <= k <= maxAttempts) as Hk' by lia.
    replace (S (S maxAttempts - S k)) with (S maxAttempts - k) by lia.
    destruct (IH s' Hk') as (H1 & H2 & H3).
    rewrite H1, H2, H3, Hfe, Hw. auto.
Qed.

Ltac run_attempt :=
  unfold Scheduled.download_attempt, MonthlyJob.download_attempt,
    GenerateAndEmail.download_attempt,
    try_catch, bind, http_get_call, console_error, console_log, pushLog,
    throw, ret.

Lemma scheduled_attempt_dead url num :
  falsy url = false ->
  forall a s e w', http_get (show url) (world s) = (inl e, w') ->
    exists s', Scheduled.download_attempt url num a s =
                 ((if (a =? maxAttempts)%nat then Returned (Return None)
                   else Returned Next), s')
               /\ world s' = w'
               /\ fetched s' = (fetched s ++ [show url])%list.
Proof.
  intros Hu a s e w' Hg. run_attempt. rewrite Hu, Hg. cbn.
  destruct (a =? maxAttempts)%nat; cbn; eexists; split; try reflexivity; cbn; auto.
Qed.

Lemma monthly_attempt_dead url num :
  falsy url = false ->
  forall a s e w', http_get (show url) (world s) = (inl e, w') ->
    exists s', MonthlyJob.download_attempt url num a s =
                 ((if (a =? maxAttempts)%nat then Returned (Return None)
                   else Returned Next), s')
               /\ world s' = w'
               /\ fetched s' = (fetched s ++ [show url])%list.
Proof.
  intros Hu a s e w' Hg. run_attempt. rewrite Hu, Hg. cbn.
  destruct (a =? maxAttempts)%nat; cbn; eexists; split; try reflexivity; cbn; auto.
Qed.

Lemma first_attempt_dead url num :
  falsy url = false ->
  forall a s e w', http_get (show url) (world s) = (inl e, w') ->
    exists s', GenerateAndEmail.download_attempt url num a s =
                 ((if (a =? maxAttempts)%nat
                   then Threw ("Failed to download " ++ num
                               ++ " after 5 attempts")
                   else Returned Next), s')
               /\ world s' = w'
               /\ fetched s' = (fetched s ++ [show url])%list.
Proof.
  intros Hu a s e w' Hg. run_attempt. rewrite Hu, Hg. cbn.
  destruct (Nat.eqb_spec a maxAttempts) as [->|_]; cbn;
    eexists; split; try reflexivity; cbn; auto.
Qed.

Lemma first_attempt_absent url num :
  falsy url = true ->
  forall a s,
    exists s', GenerateAndEmail.download_attempt url num a s =
                 ((if (a =? maxAttempts)%nat
                   then Threw ("Failed to download " ++ num
                               ++ " after 5 attempts")
                   else Returned Next), s')
               /\ world s' = world s
               /\ fetched s' = fetched s.
Proof.
  intros Hu a s. run_attempt. rewrite Hu. cbn.
  destruct (Nat.eqb_spec a maxAttempts) as [->|_]; cbn;
    eexists; split; try reflexivity; cbn; auto.
Qed.


(** C1 (as amended).  A download whose reference is present and whose
    fetch fails on every attempt makes exactly 5 fetch attempts.  In the
    scheduled handler and in the monthly job it then returns [null]; in
    the first generation it raises "Failed to download ... after 5
    attempts" instead. *)
Theorem download_retry_bound (url : option string) (invoiceNumber : string)
  (s : State) :
  falsy url = false ->
  fetch_fails maxAttempts (show url) (world s) = true ->
  (fst (Scheduled.downloadPdfInMemory url invoiceNumber s) = Returned None /\
   fetched (snd (Scheduled.downloadPdfInMemory url invoiceNumber s))
   = (fetched s ++ repeat (show url) 5)%list) /\
  (fst (MonthlyJob.downloadPdfInMemory url invoiceNumber s) = Returned None /\
   fetched (snd (MonthlyJob.downloadPdfInMemory url invoiceNumber s))
   = (fetched s ++ repeat (show url) 5)%list) /\
  (fst (GenerateAndEmail.downloadPdfInMemory url invoiceNumber s)
   = Threw ("Failed to download " ++ invoiceNumber ++ " after 5 attempts") /\
   fetched (snd (GenerateAndEmail.downloadPdfInMemory url invoiceNumber s))
   = (fetched s ++ repeat (show url) 5)%list).
Proof.
  intros Hu Hf.
  assert (1 <= maxAttempts <= maxAttempts) as Hk by (unfold maxAttempts; lia).
  repeat split.
  all: unfold Scheduled.downloadPdfInMemory, MonthlyJob.downloadPdfInMemory,
         GenerateAndEmail.downloadPdfInMemory.
  - apply (retry_from_dead _ None (show url) (Returned (Return None))
             (scheduled_attempt_dead url invoiceNumber Hu) maxAttempts s Hk Hf).
  - apply (retry_from_dead _ None (show url) (Returned (Return None))
             (scheduled_attempt_dead url invoiceNumber Hu) maxAttempts s Hk Hf).
  - apply (retry_from_dead _ None (show url) (Returned (Return None))
             (monthly_attempt_dead url invoiceNumber Hu) maxAttempts s Hk Hf).
  - apply (retry_from_dead _ None (show url) (Returned (Return None))
             (monthly_attempt_dead url invoiceNumber Hu) maxAttempts s Hk Hf).
  - apply (retry_from_dead _ None (show url) _
             (first_attempt_dead url invoiceNumber Hu) maxAttempts s Hk Hf).
  - apply (retry_from_dead _ None (show url) _
             (first_attempt_dead url invoiceNumber Hu) maxAttempts s Hk Hf).
Qed.

(** C2 (as amended).  A download whose reference is absent makes no
    fetch attempt.  In the scheduled handler and in the monthly job it
    returns [null] at once, having appended exactly one log line; in the
    first generation it raises instead of returning. *)
Theorem download_absent_reference (url : option string)
  (invoiceNumber : string) (s : State) :
  falsy url = true ->
  Scheduled.downloadPdfInMemory url invoiceNumber s
  = (Returned None,
     mkState (world s)
             (console s ++ ["No PDF URL for invoice " ++ invoiceNumber])
             (logs s) (listed s) (fetched s) (sent s)) /\
  MonthlyJob.downloadPdfInMemory url invoiceNumber s
  = (Returned None,
     mkState (world s)
             (console s ++ ["No PDF URL for invoice " ++ invoiceNumber])
             (logs s ++ ["No PDF URL for invoice " ++ invoiceNumber])
             (listed s) (fetched s) (sent s)) /\
  (fst (GenerateAndEmail.downloadPdfInMemory url invoiceNumber s)
   = Threw ("Failed to download " ++ invoiceNumber ++ " after 5 attempts") /\
   fetched (snd (GenerateAndEmail.downloadPdfInMemory url invoiceNumber s))
   = fetched s /\
   world (snd (GenerateAndEmail.downloadPdfInMemory url invoiceNumber s))
   = world s).
Proof.
  intros Hu. split; [|split].
  - unfold Scheduled.downloadPdfInMemory. rewrite retry_from_turn.
    run_attempt. cbn. rewrite Hu. reflexivity.
  - unfold MonthlyJob.downloadPdfInMemory. rewrite retry_from_turn.
    run_attempt. cbn. rewrite Hu. reflexivity.
  - unfold GenerateAndEmail.downloadPdfInMemory.
    apply (retry_from_idle _ None _
             (first_attempt_absent url invoiceNumber Hu) maxAttempts s).
    unfold maxAttempts; lia.
Qed.

End RetryFacts.

(** Witness of C1: the dead host of the demonstration. *)
Lemma download_retry_bound_witness :
  falsy (Some "https://dead") = false /\
  fetch_fails maxAttempts "https://dead" (world Demo.start) = true /\
  fst (Scheduled.downloadPdfInMemory (Some "https://dead") "INV-3" Demo.start)
  = Returned None.
Proof.
  split; [reflexivity|]. split; [reflexivity|].
  apply (download_retry_bound (Some "https://dead") "INV-3" Demo.start);
    reflexivity.
Defined.

(** Counterexample to C1 as stated: the first generation's download of a
    present reference that never answers does not return [null]. *)
Lemma first_generation_download_raises :
  falsy (Some "https://dead") = false /\
  fetch_fails maxAttempts "https://dead" (world Demo.start) = true /\
  fst (GenerateAndEmail.downloadPdfInMemory
         (Some "https://dead") "INV-3" Demo.start)
  = Threw "Failed to download INV-3 after 5 attempts" /\
  fst (GenerateAndEmail.downloadPdfInMemory
         (Some "https://dead") "INV-3" Demo.start)
  <> Returned None.
Proof.
  repeat split; try reflexivity. vm_compute. discriminate.
Qed.

(** Witness of C2: an invoice without a document. *)
Lemma download_absent_reference_witness :
  falsy None = true /\
  Scheduled.downloadPdfInMemory None "INV-2" Demo.start
  = (Returned None,
     mkState (world Demo.start) ["No PDF URL for invoice INV-2"] [] [] [] []).
Proof.
  split; [reflexivity|].
  apply (download_absent_reference None "INV-2" Demo.start). reflexivity.
Defined.

(** Counterexample to C2 as stated: the first generation's download of
    an absent reference raises after nine log lines. *)
Lemma first_generation_absent_reference_raises :
  falsy None = true /\
  fst (GenerateAndEmail.downloadPdfInMemory None "INV-2" Demo.start)
  = Threw "Failed to download INV-2 after 5 attempts" /\
  length (console (snd (GenerateAndEmail.downloadPdfInMemory
                          None "INV-2" Demo.start))) = 9.
Proof.
  repeat split; reflexivity.
Qed.

(** ** The listing *)

Section ListingFacts.
Context {R : Remote}.

Lemma includes_paid_open invoice :
  includes ["paid"; "open"] (status invoice) = primary invoice.
Proof.
  unfold primary. cbn [includes]. rewrite orb_false_r.
  rewrite (String.eqb_sym "paid"), (String.eqb_sym "open"). reflexivity.
Qed.

Lemma primary_iff invoice :
  primary invoice = true <-> status invoice = "paid" \/ status invoice = "open".
Proof.
  unfold primary. rewrite orb_true_iff, !String.eqb_eq. reflexivity.
Qed.

Lemma chatter_refl s : chatter s s.
Proof. repeat split. Qed.

Lemma chatter_trans s1 s2 s3 : chatter s1 s2 -> chatter s2 s3 -> chatter s1 s3.
Proof.
  unfold chatter. intros (a & b & c & d) (a' & b' & c' & d').
  repeat split; congruence.
Qed.

Lemma append_links_nil acc : append_links acc (classified []) = acc.
Proof.
  destruct acc. unfold append_links, classified. cbn. rewrite !app_nil_r.
  reflexivity.
Qed.

Lemma classified_app xs ys :
  classified (xs ++ ys) = append_links (classified xs) (classified ys).
Proof.
  unfold classified, append_links. cbn. rewrite !filter_app, !map_app.
  reflexivity.
Qed.

Lemma append_links_assoc a b c :
  append_links (append_links a b) c = append_links a (append_links b c).
Proof.
  unfold append_links. cbn. rewrite !app_assoc. reflexivity.
Qed.

Lemma append_links_empty b : append_links (mkLinks [] []) b = b.
Proof. destruct b. reflexivity. Qed.

(** The [forEach] of a page appends the page's two categories to the
    arrays and touches nothing but the console. *)
Lemma collect_page records : forall acc s,
  exists s',
    for_of Scheduled.collect_invoice acc records s
    = (Returned (append_links acc (classified records)), s')
    /\ chatter s s'.
Proof.
  induction records as [|invoice rest IH]; intros acc s.
  - exists s. cbn. rewrite append_links_nil. split; [reflexivity|apply chatter_refl].
  - cbn [for_of]. unfold Scheduled.collect_invoice at 1.
    rewrite includes_paid_open.
    unfold bind at 1 2 3. unfold console_log, ret. cbn [fst snd].
    match goal with |- context [for_of _ ?a rest ?s1] =>
      destruct (IH a s1) as (s' & Hrun & Hc) end.
    exists s'. rewrite Hrun. split.
    + f_equal. f_equal. change (invoice :: rest) with ([invoice] ++ rest)%list.
      rewrite classified_app, <- append_links_assoc. f_equal.
      unfold classified, append_links. cbn.
      destruct (primary invoice); cbn; rewrite ?app_nil_r; reflexivity.
    + eapply chatter_trans; [|exact Hc]. repeat split.
Qed.

Lemma first_loop_agrees :
  @GenerateAndEmail.getInvoices_loop R = @Scheduled.getInvoices_loop R.
Proof. reflexivity. Qed.

(** One turn of the [while (true)]. *)
Lemma listing_turn pages stripe gte lte cursor acc s :
  Scheduled.getInvoices_loop (S pages) stripe gte lte cursor acc s =
  let params := mkListParams 10 cursor gte lte in
  let after r w :=
    mkState w (console s) (logs s) (listed s ++ [(params, r)])
            (fetched s) (sent s) in
  match invoices_list stripe params (world s) with
  | (inl e, w) => (Threw e, after (inl e) w)
  | (inr p, w) =>
      match records_of p with
      | [] => (Returned acc, after (inr p) w)
      | records =>
          (acc' <- for_of Scheduled.collect_invoice acc records ;;
           if negb (has_more p) then ret acc'
           else Scheduled.getInvoices_loop pages stripe gte lte (last_id p) acc')
            (after (inr p) w)
      end
  end.
Proof.
  cbn [Scheduled.getInvoices_loop]. unfold bind at 1, invoices_list_call.
  cbn zeta.
  destruct (invoices_list stripe (mkListParams 10 cursor gte lte) (world s))
    as [[e|p] w]; [reflexivity|].
  unfold last_id, records_of.
  destruct (data p) as [[|invoice rest]|]; reflexivity.
Qed.

(** A listing makes the requests of [walk], receives its answers and
    ends as [walk] stops. *)
Lemma listing_walk pages : forall stripe gte lte cursor acc s xs stop w,
  walk pages stripe gte lte cursor (world s) = (xs, stop, w) ->
  fst (Scheduled.getInvoices_loop pages stripe gte lte cursor acc s)
  = match stop with
    | StopFinal => Returned (append_links acc (classified (received xs)))
    | StopRaised e => Threw e
    | StopBudget => Diverged
    end /\
  listed (snd (Scheduled.getInvoices_loop pages stripe gte lte cursor acc s))
  = (listed s ++ xs)%list /\
  world (snd (Scheduled.getInvoices_loop pages stripe gte lte cursor acc s))
  = w /\
  fetched (snd (Scheduled.getInvoices_loop pages stripe gte lte cursor acc s))
  = fetched s /\
  sent (snd (Scheduled.getInvoices_loop pages stripe gte lte cursor acc s))
  = sent s.
Proof.
  induction pages as [|pages IH];
    intros stripe gte lte cursor acc s xs stop w Hwalk.
  - cbn in Hwalk. inversion Hwalk; subst. cbn. rewrite app_nil_r. auto.
  - rewrite listing_turn. cbn zeta. cbn [walk] in Hwalk. cbn zeta in Hwalk.
    destruct (invoices_list stripe (mkListParams 10 cursor gte lte) (world s))
      as [[e|p] w1].
    + inversion Hwalk; subst. cbn. auto.
    + unfold final_page in Hwalk.
      destruct (records_of p) as [|invoice rest] eqn:Hrec.
      * inversion Hwalk; subst. cbn. rewrite Hrec. cbn.
        rewrite append_links_nil. auto.
      * unfold bind.
        match goal with |- context [for_of _ _ _ ?s1] =>
          destruct (collect_page (invoice :: rest) acc s1)
            as (s2 & Hcol & (Hw & Hli & Hfe & Hse)) end.
        rewrite Hcol. cbn in Hw, Hli, Hfe, Hse.
        destruct (has_more p) eqn:Hmore; cbn [negb] in *.
        -- destruct (walk pages stripe gte lte (last_id p) w1)
             as [[xs1 stop1] w2] eqn:Hrest.
           inversion Hwalk; subst.
           destruct (IH stripe gte lte (last_id p)
                       (append_links acc (classified (invoice :: rest)))
                       s2 xs1 stop w Hrest) as (H1 & H2 & H3 & H4 & H5).
           rewrite H1, H2, H3, H4, H5, Hli, Hfe, Hse, <- app_assoc.
           repeat split. destruct stop; try reflexivity.
           cbn [received flat_map snd]. rewrite Hrec.
           fold (received xs1).
           rewrite classified_app, append_links_assoc. reflexivity.
        -- inversion Hwalk; subst. cbn [fst snd ret].
           rewrite Hli, Hfe, Hse. repeat split; try assumption.
           cbn. rewrite Hrec, app_nil_r. reflexivity.
Qed.

Lemma walk_paging budget : forall stripe gte lte cursor w xs stop w',
  walk budget stripe gte lte cursor w = (xs, stop, w') ->
  paging gte lte budget cursor xs stop.
Proof.
  induction budget as [|budget IH];
    intros stripe gte lte cursor w xs stop w' Hwalk; cbn in Hwalk.
  - inversion Hwalk. constructor.
  - destruct (invoices_list stripe (mkListParams 10 cursor gte lte) w)
      as [[e|p] w1].
    + inversion Hwalk. constructor.
    + destruct (final_page p) eqn:Hp.
      * inversion Hwalk. constructor. exact Hp.
      * destruct (walk budget stripe gte lte (last_id p) w1)
          as [[xs1 stop1] w2] eqn:Hrest.
        inversion Hwalk; subst. apply paging_more; [exact Hp|].
        apply (IH _ _ _ _ _ _ _ _ Hrest).
Qed.

Lemma paging_length gte lte budget cursor xs stop :
  paging gte lte budget cursor xs stop ->
  length xs <= budget /\ (stop = StopBudget -> length xs = budget).
Proof.
  induction 1 as [cursor|budget cursor e|budget cursor p Hp
                 |budget cursor p xs stop Hp Hrest [IH1 IH2]]; cbn.
  - auto.
  - split; [lia|discriminate].
  - split; [lia|discriminate].
  - split; [lia|]. intros Hs. rewrite (IH2 Hs). reflexivity.
Qed.

Lemma paging_raised_iff gte lte budget cursor xs stop :
  paging gte lte budget cursor xs stop ->
  existsb raised xs = true <-> exists e, stop = StopRaised e.
Proof.
  induction 1; cbn.
  - split; [discriminate|intros [e He]; discriminate].
  - split; eauto.
  - split; [discriminate|intros [e He]; discriminate].
  - assumption.
Qed.

(** The handler of the scheduled listing turns a raised error into two
    empty sequences and makes no request. *)
Lemma guarded_listing pages stripe gte lte s :
  listed (snd (Scheduled.getInvoices pages stripe gte lte s))
  = listed (snd (Scheduled.getInvoices_loop pages stripe gte lte None
                   (mkLinks [] []) s)) /\
  world (snd (Scheduled.getInvoices pages stripe gte lte s))
  = world (snd (Scheduled.getInvoices_loop pages stripe gte lte None
                  (mkLinks [] []) s)) /\
  fst (Scheduled.getInvoices pages stripe gte lte s)
  = match fst (Scheduled.getInvoices_loop pages stripe gte lte None
                 (mkLinks [] []) s) with
    | Threw _ => Returned (mkLinks [] [])
    | out => out
    end.
Proof.
  unfold Scheduled.getInvoices, try_catch.
  destruct (Scheduled.getInvoices_loop pages stripe gte lte None
              (mkLinks [] []) s) as [[links|e|] s1]; cbn; auto.
Qed.

(** What both listings do, by the walk of the source. *)
Lemma listings_walk pages stripe gte lte s xs stop w :
  walk pages stripe gte lte None (world s) = (xs, stop, w) ->
  (listed (snd (Scheduled.getInvoices pages stripe gte lte s))
   = (listed s ++ xs)%list /\
   world (snd (Scheduled.getInvoices pages stripe gte lte s)) = w /\
   fst (Scheduled.getInvoices pages stripe gte lte s)
   = match stop with
     | StopFinal => Returned (classified (received xs))
     | StopRaised _ => Returned (mkLinks [] [])
     | StopBudget => Diverged
     end) /\
  (listed (snd (GenerateAndEmail.getInvoices pages stripe gte lte s))
   = (listed s ++ xs)%list /\
   world (snd (GenerateAndEmail.getInvoices pages stripe gte lte s)) = w /\
   fst (GenerateAndEmail.getInvoices pages stripe gte lte s)
   = match stop with
     | StopFinal => Returned (classified (received xs))
     | StopRaised e => Threw e
     | StopBudget => Diverged
     end).
Proof.
  intros Hwalk.
  destruct (listing_walk pages stripe gte lte None (mkLinks [] []) s
              xs stop w Hwalk) as (Hout & Hl & Hw & _).
  rewrite append_links_empty in Hout.
  split.
  - destruct (guarded_listing pages stripe gte lte s) as (H1 & H2 & H3).
    rewrite H1, H2, H3, Hout, Hl, Hw. destruct stop; auto.
  - unfold GenerateAndEmail.getInvoices. rewrite first_loop_agrees. auto.
Qed.

(** C3 (as amended).  When a request of a listing raises, at any page,
    the scheduled handler's listing returns two empty sequences: what
    earlier pages delivered is dropped and nothing is raised.  The first
    generation's listing has no handler and raises the error to its
    caller. *)
Theorem listing_failure_policy (pages : nat) (stripe : Stripe) (gte lte : Z)
  (s : State) (xs : list Exchange) :
  existsb raised xs = true ->
  (listed (snd (Scheduled.getInvoices pages stripe gte lte s))
   = (listed s ++ xs)%list ->
   fst (Scheduled.getInvoices pages stripe gte lte s)
   = Returned (mkLinks [] [])) /\
  (listed (snd (GenerateAndEmail.getInvoices pages stripe gte lte s))
   = (listed s ++ xs)%list ->
   exists e, fst (GenerateAndEmail.getInvoices pages stripe gte lte s)
             = Threw e).
Proof.
  intros Hraised.
  destruct (walk pages stripe gte lte None (world s)) as [[xs' stop] w]
    eqn:Hwalk.
  pose proof (walk_paging _ _ _ _ _ _ _ _ _ Hwalk) as Hpg.
  destruct (listings_walk _ _ _ _ _ _ _ _ Hwalk)
    as ((Hl1 & _ & Hout1) & (Hl2 & _ & Hout2)).
  split; intros Hxs.
  - rewrite Hl1 in Hxs. apply app_inv_head in Hxs. subst xs'.
    apply (paging_raised_iff _ _ _ _ _ _ Hpg) in Hraised.
    destruct Hraised as [e ->]. exact Hout1.
  - rewrite Hl2 in Hxs. apply app_inv_head in Hxs. subst xs'.
    apply (paging_raised_iff _ _ _ _ _ _ Hpg) in Hraised.
    destruct Hraised as [e ->]. eauto.
Qed.

(** C5.  When the pages of the source end within the page budget, on a
    page without records or without a further page, the listing returns,
    and it returns the records it received, page after page, split by
    status: the primary sequence holds the records whose status is
    "paid" or "open", the other sequence the rest, each in the order
    received.  So in the scheduled handler and in the first
    generation. *)
Theorem listing_classifies (pages : nat) (stripe : Stripe) (gte lte : Z)
  (s : State) (xs : list Exchange) (w : World) :
  walk pages stripe gte lte None (world s) = (xs, StopFinal, w) ->
  (fst (Scheduled.getInvoices pages stripe gte lte s)
   = Returned (classified (received xs)) /\
   listed (snd (Scheduled.getInvoices pages stripe gte lte s))
   = (listed s ++ xs)%list) /\
  (fst (GenerateAndEmail.getInvoices pages stripe gte lte s)
   = Returned (classified (received xs)) /\
   listed (snd (GenerateAndEmail.getInvoices pages stripe gte lte s))
   = (listed s ++ xs)%list) /\
  (forall link,
     In link (paidAndOpenLinks (classified (received xs))) <->
     exists invoice,
       In invoice (received xs) /\ link = pdfLink_of invoice /\
       (status invoice = "paid" \/ status invoice = "open")) /\
  (forall link,
     In link (otherStatusLinks (classified (received xs))) <->
     exists invoice,
       In invoice (received xs) /\ link = pdfLink_of invoice /\
       ~ (status invoice = "paid" \/ status invoice = "open")).
Proof.
  intros Hwalk.
  destruct (listings_walk _ _ _ _ _ _ _ _ Hwalk)
    as ((Hl1 & _ & Hout1) & (Hl2 & _ & Hout2)).
  split; [auto|]. split; [auto|].
  split; intros link; cbn; rewrite in_map_iff; split.
  - intros (invoice & <- & Hin). apply filter_In in Hin.
    destruct Hin as [Hin Hp]. exists invoice.
    split; [exact Hin|]. split; [reflexivity|]. apply primary_iff. exact Hp.
  - intros (invoice & Hin & -> & Hs). exists invoice.
    split; [reflexivity|]. apply filter_In. split; [exact Hin|].
    apply primary_iff. exact Hs.
  - intros (invoice & <- & Hin). apply filter_In in Hin.
    destruct Hin as [Hin Hp]. exists invoice.
    split; [exact Hin|]. split; [reflexivity|]. intros Hs.
    apply primary_iff in Hs. rewrite Hs in Hp. discriminate.
  - intros (invoice & Hin & -> & Hs). exists invoice.
    split; [reflexivity|]. apply filter_In. split; [exact Hin|].
    destruct (primary invoice) eqn:Hp; [|reflexivity].
    exfalso. apply Hs. apply primary_iff. exact Hp.
Qed.

(** C6.  The exchanges of a listing are those of the walk of the source:
    every request asks for 10 records of the window; the first has no
    cursor and each later one continues after the last identifier of the
    page before; after a page that holds records and signals more the
    listing asks again, and it returns at the first page that does not
    ([paging]).  A request that raises ends it too (C3).  It is still
    asking only when the page budget is used up, one request per page of
    the budget. *)
Theorem listing_pages (pages : nat) (stripe : Stripe) (gte lte : Z)
  (s : State) (xs : list Exchange) (stop : Stop) (w : World) :
  walk pages stripe gte lte None (world s) = (xs, stop, w) ->
  paging gte lte pages None xs stop /\
  length xs <= pages /\
  (stop = StopBudget -> length xs = pages) /\
  (listed (snd (Scheduled.getInvoices pages stripe gte lte s))
   = (listed s ++ xs)%list /\
   world (snd (Scheduled.getInvoices pages stripe gte lte s)) = w /\
   fst (Scheduled.getInvoices pages stripe gte lte s)
   = match stop with
     | StopFinal => Returned (classified (received xs))
     | StopRaised _ => Returned (mkLinks [] [])
     | StopBudget => Diverged
     end) /\
  (listed (snd (GenerateAndEmail.getInvoices pages stripe gte lte s))
   = (listed s ++ xs)%list /\
   world (snd (GenerateAndEmail.getInvoices pages stripe gte lte s)) = w /\
   fst (GenerateAndEmail.getInvoices pages stripe gte lte s)
   = match stop with
     | StopFinal => Returned (classified (received xs))
     | StopRaised e => Threw e
     | StopBudget => Diverged
     end).
Proof.
  intros Hwalk.
  pose proof (walk_paging _ _ _ _ _ _ _ _ _ Hwalk) as Hpg.
  destruct (paging_length _ _ _ _ _ _ Hpg) as [Hle Hbudget].
  split; [exact Hpg|]. split; [exact Hle|]. split; [exact Hbudget|].
  apply (listings_walk _ _ _ _ _ _ _ _ Hwalk).
Qed.

End ListingFacts.

(** Witness of C3: the second page of "sk_flaky" raises after two
    records were received. *)
Lemma listing_failure_policy_witness :
  existsb raised Demo.exchanges_flaky = true /\
  fst (@Scheduled.getInvoices Demo.remote 5 "sk_flaky"
         Demo.window_start Demo.window_end Demo.start)
  = Returned (mkLinks [] []).
Proof.
  split; [reflexivity|].
  apply (@listing_failure_policy Demo.remote 5 "sk_flaky"
           Demo.window_start Demo.window_end Demo.start Demo.exchanges_flaky);
    reflexivity.
Defined.

(** Counterexample to C3 as stated: the first generation's listing lets
    the error of the second page through. *)
Lemma first_generation_listing_raises :
  listed (snd (@GenerateAndEmail.getInvoices Demo.remote 5 "sk_flaky"
                 Demo.window_start Demo.window_end Demo.start))
  = Demo.exchanges_flaky /\
  fst (@GenerateAndEmail.getInvoices Demo.remote 5 "sk_flaky"
         Demo.window_start Demo.window_end Demo.start)
  = Threw "rate limited" /\
  fst (@GenerateAndEmail.getInvoices Demo.remote 5 "sk_flaky"
         Demo.window_start Demo.window_end Demo.start)
  <> Returned (mkLinks [] []).
Proof.
  repeat split; try reflexivity. vm_compute. discriminate.
Qed.

(** Witness of C5: the three invoices of "sk_two", received on two
    pages, in the scheduled handler and in the first generation. *)
Lemma listing_classifies_witness :
  @walk Demo.remote 5 "sk_two" Demo.window_start Demo.window_end None
    (world Demo.start)
  = (Demo.exchanges_two, StopFinal, 2) /\
  fst (@Scheduled.getInvoices Demo.remote 5 "sk_two"
         Demo.window_start Demo.window_end Demo.start)
  = Returned (classified [Demo.inv1; Demo.inv2; Demo.inv3]) /\
  fst (@GenerateAndEmail.getInvoices Demo.remote 5 "sk_two"
         Demo.window_start Demo.window_end Demo.start)
  = Returned (mkLinks [pdfLink_of Demo.inv1; pdfLink_of Demo.inv3]
                      [pdfLink_of Demo.inv2]).
Proof.
  assert (@walk Demo.remote 5 "sk_two" Demo.window_start Demo.window_end None
            (world Demo.start)
          = (Demo.exchanges_two, StopFinal, 2)) as Hwalk
    by (vm_compute; reflexivity).
  split; [exact Hwalk|].
  exact (conj
           (proj1 (proj1 (@listing_classifies Demo.remote 5 "sk_two"
                            Demo.window_start Demo.window_end Demo.start
                            Demo.exchanges_two 2 Hwalk)))
           (proj1 (proj1 (proj2 (@listing_classifies Demo.remote 5 "sk_two"
                                   Demo.window_start Demo.window_end
                                   Demo.start Demo.exchanges_two 2 Hwalk))))).
Defined.

(** Witness of C6: the listing of "sk_flaky", whose second request
    raises, in the scheduled handler and in the first generation. *)
Lemma listing_pages_witness :
  @walk Demo.remote 5 "sk_flaky" Demo.window_start Demo.window_end None
    (world Demo.start)
  = (Demo.exchanges_flaky, StopRaised "rate limited", 2) /\
  listed (snd (@Scheduled.getInvoices Demo.remote 5 "sk_flaky"
                 Demo.window_start Demo.window_end Demo.start))
  = (listed Demo.start ++ Demo.exchanges_flaky)%list /\
  listed (snd (@GenerateAndEmail.getInvoices Demo.remote 5 "sk_flaky"
                 Demo.window_start Demo.window_end Demo.start))
  = (listed Demo.start ++ Demo.exchanges_flaky)%list.
Proof.
  assert (@walk Demo.remote 5 "sk_flaky" Demo.window_start Demo.window_end
            None (world Demo.start)
          = (Demo.exchanges_flaky, StopRaised "rate limited", 2)) as Hwalk
    by (vm_compute; reflexivity).
  split; [exact Hwalk|].
  exact (conj
           (proj1 (proj1 (proj2 (proj2 (proj2
              (@listing_pages Demo.remote 5 "sk_flaky"
                 Demo.window_start Demo.window_end Demo.start
                 Demo.exchanges_flaky (StopRaised "rate limited") 2
                 Hwalk))))))
           (proj1 (proj2 (proj2 (proj2 (proj2
              (@listing_pages Demo.remote 5 "sk_flaky"
                 Demo.window_start Demo.window_end Demo.start
                 Demo.exchanges_flaky (StopRaised "rate limited") 2
                 Hwalk))))))).
Defined.

(** The two requests of the listing of "sk_two": page size 10, the
    window, no cursor and then the last identifier of the first page;
    and a budget of one page, used up after the first. *)
Example listing_pages_two :
  map fst (listed (snd (@Scheduled.getInvoices Demo.remote 5 "sk_two"
                          Demo.window_start Demo.window_end Demo.start)))
  = [mkListParams 10 None Demo.window_start Demo.window_end;
     mkListParams 10 (Some "in_2") Demo.window_start Demo.window_end] /\
  @walk Demo.remote 1 "sk_two" Demo.window_start Demo.window_end None
    (world Demo.start)
  = ([(mkListParams 10 None Demo.window_start Demo.window_end,
       inr (mkListPage (Some [Demo.inv1; Demo.inv2]) true))],
     StopBudget, 1) /\
  fst (@GenerateAndEmail.getInvoices Demo.remote 1 "sk_two"
         Demo.window_start Demo.window_end Demo.start)
  = Diverged.
Proof. repeat split; vm_compute; reflexivity. Qed.

(** ** Merging *)

Section MergeFacts.
Context {R : Remote}.

Lemma merge_step_run mergedPdf buffer s :
  Scheduled.merge_step mergedPdf buffer s =
  match buffer with
  | None => (Returned mergedPdf, s)
  | Some _ =>
      match buffer_pages buffer with
      | inl e => (Threw e, s)
      | inr pages => (Returned (mergedPdf ++ pages)%list, s)
      end
  end.
Proof.
  unfold Scheduled.merge_step, buffer_pages, bind, lift, throw, ret.
  destruct buffer as [b|]; [|reflexivity].
  destruct (PDFDocument_load (Some b)) as [e|tempPdf]; [reflexivity|].
  destruct (copyPages tempPdf); reflexivity.
Qed.

(** The merge loop adds the pages of the non-null buffers in input order
    and stops at the first buffer that fails. *)
Lemma merge_loop buffers : forall mergedPdf s,
  for_of Scheduled.merge_step mergedPdf buffers s =
  match merged_pages buffers with
  | inl e => (Threw e, s)
  | inr pages => (Returned (mergedPdf ++ pages)%list, s)
  end.
Proof.
  induction buffers as [|buffer rest IH]; intros mergedPdf s.
  - cbn. rewrite app_nil_r. reflexivity.
  - cbn [for_of merged_pages]. unfold bind. rewrite merge_step_run.
    destruct buffer as [b|].
    + destruct (buffer_pages (Some b)) as [e|pages]; [reflexivity|].
      rewrite IH. destruct (merged_pages rest); [reflexivity|].
      rewrite app_assoc. reflexivity.
    + apply IH.
Qed.

Lemma scheduled_merge buffers s :
  Scheduled.mergePdfs buffers s =
  match merged_pages buffers with
  | inr pages => (Returned (Some (PDFDocument_save pages)), s)
  | inl e =>
      (Returned None,
       mkState (world s)
               (console s ++ ["Error merging PDF buffers: " ++ inspect_error e])
               (logs s) (listed s) (fetched s) (sent s))
  end.
Proof.
  unfold Scheduled.mergePdfs, try_catch, bind. rewrite merge_loop.
  destruct (merged_pages buffers); reflexivity.
Qed.

Lemma merged_pages_of_nothing buffers :
  Forall (fun b : option Bytes => b = None) buffers ->
  merged_pages buffers = inr [].
Proof.
  induction 1 as [|b rest Hb _ IH]; [reflexivity|]. subst b. exact IH.
Qed.

(** The first generation's loop loads every entry and lets the first
    failure through. *)
Lemma first_merge_loop buffers : forall mergedPdf s b e,
  In b buffers -> buffer_pages b = inl e ->
  exists e', for_of GenerateAndEmail.merge_step mergedPdf buffers s
             = (Threw e', s).
Proof.
  induction buffers as [|buffer rest IH]; intros mergedPdf s b e Hin Hb;
    [contradiction|].
  cbn [for_of]. unfold bind.
  assert (GenerateAndEmail.merge_step mergedPdf buffer s =
          match buffer_pages buffer with
          | inl e => (Threw e, s)
          | inr pages => (Returned (mergedPdf ++ pages)%list, s)
          end) as Hstep.
  { unfold GenerateAndEmail.merge_step, buffer_pages, bind, lift, throw, ret.
    destruct (PDFDocument_load buffer) as [e0|tempPdf]; [reflexivity|].
    destruct (copyPages tempPdf); reflexivity. }
  rewrite Hstep.
  destruct (buffer_pages buffer) as [e0|pages] eqn:Hbuf; [eauto|].
  destruct Hin as [->|Hin]; [congruence|].
  apply (IH _ s b e Hin Hb).
Qed.

(** C9 (as amended).  The scheduled handler's merge skips null entries,
    appends the pages of the other buffers in input order and saves
    them; when a buffer fails to load or copy it logs one line and
    returns [null], with nothing raised and nothing merged.  The first
    generation's merge loads every entry and raises the failure. *)
Theorem merge_policy (buffers : list (option Bytes)) (s : State) :
  Scheduled.mergePdfs buffers s
  = match merged_pages buffers with
    | inr pages => (Returned (Some (PDFDocument_save pages)), s)
    | inl e =>
        (Returned None,
         mkState (world s)
                 (console s ++ ["Error merging PDF buffers: " ++ inspect_error e])
                 (logs s) (listed s) (fetched s) (sent s))
    end /\
  (forall b e, In b buffers -> buffer_pages b = inl e ->
     exists e', GenerateAndEmail.mergePdfs buffers s = (Threw e', s)).
Proof.
  split; [apply scheduled_merge|].
  intros b e Hin Hb. unfold GenerateAndEmail.mergePdfs, bind.
  destruct (first_merge_loop buffers [] s b e Hin Hb) as [e' ->]. eauto.
Qed.

(** C10 (as amended).  A merge of no non-null buffer returns what
    [save] makes of the document no page was added to, not [null], and
    logs nothing; so when every download of a category with records is
    unavailable, [finalPdfBuffer] is that document and the handler's
    fallback on [null] is not taken.  How many pages the saved bytes
    hold is [save]'s doing, not the merge's: pdf-lib's puts one blank
    page into them. *)
Theorem merge_of_nothing (buffers : list (option Bytes))
  (configKey name : string) (links : list PdfLink) (s s1 : State) :
  Forall (fun b : option Bytes => b = None) buffers ->
  links <> [] ->
  Scheduled.download_all links s = (Returned [], s1) ->
  Scheduled.mergePdfs buffers s = (Returned (Some nothing_merged), s) /\
  Scheduled.finalPdf configKey name links s
  = (Returned (Some nothing_merged), s1).
Proof.
  intros Hnone Hlinks Hdl. split.
  - rewrite scheduled_merge, (merged_pages_of_nothing buffers Hnone).
    reflexivity.
  - unfold Scheduled.finalPdf.
    destruct links as [|link rest]; [congruence|]. cbn [length Nat.ltb Nat.leb].
    unfold bind. rewrite Hdl, scheduled_merge. reflexivity.
Qed.

End MergeFacts.

(** Counterexample to C9 as stated: the first generation's merge raises
    on a buffer that is not a document, and on a null entry. *)
Lemma first_generation_merge_raises :
  @GenerateAndEmail.mergePdfs Demo.remote [Some [7]; Some []] Demo.start
  = (Threw "not a PDF", Demo.start) /\
  @GenerateAndEmail.mergePdfs Demo.remote [None; Some [7]] Demo.start
  = (Threw "not a buffer", Demo.start).
Proof. split; reflexivity. Qed.

(** Witness of C10: two null entries, and a category whose one record
    has no document. *)
Lemma merge_of_nothing_witness :
  Forall (fun b : option (@Bytes Demo.remote) => b = None) [None; None] /\
  [pdfLink_of Demo.inv2] <> [] /\
  Scheduled.download_all [pdfLink_of Demo.inv2] Demo.start
  = (Returned [],
     mkState (world Demo.start) ["No PDF URL for invoice INV-2"] [] [] [] []) /\
  Scheduled.mergePdfs [None; None] Demo.start
  = (Returned (Some nothing_merged), Demo.start).
Proof.
  split; [repeat constructor|]. split; [discriminate|]. split; [reflexivity|].
  apply (merge_of_nothing [None; None] "ET" "Other_Status"
           [pdfLink_of Demo.inv2] Demo.start
           (mkState (world Demo.start) ["No PDF URL for invoice INV-2"]
                    [] [] [] [])).
  - repeat constructor.
  - discriminate.
  - reflexivity.
Defined.

(** Counterexample to C10 as stated: with a [save] that gives a document
    without pages one blank page, as pdf-lib's does, the merge of
    nothing is a document of one page, not of none. *)
Lemma merge_of_nothing_has_a_page :
  fst (@Scheduled.mergePdfs Demo.remote [None; None] Demo.start)
  = Returned (Some [0]) /\
  @PDFDocument_load Demo.remote (Some [0]) = inr [@addPage Demo.remote] /\
  @PDFDocument_load Demo.remote (Some [0]) <> inr [].
Proof.
  split; [reflexivity|]. split; [reflexivity|]. discriminate.
Qed.

(** C4, at the input where the scheduled handler departs from it: a
    category whose one record has no document.  The handler's composite
    is the merge of nothing, which is not the placeholder; the
    trailing-range job gives the placeholder, and so do both for a
    category without records. *)
Theorem composite_of_unavailable_downloads :
  fst (Scheduled.finalPdf "ET" "Other_Status" [pdfLink_of Demo.inv2] Demo.start)
  = Returned (Some nothing_merged) /\
  @nothing_merged Demo.remote <> placeholder /\
  fst (RangeJob.finalPdf "ET" "Other_Status" [pdfLink_of Demo.inv2] Demo.start)
  = Returned (Some placeholder) /\
  fst (Scheduled.finalPdf "ET" "Other_Status" [] Demo.start)
  = Returned (Some placeholder) /\
  fst (RangeJob.finalPdf "ET" "Other_Status" [] Demo.start)
  = Returned (Some placeholder).
Proof.
  repeat split; try reflexivity. vm_compute. discriminate.
Qed.

(** ** Steps that send no message *)

Section Frame.
Context {R : Remote}.

Lemma sends_nothing_ret {A} (a : A) : sends_nothing (ret a).
Proof. intros s. reflexivity. Qed.

Lemma sends_nothing_throw {A} e : sends_nothing (@throw R A e).
Proof. intros s. reflexivity. Qed.

Lemma sends_nothing_diverge {A} : sends_nothing (@diverge R A).
Proof. intros s. reflexivity. Qed.

Lemma sends_nothing_bind {A B} (m : M A) (k : A -> M B) :
  sends_nothing m -> (forall a, sends_nothing (k a)) ->
  sends_nothing (bind m k).
Proof.
  intros Hm Hk s. unfold bind. specialize (Hm s).
  destruct (m s) as [[a|e|] s']; cbn in *; [|assumption|assumption].
  rewrite Hk. assumption.
Qed.

Lemma sends_nothing_try_catch {A} (m : M A) (h : string -> M A) :
  sends_nothing m -> (forall e, sends_nothing (h e)) ->
  sends_nothing (try_catch m h).
Proof.
  intros Hm Hh s. unfold try_catch. specialize (Hm s).
  destruct (m s) as [[a|e|] s']; cbn in *; [assumption| |assumption].
  rewrite Hh. assumption.
Qed.

Lemma sends_nothing_console_log line : sends_nothing (console_log line).
Proof. intros s. reflexivity. Qed.

Lemma sends_nothing_pushLog line : sends_nothing (pushLog line).
Proof. intros s. reflexivity. Qed.

Lemma sends_nothing_lift {A} (r : string + A) : sends_nothing (lift r).
Proof. intros s. destruct r; reflexivity. Qed.

Lemma sends_nothing_http url : sends_nothing (http_get_call url).
Proof.
  intros s. unfold http_get_call.
  destruct (http_get url (world s)) as [[e|b] w]; reflexivity.
Qed.

Lemma sends_nothing_list stripe params :
  sends_nothing (invoices_list_call stripe params).
Proof.
  intros s. unfold invoices_list_call.
  destruct (invoices_list stripe params (world s)) as [[e|p] w]; reflexivity.
Qed.

Lemma sends_nothing_for_of {A X} (body : A -> X -> M A) xs :
  (forall acc x, sends_nothing (body acc x)) ->
  forall acc, sends_nothing (for_of body acc xs).
Proof.
  intros Hbody. induction xs as [|x rest IH]; intros acc; cbn [for_of].
  - apply sends_nothing_ret.
  - apply sends_nothing_bind; [apply Hbody|exact IH].
Qed.

Lemma sends_nothing_retry {A} (body : nat -> M (Flow A)) after :
  (forall a, sends_nothing (body a)) ->
  forall a, sends_nothing (retry_from body after a).
Proof.
  intros Hbody a. remember (S maxAttempts - a) as k eqn:Hk.
  revert a Hk. induction k as [|k IH]; intros a Hk s;
    rewrite retry_from_turn;
    destruct (le_dec a maxAttempts) as [Hle|Hgt]; try reflexivity; try lia.
  revert s. apply sends_nothing_bind; [apply Hbody|].
  intros [v|]; [apply sends_nothing_ret|].
  destruct k as [|k'].
  - intros s. rewrite retry_from_turn.
    destruct (le_dec (S a) maxAttempts); [lia|reflexivity].
  - apply IH. lia.
Qed.

End Frame.

Create HintDb routes.
#[local] Hint Unfold
  Scheduled.gather Scheduled.key_step Scheduled.category_step
  Scheduled.finalPdf Scheduled.download_all Scheduled.downloadPdfInMemory
  Scheduled.download_attempt Scheduled.mergePdfs Scheduled.merge_step
  Scheduled.createEmptyPdf Scheduled.getInvoices Scheduled.collect_invoice
  Scheduled.STRIPE_KEYS
  GenerateAndEmail.gather GenerateAndEmail.key_step
  GenerateAndEmail.category_step GenerateAndEmail.finalPdf
  GenerateAndEmail.download_all GenerateAndEmail.downloadPdfInMemory
  GenerateAndEmail.download_attempt GenerateAndEmail.mergePdfs
  GenerateAndEmail.merge_step GenerateAndEmail.createEmptyPdf
  GenerateAndEmail.getInvoices GenerateAndEmail.collect_invoice
  MonthlyJob.gather MonthlyJob.key_step MonthlyJob.category_step
  MonthlyJob.finalPdf MonthlyJob.download_all MonthlyJob.downloadPdfInMemory
  MonthlyJob.download_attempt MonthlyJob.mergePdfs MonthlyJob.merge_step
  MonthlyJob.createEmptyPdf MonthlyJob.getInvoices MonthlyJob.getInvoices_with
  MonthlyJob.collect_invoice MonthlyJob.STRIPE_KEYS
  console_error console_warn : routes.

Create HintDb quiet.
#[local] Hint Resolve
  sends_nothing_ret sends_nothing_throw sends_nothing_diverge
  sends_nothing_console_log sends_nothing_pushLog sends_nothing_lift
  sends_nothing_http sends_nothing_list : quiet.

(** Takes a step apart along its binds, handlers, loops and tests. *)
Ltac quiet :=
  repeat first
    [ progress cbv beta
    | solve [auto with quiet]
    | apply sends_nothing_bind
    | apply sends_nothing_try_catch
    | apply sends_nothing_for_of
    | apply sends_nothing_retry
    | match goal with
      | |- forall _, _ => intro
      | |- sends_nothing (if ?b then _ else _) => destruct b
      | |- sends_nothing (match ?x with _ => _ end) => destruct x
      | |- sends_nothing (let (_, _) := ?p in _) => destruct p
      end ].

(** ** Steps that do not read the [logs] array *)

Section LogsFrame.
Context {R : Remote}.

Lemma same_but_logs_fresh s : same_but_logs s (fresh_logs s).
Proof. repeat split. Qed.

Lemma ignores_logs_const {A} (out : Outcome A) :
  ignores_logs (fun s => (out, s)).
Proof. intros s s' H. split; [reflexivity|exact H]. Qed.

Lemma ignores_logs_ret {A} (a : A) : ignores_logs (ret a).
Proof. apply ignores_logs_const. Qed.

Lemma ignores_logs_throw {A} e : ignores_logs (@throw R A e).
Proof. apply ignores_logs_const. Qed.

Lemma ignores_logs_diverge {A} : ignores_logs (@diverge R A).
Proof. apply ignores_logs_const. Qed.

Lemma ignores_logs_lift {A} (r : string + A) : ignores_logs (lift r).
Proof. destruct r; apply ignores_logs_const. Qed.

Lemma ignores_logs_pushLog line : ignores_logs (pushLog line).
Proof.
  intros s s' (Hw & Hc & Hl & Hf & Hs). unfold same_but_logs, pushLog. cbn.
  rewrite Hw, Hc, Hl, Hf, Hs. repeat split.
Qed.

Lemma ignores_logs_http url : ignores_logs (http_get_call url).
Proof.
  intros s s' (Hw & Hc & Hl & Hf & Hs). unfold same_but_logs, http_get_call.
  rewrite Hw. destruct (http_get url (world s')) as [[e|b] w]; cbn;
    rewrite Hc, Hl, Hf, Hs; repeat split.
Qed.

Lemma ignores_logs_list stripe params :
  ignores_logs (invoices_list_call stripe params).
Proof.
  intros s s' (Hw & Hc & Hl & Hf & Hs).
  unfold same_but_logs, invoices_list_call.
  rewrite Hw. destruct (invoices_list stripe params (world s')) as [[e|p] w];
    cbn; rewrite Hc, Hl, Hf, Hs; repeat split.
Qed.

Lemma ignores_logs_bind {A B} (m : M A) (k : A -> M B) :
  ignores_logs m -> (forall a, ignores_logs (k a)) -> ignores_logs (bind m k).
Proof.
  intros Hm Hk s s' H. unfold bind. destruct (Hm s s' H) as [Hout Hst].
  destruct (m s) as [out s1], (m s') as [out' s1']. cbn in Hout, Hst.
  subst out'. destruct out as [a|e|]; [apply (Hk a); exact Hst| |]; auto.
Qed.

Lemma ignores_logs_try_catch {A} (m : M A) (h : string -> M A) :
  ignores_logs m -> (forall e, ignores_logs (h e)) ->
  ignores_logs (try_catch m h).
Proof.
  intros Hm Hh s s' H. unfold try_catch. destruct (Hm s s' H) as [Hout Hst].
  destruct (m s) as [out s1], (m s') as [out' s1']. cbn in Hout, Hst.
  subst out'. destruct out as [a|e|]; [|apply (Hh e); exact Hst|]; auto.
Qed.

Lemma ignores_logs_for_of {A X} (body : A -> X -> M A) xs :
  (forall acc x, ignores_logs (body acc x)) ->
  forall acc, ignores_logs (for_of body acc xs).
Proof.
  intros Hbody. induction xs as [|x rest IH]; intros acc; cbn [for_of].
  - apply ignores_logs_ret.
  - apply ignores_logs_bind; [apply Hbody|exact IH].
Qed.

Lemma ignores_logs_retry {A} (body : nat -> M (Flow A)) after :
  (forall a, ignores_logs (body a)) ->
  forall a, ignores_logs (retry_from body after a).
Proof.
  intros Hbody a. remember (S maxAttempts - a) as k eqn:Hk.
  revert a Hk. induction k as [|k IH]; intros a Hk s s' H;
    rewrite !retry_from_turn;
    destruct (le_dec a maxAttempts) as [Hle|Hgt]; try lia;
    try (apply (ignores_logs_ret after s s' H)).
  revert s s' H. apply ignores_logs_bind; [apply Hbody|].
  intros [v|]; [apply ignores_logs_ret|].
  destruct k as [|k'].
  - intros s s' H. rewrite !retry_from_turn.
    destruct (le_dec (S a) maxAttempts);
      [lia|apply (ignores_logs_ret after s s' H)].
  - apply IH. lia.
Qed.

End LogsFrame.

Create HintDb blind.
#[local] Hint Resolve
  ignores_logs_ret ignores_logs_throw ignores_logs_diverge ignores_logs_lift
  ignores_logs_pushLog ignores_logs_http ignores_logs_list : blind.

Ltac blind :=
  repeat first
    [ progress cbv beta
    | solve [auto with blind]
    | match goal with
      | |- ignores_logs (try_catch _ _) => apply ignores_logs_try_catch
      | |- ignores_logs (bind _ _) => apply ignores_logs_bind
      | |- ignores_logs (for_of _ _ _) => apply ignores_logs_for_of
      | |- ignores_logs (retry_from _ _ _) => apply ignores_logs_retry
      | |- forall _, _ => intro
      | |- ignores_logs (if ?b then _ else _) => destruct b
      | |- ignores_logs (match ?x with _ => _ end) => destruct x
      | |- ignores_logs (let (_, _) := ?p in _) => destruct p
      end ].

Section GatherFacts.
Context {R : Remote}.

Lemma monthly_listing_ignores_logs line pages :
  forall stripe gte lte cursor acc,
    ignores_logs
      (MonthlyJob.getInvoices_loop line pages stripe gte lte cursor acc).
Proof.
  induction pages as [|pages IH]; intros; cbn [MonthlyJob.getInvoices_loop];
    autounfold with routes; blind.
Qed.

Lemma monthly_gather_ignores_logs pages env period :
  ignores_logs (MonthlyJob.gather pages env period).
Proof.
  autounfold with routes; blind; apply monthly_listing_ignores_logs.
Qed.

Lemma scheduled_listing_sends_nothing pages :
  forall stripe gte lte cursor acc,
    sends_nothing (Scheduled.getInvoices_loop pages stripe gte lte cursor acc).
Proof.
  induction pages as [|pages IH]; intros; cbn [Scheduled.getInvoices_loop];
    autounfold with routes; quiet.
Qed.

Lemma monthly_listing_sends_nothing line pages :
  forall stripe gte lte cursor acc,
    sends_nothing
      (MonthlyJob.getInvoices_loop line pages stripe gte lte cursor acc).
Proof.
  induction pages as [|pages IH]; intros; cbn [MonthlyJob.getInvoices_loop];
    autounfold with routes; quiet.
Qed.

Lemma scheduled_gather_sends_nothing pages env period :
  sends_nothing (Scheduled.gather pages env period).
Proof.
  autounfold with routes; quiet; apply scheduled_listing_sends_nothing.
Qed.

Lemma monthly_gather_sends_nothing pages env period :
  sends_nothing (MonthlyJob.gather pages env period).
Proof.
  autounfold with routes; quiet; apply monthly_listing_sends_nothing.
Qed.

Lemma first_gather_sends_nothing pages config period :
  sends_nothing (GenerateAndEmail.gather pages config period).
Proof.
  autounfold with routes; quiet; rewrite first_loop_agrees;
    apply scheduled_listing_sends_nothing.
Qed.

End GatherFacts.

(** ** Dispatch *)

Section DispatchFacts.
Context {R : Remote}.

Lemma scheduled_dispatch_refused env period groups s :
  credentials_missing env = true ->
  Scheduled.dispatch env period groups s
  = (Returned (mkResponse
                 (mkBody (Some false) (Some "Missing email credentials")
                         None None None) 200),
     mkState (world s) (console s ++ [missing_gmail]) (logs s) (listed s)
             (fetched s) (sent s)).
Proof.
  intros Hc. unfold Scheduled.dispatch. destruct groups as [aET aNon].
  unfold credentials_missing in Hc. rewrite Hc. reflexivity.
Qed.

Lemma monthly_dispatch_refused env period groups s :
  credentials_missing env = true ->
  MonthlyJob.dispatch env period groups s
  = (Returned (mkBody (Some false) (Some "Missing email credentials")
                      (Some (logs s ++ [missing_gmail])%list)
                      (Some (monthName period)) (Some (periodYear period))),
     mkState (world s) (console s ++ [missing_gmail])
             (logs s ++ [missing_gmail]) (listed s) (fetched s) (sent s)).
Proof.
  intros Hc. unfold MonthlyJob.dispatch. destruct groups as [aET aNon].
  unfold credentials_missing in Hc. rewrite Hc. reflexivity.
Qed.

Lemma first_dispatch_refused env period groups s :
  credentials_missing env = true ->
  GenerateAndEmail.dispatch env period groups s
  = (Returned (mkResponse (mkBody None (Some missing_first) None None None)
                          500), s).
Proof.
  intros Hc. unfold GenerateAndEmail.dispatch. destruct groups as [aET aNon].
  unfold credentials_missing in Hc. rewrite Hc. reflexivity.
Qed.

(** With credentials and two groups, the scheduled handler sends both
    messages whatever the mailer answers, and reports success. *)
Lemma scheduled_dispatch_both env period aET aNon s :
  credentials_missing env = false -> aET <> [] -> aNon <> [] ->
  fst (Scheduled.dispatch env period (aET, aNon) s)
  = Returned (mkResponse (mkBody (Some true) None None None None) 200) /\
  sent (snd (Scheduled.dispatch env period (aET, aNon) s))
  = (sent s ++ [et_mail env period aET; pc_mail env period aNon])%list.
Proof.
  intros Hc HET HNon. unfold Scheduled.dispatch.
  unfold credentials_missing in Hc. rewrite Hc.
  destruct aET as [|a1 r1]; [congruence|].
  destruct aNon as [|a2 r2]; [congruence|].
  cbn [length Nat.ltb Nat.leb].
  fold (transporter_of env).
  fold (et_mail env period (a1 :: r1)). fold (pc_mail env period (a2 :: r2)).
  unfold bind, try_catch, sendMail_call, console_log, console_error, ret.
  destruct (sendMail (transporter_of env) (et_mail env period (a1 :: r1))
              (world s)) as [[e1|[]] w1]; cbn;
    destruct (sendMail (transporter_of env) (pc_mail env period (a2 :: r2)) w1)
      as [[e2|[]] w2]; cbn;
    rewrite <- app_assoc; split; reflexivity.
Qed.

(** In the first generation a rejected first message ends the
    dispatch. *)
Lemma first_dispatch_stops env period aET aNon s e w :
  credentials_missing env = false -> aET <> [] ->
  sendMail (transporter_of env) (et_mail env period aET) (world s)
  = (inl e, w) ->
  fst (GenerateAndEmail.dispatch env period (aET, aNon) s) = Threw e /\
  sent (snd (GenerateAndEmail.dispatch env period (aET, aNon) s))
  = (sent s ++ [et_mail env period aET])%list.
Proof.
  intros Hc HET Hsend. unfold GenerateAndEmail.dispatch.
  unfold credentials_missing in Hc. rewrite Hc.
  destruct aET as [|a1 r1]; [congruence|].
  cbn [length Nat.ltb Nat.leb].
  fold (transporter_of env). fold (et_mail env period (a1 :: r1)).
  unfold bind, sendMail_call. rewrite Hsend. split; reflexivity.
Qed.

(** C7 (as amended).  In a run whose mailer credentials are missing and
    whose gathering returns, no message is sent.  The scheduled handler
    and the monthly job report [success: false] and log that the
    credentials are missing; the first generation answers 500 with a
    message, without a [success] key and without a log line. *)
Theorem missing_mailer_credentials (pages : nat) (env : Env)
  (period : Period) (config : list (string * string)) (s : State) :
  credentials_missing env = true ->
  (returned (fst (Scheduled.gather pages env period s)) = true ->
   fst (Scheduled.handler pages env period s)
   = Returned (mkResponse
                 (mkBody (Some false) (Some "Missing email credentials")
                         None None None) 200) /\
   sent (snd (Scheduled.handler pages env period s)) = sent s /\
   In missing_gmail (console (snd (Scheduled.handler pages env period s)))) /\
  (returned (fst (MonthlyJob.gather pages env period s)) = true ->
   exists result,
     fst (MonthlyJob.runMonthlyJob pages env period s) = Returned result /\
     success result = Some false /\
     body_logs result
     = Some (logs (snd (MonthlyJob.runMonthlyJob pages env period s))) /\
     sent (snd (MonthlyJob.runMonthlyJob pages env period s)) = sent s /\
     In missing_gmail
        (logs (snd (MonthlyJob.runMonthlyJob pages env period s)))) /\
  (returned (fst (GenerateAndEmail.gather pages config period s)) = true ->
   GenerateAndEmail.POST pages config env (Window period) s
   = (Returned (mkResponse (mkBody None (Some missing_first) None None None)
                           500),
      snd (GenerateAndEmail.gather pages config period s)) /\
   sent (snd (GenerateAndEmail.gather pages config period s)) = sent s).
Proof.
  intros Hc. split; [|split]; intros Hret.
  - pose proof (scheduled_gather_sends_nothing pages env period s) as Hq.
    unfold Scheduled.handler, bind.
    destruct (Scheduled.gather pages env period s) as [[groups| |] s1];
      try discriminate.
    rewrite (scheduled_dispatch_refused env period groups s1 Hc). cbn in *.
    split; [reflexivity|]. split; [exact Hq|].
    apply in_or_app. right. left. reflexivity.
  - pose proof (monthly_gather_sends_nothing pages env period (fresh_logs s))
      as Hq.
    destruct (monthly_gather_ignores_logs pages env period s (fresh_logs s)
                (same_but_logs_fresh s)) as [Hout _].
    rewrite Hout in Hret.
    unfold MonthlyJob.runMonthlyJob, bind, newLogs.
    destruct (MonthlyJob.gather pages env period (fresh_logs s))
      as [[groups| |] s1]; try discriminate.
    rewrite (monthly_dispatch_refused env period groups s1 Hc). cbn in *.
    eexists. split; [reflexivity|]. cbn.
    split; [reflexivity|]. split; [reflexivity|]. split; [exact Hq|].
    apply in_or_app. right. left. reflexivity.
  - pose proof (first_gather_sends_nothing pages config period s) as Hq.
    unfold GenerateAndEmail.POST, try_catch, bind.
    destruct (GenerateAndEmail.gather pages config period s)
      as [[groups| |] s1]; try discriminate.
    rewrite (first_dispatch_refused env period groups s1 Hc). cbn in *.
    split; [reflexivity|exact Hq].
Qed.

(** C8 (as amended).  With mailer credentials and two non-empty groups,
    the scheduled handler attempts both messages, the second whatever
    became of the first, and reports [success: true].  In the first
    generation a first message that fails is the only one attempted and
    the run reports [success: false]. *)
Theorem dispatch_isolation (pages : nat) (env : Env) (period : Period)
  (config : list (string * string)) (s : State)
  (attachmentsET attachmentsNonET : list (Attachment Bytes)) (e : string) :
  credentials_missing env = false ->
  attachmentsET <> [] -> attachmentsNonET <> [] ->
  (fst (Scheduled.gather pages env period s)
   = Returned (attachmentsET, attachmentsNonET) ->
   fst (Scheduled.handler pages env period s)
   = Returned (mkResponse (mkBody (Some true) None None None None) 200) /\
   sent (snd (Scheduled.handler pages env period s))
   = (sent s ++ [et_mail env period attachmentsET;
                 pc_mail env period attachmentsNonET])%list) /\
  (fst (GenerateAndEmail.gather pages config period s)
   = Returned (attachmentsET, attachmentsNonET) ->
   fst (sendMail (transporter_of env) (et_mail env period attachmentsET)
          (world (snd (GenerateAndEmail.gather pages config period s))))
   = inl e ->
   fst (GenerateAndEmail.POST pages config env (Window period) s)
   = Returned (mkResponse (mkBody (Some false) (Some e) None None None) 500) /\
   sent (snd (GenerateAndEmail.POST pages config env (Window period) s))
   = (sent s ++ [et_mail env period attachmentsET])%list).
Proof.
  intros Hc HET HNon. split.
  - intros Hg.
    pose proof (scheduled_gather_sends_nothing pages env period s) as Hq.
    unfold Scheduled.handler, bind.
    destruct (Scheduled.gather pages env period s) as [out s1].
    cbn in Hg, Hq. subst out.
    destruct (scheduled_dispatch_both env period _ _ s1 Hc HET HNon)
      as [Hout Hsent].
    rewrite Hout, Hsent, Hq. split; reflexivity.
  - intros Hg Hsend.
    pose proof (first_gather_sends_nothing pages config period s) as Hq.
    unfold GenerateAndEmail.POST, try_catch, bind.
    destruct (GenerateAndEmail.gather pages config period s) as [out s1].
    cbn in Hg, Hq, Hsend. subst out.
    destruct (sendMail (transporter_of env) (et_mail env period attachmentsET)
                (world s1)) as [r w] eqn:Hmail.
    cbn in Hsend. subst r.
    destruct (first_dispatch_stops env period _ attachmentsNonET s1 e w
                Hc HET Hmail) as [Hout Hsent].
    destruct (GenerateAndEmail.dispatch env period
                (attachmentsET, attachmentsNonET) s1) as [out2 s2].
    cbn in Hout, Hsent. subst out2. cbn. rewrite Hsent, Hq.
    split; reflexivity.
Qed.

End DispatchFacts.

(** Witness of C7: the demonstration without mailer credentials. *)
Lemma missing_mailer_credentials_witness :
  credentials_missing Demo.env_no_mailer = true /\
  returned (fst (Scheduled.gather 5 Demo.env_no_mailer Demo.period Demo.start))
  = true /\
  fst (Scheduled.handler 5 Demo.env_no_mailer Demo.period Demo.start)
  = Returned (mkResponse
                (mkBody (Some false) (Some "Missing email credentials")
                        None None None) 200).
Proof.
  assert (credentials_missing Demo.env_no_mailer = true) as Hc
    by (vm_compute; reflexivity).
  assert (returned (fst (Scheduled.gather 5 Demo.env_no_mailer Demo.period
                           Demo.start)) = true) as Hg
    by (vm_compute; reflexivity).
  split; [exact Hc|]. split; [exact Hg|].
  exact (proj1 (proj1 (missing_mailer_credentials 5 Demo.env_no_mailer
                         Demo.period Demo.config Demo.start Hc) Hg)).
Defined.

(** Counterexample to C7 as stated: the first generation's result has no
    [success] key and its log no line about credentials. *)
Lemma first_generation_credentials_answer :
  credentials_missing Demo.env_no_mailer = true /\
  fst (GenerateAndEmail.POST 5 Demo.config Demo.env_no_mailer
         (Window Demo.period) Demo.start)
  = Returned (mkResponse (mkBody None (Some missing_first) None None None)
                         500) /\
  console (snd (GenerateAndEmail.POST 5 Demo.config Demo.env_no_mailer
                  (Window Demo.period) Demo.start))
  = ["Start date: 2025-01-01T00:00:00.000Z";
     "End date: 2025-01-31T23:59:59.999Z"].
Proof. repeat split; vm_compute; reflexivity. Qed.

(** Witness of C8: the first recipient of the demonstration rejects its
    message. *)
Lemma dispatch_isolation_witness :
  credentials_missing Demo.env_full = false /\
  fst Demo.scheduled_groups <> [] /\ snd Demo.scheduled_groups <> [] /\
  fst (Scheduled.gather 5 Demo.env_full Demo.period Demo.start)
  = Returned (fst Demo.scheduled_groups, snd Demo.scheduled_groups) /\
  fst (sendMail (transporter_of Demo.env_full)
         (et_mail Demo.env_full Demo.period (fst Demo.scheduled_groups))
         (world (snd (Scheduled.gather 5 Demo.env_full Demo.period
                        Demo.start))))
  = inl "rejected" /\
  fst (Scheduled.handler 5 Demo.env_full Demo.period Demo.start)
  = Returned (mkResponse (mkBody (Some true) None None None None) 200) /\
  sent (snd (Scheduled.handler 5 Demo.env_full Demo.period Demo.start))
  = (sent Demo.start
     ++ [et_mail Demo.env_full Demo.period (fst Demo.scheduled_groups);
         pc_mail Demo.env_full Demo.period (snd Demo.scheduled_groups)])%list.
Proof.
  assert (credentials_missing Demo.env_full = false) as Hc
    by (vm_compute; reflexivity).
  assert (fst Demo.scheduled_groups <> []) as H1 by (vm_compute; discriminate).
  assert (snd Demo.scheduled_groups <> []) as H2 by (vm_compute; discriminate).
  assert (fst (Scheduled.gather 5 Demo.env_full Demo.period Demo.start)
          = Returned (fst Demo.scheduled_groups, snd Demo.scheduled_groups))
    as Hg by (vm_compute; reflexivity).
  split; [exact Hc|]. split; [exact H1|]. split; [exact H2|].
  split; [exact Hg|]. split; [vm_compute; reflexivity|].
  exact (proj1 (dispatch_isolation 5 Demo.env_full Demo.period Demo.config
                  Demo.start (fst Demo.scheduled_groups)
                  (snd Demo.scheduled_groups) "rejected" Hc H1 H2) Hg).
Defined.

(** Counterexample to C8 as stated: in the first generation the rejected
    first message is the only one attempted and the run reports
    [success: false]. *)
Lemma first_generation_dispatch_stops :
  credentials_missing Demo.env_full = false /\
  fst Demo.first_groups <> [] /\ snd Demo.first_groups <> [] /\
  fst (GenerateAndEmail.gather 5 Demo.config Demo.period Demo.start)
  = Returned Demo.first_groups /\
  fst (sendMail (transporter_of Demo.env_full)
         (et_mail Demo.env_full Demo.period (fst Demo.first_groups))
         (world (snd (GenerateAndEmail.gather 5 Demo.config Demo.period
                        Demo.start))))
  = inl "rejected" /\
  fst (GenerateAndEmail.POST 5 Demo.config Demo.env_full
         (Window Demo.period) Demo.start)
  = Returned (mkResponse
                (mkBody (Some false) (Some "rejected") None None None) 500) /\
  sent (snd (GenerateAndEmail.POST 5 Demo.config Demo.env_full
               (Window Demo.period) Demo.start))
  = [et_mail Demo.env_full Demo.period (fst Demo.first_groups)].
Proof.
  split; [vm_compute; reflexivity|].
  split; [vm_compute; discriminate|]. split; [vm_compute; discriminate|].
  repeat split; vm_compute; reflexivity.
Qed.

(** * Further properties *)

(** ** Steps that raise nothing, steps that end *)

Section Safety.
Context {R : Remote}.

Lemma never_raises_ret {A} (a : A) : never_raises (ret a).
Proof. intros s e. discriminate. Qed.

Lemma never_raises_diverge {A} : never_raises (@diverge R A).
Proof. intros s e. discriminate. Qed.

Lemma never_raises_console_log line : never_raises (console_log line).
Proof. intros s e. discriminate. Qed.

Lemma never_raises_pushLog line : never_raises (pushLog line).
Proof. intros s e. discriminate. Qed.

Lemma never_raises_readLogs : never_raises readLogs.
Proof. intros s e. discriminate. Qed.

Lemma never_raises_newLogs : never_raises newLogs.
Proof. intros s e. discriminate. Qed.

Lemma halts_newLogs : halts newLogs.
Proof. intros s. discriminate. Qed.

Lemma never_raises_bind {A B} (m : M A) (k : A -> M B) :
  never_raises m -> (forall a, never_raises (k a)) ->
  never_raises (bind m k).
Proof.
  intros Hm Hk s e. unfold bind. specialize (Hm s).
  destruct (m s) as [[a|e'|] s']; cbn in *.
  - apply Hk.
  - exfalso. apply (Hm e'). reflexivity.
  - discriminate.
Qed.

Lemma never_raises_try_catch {A} (m : M A) (h : string -> M A) :
  (forall e, never_raises (h e)) -> never_raises (try_catch m h).
Proof.
  intros Hh s e. unfold try_catch.
  destruct (m s) as [[a|e'|] s']; cbn; try discriminate. apply Hh.
Qed.

Lemma never_raises_for_of {A X} (body : A -> X -> M A) xs :
  (forall acc x, never_raises (body acc x)) ->
  forall acc, never_raises (for_of body acc xs).
Proof.
  intros Hbody. induction xs as [|x rest IH]; intros acc; cbn [for_of].
  - apply never_raises_ret.
  - apply never_raises_bind; [apply Hbody|exact IH].
Qed.

Lemma never_raises_retry {A} (body : nat -> M (Flow A)) after :
  (forall a, never_raises (body a)) ->
  forall a, never_raises (retry_from body after a).
Proof.
  intros Hbody a. remember (S maxAttempts - a) as k eqn:Hk.
  revert a Hk. induction k as [|k IH]; intros a Hk s;
    rewrite retry_from_turn;
    destruct (le_dec a maxAttempts) as [Hle|Hgt]; try discriminate; try lia.
  revert s. apply never_raises_bind; [apply Hbody|].
  intros [v|]; [apply never_raises_ret|].
  destruct k as [|k'].
  - intros s e. rewrite retry_from_turn.
    destruct (le_dec (S a) maxAttempts); [lia|discriminate].
  - apply IH. lia.
Qed.

Lemma halts_ret {A} (a : A) : halts (ret a).
Proof. intros s. discriminate. Qed.

Lemma halts_throw {A} e : halts (@throw R A e).
Proof. intros s. discriminate. Qed.

Lemma halts_console_log line : halts (console_log line).
Proof. intros s. discriminate. Qed.

Lemma halts_pushLog line : halts (pushLog line).
Proof. intros s. discriminate. Qed.

Lemma halts_lift {A} (r : string + A) : halts (lift r).
Proof. intros s. destruct r; discriminate. Qed.

Lemma halts_http url : halts (http_get_call url).
Proof.
  intros s. unfold http_get_call.
  destruct (http_get url (world s)) as [[e|b] w]; discriminate.
Qed.

Lemma halts_send transporter mail : halts (sendMail_call transporter mail).
Proof.
  intros s. unfold sendMail_call.
  destruct (sendMail transporter mail (world s)) as [[e|b] w]; discriminate.
Qed.

Lemma halts_bind {A B} (m : M A) (k : A -> M B) :
  halts m -> (forall a, halts (k a)) -> halts (bind m k).
Proof.
  intros Hm Hk s. unfold bind. specialize (Hm s).
  destruct (m s) as [[a|e'|] s']; cbn in *;
    [apply Hk|discriminate|congruence].
Qed.

Lemma halts_try_catch {A} (m : M A) (h : string -> M A) :
  halts m -> (forall e, halts (h e)) -> halts (try_catch m h).
Proof.
  intros Hm Hh s. unfold try_catch. specialize (Hm s).
  destruct (m s) as [[a|e'|] s']; cbn in *;
    [discriminate|apply Hh|congruence].
Qed.

Lemma halts_for_of {A X} (body : A -> X -> M A) xs :
  (forall acc x, halts (body acc x)) ->
  forall acc, halts (for_of body acc xs).
Proof.
  intros Hbody. induction xs as [|x rest IH]; intros acc; cbn [for_of].
  - apply halts_ret.
  - apply halts_bind; [apply Hbody|exact IH].
Qed.

Lemma halts_retry {A} (body : nat -> M (Flow A)) after :
  (forall a, halts (body a)) ->
  forall a, halts (retry_from body after a).
Proof.
  intros Hbody a. remember (S maxAttempts - a) as k eqn:Hk.
  revert a Hk. induction k as [|k IH]; intros a Hk s;
    rewrite retry_from_turn;
    destruct (le_dec a maxAttempts) as [Hle|Hgt]; try discriminate; try lia.
  revert s. apply halts_bind; [apply Hbody|].
  intros [v|]; [apply halts_ret|].
  destruct k as [|k'].
  - intros s. rewrite retry_from_turn.
    destruct (le_dec (S a) maxAttempts); [lia|discriminate].
  - apply IH. lia.
Qed.

End Safety.

Create HintDb further.
#[local] Hint Unfold
  Scheduled.handler Scheduled.dispatch
  Scheduled.gather Scheduled.key_step Scheduled.category_step
  Scheduled.finalPdf Scheduled.download_all Scheduled.downloadPdfInMemory
  Scheduled.download_attempt Scheduled.mergePdfs Scheduled.merge_step
  Scheduled.createEmptyPdf Scheduled.getInvoices Scheduled.collect_invoice
  Scheduled.STRIPE_KEYS
  GenerateAndEmail.POST GenerateAndEmail.dispatch
  GenerateAndEmail.gather GenerateAndEmail.key_step
  GenerateAndEmail.category_step GenerateAndEmail.finalPdf
  GenerateAndEmail.download_all GenerateAndEmail.downloadPdfInMemory
  GenerateAndEmail.download_attempt GenerateAndEmail.mergePdfs
  GenerateAndEmail.merge_step GenerateAndEmail.createEmptyPdf
  GenerateAndEmail.getInvoices GenerateAndEmail.collect_invoice
  MonthlyJob.GET MonthlyJob.runMonthlyJob MonthlyJob.dispatch
  MonthlyJob.gather MonthlyJob.key_step MonthlyJob.category_step
  MonthlyJob.finalPdf MonthlyJob.download_all MonthlyJob.downloadPdfInMemory
  MonthlyJob.download_attempt MonthlyJob.mergePdfs MonthlyJob.merge_step
  MonthlyJob.createEmptyPdf MonthlyJob.getInvoices MonthlyJob.getInvoices_with
  MonthlyJob.collect_invoice MonthlyJob.STRIPE_KEYS
  RangeJob.GET RangeJob.runMonthlyJob RangeJob.dispatch
  RangeJob.gather RangeJob.key_step RangeJob.category_step
  RangeJob.finalPdf RangeJob.download_all RangeJob.downloadPdfInMemory
  RangeJob.mergePdfs RangeJob.createEmptyPdf RangeJob.getInvoices
  RangeJob.STRIPE_KEYS
  ScheduledPost.POST ScheduledPost.dispatch
  ScheduledPost.gather ScheduledPost.key_step ScheduledPost.category_step
  ScheduledPost.finalPdf ScheduledPost.download_all
  ScheduledPost.downloadPdfInMemory ScheduledPost.download_attempt
  ScheduledPost.mergePdfs ScheduledPost.merge_step
  ScheduledPost.createEmptyPdf ScheduledPost.getInvoices
  ScheduledPost.collect_invoice ScheduledPost.STRIPE_KEYS
  console_error console_warn : further.

Create HintDb calm.
#[local] Hint Resolve
  never_raises_ret never_raises_diverge never_raises_console_log
  never_raises_pushLog never_raises_readLogs never_raises_newLogs : calm.

(** Takes a step apart to show that it raises nothing: a handler that
    raises nothing covers its [try] block. *)
Ltac calm :=
  repeat first
    [ progress cbv beta
    | solve [auto with calm]
    | match goal with
      | |- never_raises (try_catch _ _) => apply never_raises_try_catch
      | |- never_raises (bind _ _) => apply never_raises_bind
      | |- never_raises (for_of _ _ _) => apply never_raises_for_of
      | |- never_raises (retry_from _ _ _) => apply never_raises_retry
      | |- forall _, _ => intro
      | |- never_raises (if ?b then _ else _) => destruct b
      | |- never_raises (match ?x with _ => _ end) => destruct x
      | |- never_raises (let (_, _) := ?p in _) => destruct p
      end ].

Create HintDb ending.
#[local] Hint Resolve
  halts_ret halts_throw halts_console_log halts_pushLog halts_newLogs
  halts_lift halts_http halts_send : ending.

Ltac ending :=
  repeat first
    [ progress cbv beta
    | solve [auto with ending]
    | match goal with
      | |- halts (try_catch _ _) => apply halts_try_catch
      | |- halts (bind _ _) => apply halts_bind
      | |- halts (for_of _ _ _) => apply halts_for_of
      | |- halts (retry_from _ _ _) => apply halts_retry
      | |- forall _, _ => intro
      | |- halts (if ?b then _ else _) => destruct b
      | |- halts (match ?x with _ => _ end) => destruct x
      | |- halts (let (_, _) := ?p in _) => destruct p
      end ].

Section RunSafety.
Context {R : Remote}.

Lemma scheduled_download_calm url num :
  never_raises (Scheduled.downloadPdfInMemory url num).
Proof. autounfold with further. calm. Qed.

Lemma scheduled_download_ends url num :
  halts (Scheduled.downloadPdfInMemory url num).
Proof. autounfold with further. ending. Qed.

Lemma scheduled_gather_calm pages env period :
  never_raises (Scheduled.gather pages env period).
Proof. autounfold with further. calm. Qed.

Lemma scheduled_handler_calm pages env period :
  never_raises (Scheduled.handler pages env period).
Proof. autounfold with further. calm. Qed.

Lemma monthly_job_calm pages env period :
  never_raises (MonthlyJob.runMonthlyJob pages env period).
Proof. autounfold with further. calm. Qed.

Lemma range_job_calm pages env period :
  never_raises (RangeJob.runMonthlyJob pages env period).
Proof. autounfold with further. calm. Qed.

Lemma first_post_calm pages config env request :
  never_raises (GenerateAndEmail.POST pages config env request).
Proof. autounfold with further. calm. Qed.

Lemma second_post_calm pages env request :
  never_raises (ScheduledPost.POST pages env request).
Proof. autounfold with further. calm. Qed.

End RunSafety.

(** ** The retry loop against any host *)

Section RetryBounds.
Context {R : Remote}.

(** A loop whose every turn returns and fetches [url] at most once ends
    with a value after at most one fetch per turn left. *)
Lemma retry_from_bounded {A} (body : nat -> M (Flow A)) after url :
  (forall a s, exists f s' j,
     body a s = (Returned f, s') /\ j <= 1 /\
     fetched s' = (fetched s ++ repeat url j)%list) ->
  forall k a s, S maxAttempts - a = k ->
    exists v n s',
      retry_from body after a s = (Returned v, s') /\ n <= k /\
      fetched s' = (fetched s ++ repeat url n)%list.
Proof.
  intros Hbody. induction k as [|k IH]; intros a s Hk;
    rewrite retry_from_turn;
    destruct (le_dec a maxAttempts) as [Hle|Hgt]; try lia.
  - exists after, 0, s. cbn. rewrite app_nil_r. auto.
  - destruct (Hbody a s) as (f & s1 & j & Hrun & Hj & Hf).
    unfold bind. rewrite Hrun. destruct f as [v|].
    + exists v, j, s1. split; [reflexivity|]. split; [lia|exact Hf].
    + destruct (IH (S a) s1) as (v & n & s2 & Hrest & Hn & Hf2); [lia|].
      exists v, (j + n), s2. split; [exact Hrest|]. split; [lia|].
      rewrite Hf2, Hf, repeat_app, app_assoc. reflexivity.
Qed.

Ltac run_turn :=
  unfold Scheduled.download_attempt, MonthlyJob.download_attempt,
    ScheduledPost.download_attempt, GenerateAndEmail.download_attempt,
    try_catch, bind, http_get_call, console_error, console_log, pushLog,
    throw, ret.

Lemma scheduled_attempt_bounded url num a s :
  exists f s' j,
    Scheduled.download_attempt url num a s = (Returned f, s') /\ j <= 1 /\
    fetched s' = (fetched s ++ repeat (show url) j)%list.
Proof.
  run_turn. destruct (falsy url).
  - do 2 eexists. exists 0. cbn. rewrite app_nil_r. auto.
  - destruct (http_get (show url) (world s)) as [[e|b] w]; cbn;
      [destruct (a =? maxAttempts)%nat|]; do 2 eexists; exists 1; cbn; auto.
Qed.

Lemma monthly_attempt_bounded url num a s :
  exists f s' j,
    MonthlyJob.download_attempt url num a s = (Returned f, s') /\ j <= 1 /\
    fetched s' = (fetched s ++ repeat (show url) j)%list.
Proof.
  run_turn. destruct (falsy url).
  - do 2 eexists. exists 0. cbn. rewrite app_nil_r. auto.
  - destruct (http_get (show url) (world s)) as [[e|b] w]; cbn;
      [destruct (a =? maxAttempts)%nat|]; do 2 eexists; exists 1; cbn; auto.
Qed.

Lemma second_attempt_bounded url num a s :
  exists f s' j,
    ScheduledPost.download_attempt url num a s = (Returned f, s') /\ j <= 1 /\
    fetched s' = (fetched s ++ repeat (show url) j)%list.
Proof.
  run_turn. destruct (falsy url).
  - do 2 eexists. exists 0. cbn. rewrite app_nil_r. auto.
  - destruct (http_get (show url) (world s)) as [[e|b] w]; cbn;
      [destruct (a =? maxAttempts)%nat|]; do 2 eexists; exists 1; cbn; auto.
Qed.

(** X1.  In the generations that return [null] for a failed download,
    [downloadPdfInMemory] always returns a value, having fetched the
    reference at most 5 times and nothing else. *)
Theorem download_always_returns (url : option string) (invoiceNumber : string)
  (s : State) :
  (exists v n s',
     Scheduled.downloadPdfInMemory url invoiceNumber s = (Returned v, s') /\
     n <= 5 /\ fetched s' = (fetched s ++ repeat (show url) n)%list) /\
  (exists v n s',
     MonthlyJob.downloadPdfInMemory url invoiceNumber s = (Returned v, s') /\
     n <= 5 /\ fetched s' = (fetched s ++ repeat (show url) n)%list) /\
  (exists v n s',
     ScheduledPost.downloadPdfInMemory url invoiceNumber s = (Returned v, s') /\
     n <= 5 /\ fetched s' = (fetched s ++ repeat (show url) n)%list).
Proof.
  split; [|split].
  - apply (retry_from_bounded _ None (show url)
             (scheduled_attempt_bounded url invoiceNumber) 5 1 s).
    reflexivity.
  - apply (retry_from_bounded _ None (show url)
             (monthly_attempt_bounded url invoiceNumber) 5 1 s).
    reflexivity.
  - apply (retry_from_bounded _ None (show url)
             (second_attempt_bounded url invoiceNumber) 5 1 s).
    reflexivity.
Qed.

Lemma fetch_after_fails n url w b w' :
  fetch_after (S n) url w = Some (b, w') ->
  exists e w1, http_get url w = (inl e, w1) /\
               fetch_after n url w1 = Some (b, w').
Proof.
  cbn [fetch_after]. destruct (http_get url w) as [[e|b0] w1];
    [eauto|discriminate].
Qed.

(** A loop whose turns fall through on a failed fetch and return the
    bytes of an answered one: the first answer ends it. *)
Lemma retry_from_recovers {A} (body : nat -> M (Flow (option A))) after url
  (wrap : Bytes -> A) :
  (forall a s e w', a < maxAttempts ->
     http_get url (world s) = (inl e, w') ->
     exists s', body a s = (Returned Next, s') /\ world s' = w' /\
                fetched s' = (fetched s ++ [url])%list) ->
  (forall a s b w',
     http_get url (world s) = (inr b, w') ->
     exists s', body a s = (Returned (Return (Some (wrap b))), s') /\
                world s' = w' /\
                fetched s' = (fetched s ++ [url])%list) ->
  forall k a s b w', a + k <= maxAttempts ->
    fetch_after k url (world s) = Some (b, w') ->
    exists s',
      retry_from body after a s = (Returned (Some (wrap b)), s') /\
      world s' = w' /\
      fetched s' = (fetched s ++ repeat url (S k))%list.
Proof.
  intros Hfail Hok. induction k as [|k IH]; intros a s b w' Hk Hfetch;
    rewrite retry_from_turn;
    destruct (le_dec a maxAttempts) as [Hle|Hgt]; try lia.
  - cbn in Hfetch.
    destruct (http_get url (world s)) as [[e|b0] w1] eqn:Hg; [discriminate|].
    inversion Hfetch; subst.
    destruct (Hok a s b w' Hg) as (s' & Hrun & Hw & Hf).
    unfold bind. rewrite Hrun. exists s'. auto.
  - apply fetch_after_fails in Hfetch.
    destruct Hfetch as (e & w1 & Hg & Hrest).
    destruct (Hfail a s e w1 ltac:(lia) Hg) as (s1 & Hrun & Hw & Hf).
    unfold bind. rewrite Hrun. rewrite <- Hw in Hrest.
    destruct (IH (S a) s1 b w' ltac:(lia) Hrest) as (s2 & Hrun2 & Hw2 & Hf2).
    exists s2. split; [exact Hrun2|]. split; [exact Hw2|].
    rewrite Hf2, Hf, <- app_assoc. reflexivity.
Qed.

Ltac attempt_case a :=
  destruct (Nat.eqb_spec a maxAttempts) as [?|_]; [lia|];
  cbn; eexists; split; [reflexivity|]; cbn; auto.

(** X2.  After [k < 5] failed fetches an answered fetch ends the retry:
    the download returns the answered bytes after exactly [k + 1]
    fetches, in the first generation as in the scheduled handler. *)
Theorem download_recovers (url : option string) (invoiceNumber : string)
  (s : State) (k : nat) (b : Bytes) (w' : World) :
  falsy url = false ->
  k < maxAttempts ->
  fetch_after k (show url) (world s) = Some (b, w') ->
  (exists s',
     Scheduled.downloadPdfInMemory url invoiceNumber s
     = (Returned (Some b), s') /\ world s' = w' /\
     fetched s' = (fetched s ++ repeat (show url) (S k))%list) /\
  (exists s',
     GenerateAndEmail.downloadPdfInMemory url invoiceNumber s
     = (Returned (Some b), s') /\ world s' = w' /\
     fetched s' = (fetched s ++ repeat (show url) (S k))%list) /\
  (exists s',
     ScheduledPost.downloadPdfInMemory url invoiceNumber s
     = (Returned (Some b), s') /\ world s' = w' /\
     fetched s' = (fetched s ++ repeat (show url) (S k))%list).
Proof.
  intros Hu Hk Hfetch.
  split; [|split];
    unfold Scheduled.downloadPdfInMemory, GenerateAndEmail.downloadPdfInMemory,
      ScheduledPost.downloadPdfInMemory;
    apply (retry_from_recovers _ None (show url) (fun b => b)) with (w' := w');
    try exact Hfetch; try lia.
  all: intros a s0; intros; run_turn; rewrite Hu;
    match goal with H : http_get _ _ = _ |- _ => rewrite H end.
  all: try attempt_case a.
  all: cbn; eexists; split; [reflexivity|]; cbn; auto.
Qed.

End RetryBounds.

(** Witness of X2: a host that fails twice and answers the third
    fetch. *)
Lemma download_recovers_witness :
  falsy (Some "https://files/1.pdf") = false /\
  2 < maxAttempts /\
  fetch_after 2 "https://files/1.pdf" (world Endless.start) = Some ([1], 3) /\
  exists s',
    Scheduled.downloadPdfInMemory (Some "https://files/1.pdf") "INV-1"
      Endless.start
    = (Returned (Some [1]), s') /\ world s' = 3 /\
    fetched s'
    = (fetched Endless.start ++ repeat "https://files/1.pdf" 3)%list.
Proof.
  assert (falsy (Some "https://files/1.pdf") = false) as Hu by reflexivity.
  assert (2 < maxAttempts) as Hk by (unfold maxAttempts; lia).
  assert (@fetch_after Endless.remote 2 "https://files/1.pdf"
            (world Endless.start) = Some ([1], 3)) as Hf by reflexivity.
  split; [exact Hu|]. split; [exact Hk|]. split; [exact Hf|].
  exact (proj1 (@download_recovers Endless.remote (Some "https://files/1.pdf")
                  "INV-1" Endless.start 2 [1] 3 Hu Hk Hf)).
Defined.

(** ** The answer of a run *)

Section Answers.
Context {R : Remote}.

Ltac send_cases env period :=
  fold (transporter_of env);
  repeat match goal with
  | |- context [mkMail _ "mumair299792458u@gmail.com" _ _ ?a] =>
      progress fold (et_mail env period a)
  | |- context [mkMail _ "uzairshabbirsab@gmail.com" _ _ ?a] =>
      progress fold (pc_mail env period a)
  end;
  unfold bind, try_catch, sendMail_call, console_log, console_error, pushLog,
    readLogs, ret;
  repeat match goal with
  | |- context [sendMail ?t ?m ?w] =>
      destruct (sendMail t m w) as [[?|[]] ?]; cbn
  end.

(** With credentials the scheduled handler's dispatch attempts one
    message per group that is not empty and reports success. *)
Lemma scheduled_dispatch_sends env period groups s :
  credentials_missing env = false ->
  fst (Scheduled.dispatch env period groups s)
  = Returned (mkResponse (mkBody (Some true) None None None None) 200) /\
  sent (snd (Scheduled.dispatch env period groups s))
  = (sent s ++ due_mails env period groups)%list.
Proof.
  intros Hc. destruct groups as [aET aNon]. unfold Scheduled.dispatch.
  unfold credentials_missing in Hc. rewrite Hc. unfold due_mails. cbn [fst snd].
  destruct aET as [|a1 r1]; destruct aNon as [|a2 r2];
    cbn [length Nat.ltb Nat.leb]; send_cases env period;
    rewrite ?app_nil_r, <- ?app_assoc; split; reflexivity.
Qed.

Lemma scheduled_dispatch_answer env period groups s :
  exists body,
    fst (Scheduled.dispatch env period groups s)
    = Returned (mkResponse body 200) /\
    success body = Some (negb (credentials_missing env)) /\
    sent (snd (Scheduled.dispatch env period groups s))
    = (sent s ++ if credentials_missing env then []
                 else due_mails env period groups)%list.
Proof.
  destruct (credentials_missing env) eqn:Hc.
  - rewrite (scheduled_dispatch_refused env period groups s Hc).
    eexists. split; [reflexivity|]. cbn. rewrite app_nil_r. auto.
  - destruct (scheduled_dispatch_sends env period groups s Hc) as [H1 H2].
    rewrite H1, H2. eexists. split; [reflexivity|]. cbn. auto.
Qed.

(** X3.  The scheduled handler raises nothing.  When its gathering
    returns it answers 200, with [success] true exactly when the mailer
    credentials are set, and has then attempted one message per group
    that is not empty, the ET group first, and none otherwise. *)
Theorem scheduled_handler_answer (pages : nat) (env : Env) (period : Period)
  (s : State) :
  (forall e, fst (Scheduled.handler pages env period s) <> Threw e) /\
  (forall groups,
     fst (Scheduled.gather pages env period s) = Returned groups ->
     exists body,
       fst (Scheduled.handler pages env period s)
       = Returned (mkResponse body 200) /\
       success body = Some (negb (credentials_missing env)) /\
       sent (snd (Scheduled.handler pages env period s))
       = (sent s ++ if credentials_missing env then []
                    else due_mails env period groups)%list).
Proof.
  split; [apply scheduled_handler_calm|].
  intros groups Hg.
  pose proof (scheduled_gather_sends_nothing pages env period s) as Hq.
  unfold Scheduled.handler, bind.
  destruct (Scheduled.gather pages env period s) as [out s1].
  cbn in Hg, Hq. subst out.
  destruct (scheduled_dispatch_answer env period groups s1)
    as (body & H1 & H2 & H3).
  exists body. rewrite H1, H3, Hq. auto.
Qed.

(** The result of the monthly job's dispatch: its [logs] are the whole
    array. *)
Lemma monthly_dispatch_answer env period groups s :
  exists result s',
    MonthlyJob.dispatch env period groups s = (Returned result, s') /\
    success result = Some (negb (credentials_missing env)) /\
    body_logs result = Some (logs s').
Proof.
  destruct (credentials_missing env) eqn:Hc.
  - rewrite (monthly_dispatch_refused env period groups s Hc).
    do 2 eexists. split; [reflexivity|]. cbn. auto.
  - destruct groups as [aET aNon]. unfold MonthlyJob.dispatch.
    unfold credentials_missing in Hc. rewrite Hc.
    destruct aET as [|a1 r1]; destruct aNon as [|a2 r2];
      cbn [length Nat.ltb Nat.leb]; send_cases env period;
      do 2 eexists; (split; [reflexivity|]); cbn; auto.
Qed.

Lemma range_dispatch_answer env period groups s :
  exists result s',
    RangeJob.dispatch env period groups s = (Returned result, s') /\
    success result = Some (negb (credentials_missing env)) /\
    body_logs result = Some (logs s').
Proof.
  destruct groups as [aET aNon]. unfold RangeJob.dispatch.
  destruct (credentials_missing env) eqn:Hc;
    unfold credentials_missing in Hc; rewrite Hc.
  - do 2 eexists. split; [reflexivity|]. cbn. auto.
  - destruct aET as [|a1 r1]; destruct aNon as [|a2 r2];
      cbn [length Nat.ltb Nat.leb]; send_cases env period;
      do 2 eexists; (split; [reflexivity|]); cbn; auto.
Qed.

(** X4.  [GET] of both jobs of part_000 raises nothing and its handler
    for a failed job is never entered: every answer has status 200, its
    [success] is true exactly when the mailer credentials are set, and
    its [logs] are the whole [logs] array of the run. *)
Theorem job_answer (pages : nat) (env : Env) (period : Period) (s : State) :
  ((forall e, fst (MonthlyJob.GET pages env period s) <> Threw e) /\
   (forall response s',
      MonthlyJob.GET pages env period s = (Returned response, s') ->
      http_status response = 200 /\
      success (body response) = Some (negb (credentials_missing env)) /\
      body_logs (body response) = Some (logs s'))) /\
  ((forall e, fst (RangeJob.GET pages env period s) <> Threw e) /\
   (forall response s',
      RangeJob.GET pages env period s = (Returned response, s') ->
      http_status response = 200 /\
      success (body response) = Some (negb (credentials_missing env)) /\
      body_logs (body response) = Some (logs s'))).
Proof.
  split; split.
  - apply never_raises_try_catch. intros e. unfold console_error.
    apply never_raises_bind; [apply never_raises_console_log|].
    intros _. apply never_raises_ret.
  - intros response s' Hrun.
    pose proof (monthly_job_calm pages env period s) as Hcalm.
    unfold MonthlyJob.GET, try_catch, bind in Hrun.
    unfold MonthlyJob.runMonthlyJob, bind, newLogs in Hrun, Hcalm.
    cbv beta iota in Hrun, Hcalm.
    destruct (MonthlyJob.gather pages env period (fresh_logs s))
      as [[groups|e|] s1];
      cbn in Hrun, Hcalm; try discriminate;
      [|exfalso; apply (Hcalm e); reflexivity].
    destruct (monthly_dispatch_answer env period groups s1)
      as (result & s2 & Hd & H1 & H2).
    rewrite Hd in Hrun. cbn in Hrun. inversion Hrun; subst. cbn. auto.
  - apply never_raises_try_catch. intros e. unfold console_error.
    apply never_raises_bind; [apply never_raises_console_log|].
    intros _. apply never_raises_ret.
  - intros response s' Hrun.
    pose proof (range_job_calm pages env period s) as Hcalm.
    unfold RangeJob.GET, try_catch, bind in Hrun.
    unfold RangeJob.runMonthlyJob, bind, newLogs in Hrun, Hcalm.
    cbv beta iota in Hrun, Hcalm.
    destruct (RangeJob.gather pages env period (fresh_logs s))
      as [[groups|e|] s1];
      cbn in Hrun, Hcalm; try discriminate;
      [|exfalso; apply (Hcalm e); reflexivity].
    destruct (range_dispatch_answer env period groups s1)
      as (result & s2 & Hd & H1 & H2).
    rewrite Hd in Hrun. cbn in Hrun. inversion Hrun; subst. cbn. auto.
Qed.

End Answers.

(** ** The two [POST] routes *)

Section PostFacts.
Context {R : Remote}.

Lemma second_listing_sends_nothing pages :
  forall stripe gte lte cursor acc,
    sends_nothing
      (ScheduledPost.getInvoices_loop pages stripe gte lte cursor acc).
Proof.
  induction pages as [|pages IH]; intros;
    cbn [ScheduledPost.getInvoices_loop]; autounfold with further; quiet.
Qed.

Lemma second_gather_sends_nothing pages env period :
  sends_nothing (ScheduledPost.gather pages env period).
Proof.
  autounfold with further; quiet; apply second_listing_sends_nothing.
Qed.

Ltac send_cases env period :=
  fold (transporter_of env);
  repeat match goal with
  | |- context [mkMail _ "mumair299792458u@gmail.com" _ _ ?a] =>
      progress fold (et_mail env period a)
  | |- context [mkMail _ "uzairshabbirsab@gmail.com" _ _ ?a] =>
      progress fold (pc_mail env period a)
  end;
  unfold bind, try_catch, sendMail_call, console_log, console_error, pushLog,
    readLogs, ret;
  repeat match goal with
  | |- context [sendMail ?t ?m ?w] =>
      destruct (sendMail t m w) as [[?|[]] ?]; cbn
  end.

(** The first generation's dispatch reports success only when every
    message due was sent. *)
Lemma first_dispatch_success env period groups s response s' :
  GenerateAndEmail.dispatch env period groups s = (Returned response, s') ->
  success (body response) = Some true ->
  http_status response = 200 /\ credentials_missing env = false /\
  sent s' = (sent s ++ due_mails env period groups)%list.
Proof.
  destruct groups as [aET aNon]. unfold GenerateAndEmail.dispatch.
  destruct (credentials_missing env) eqn:Hc;
    unfold credentials_missing in Hc; rewrite Hc.
  - intros Hrun Hs. inversion Hrun; subst. discriminate.
  - unfold due_mails. cbn [fst snd].
    destruct aET as [|a1 r1]; destruct aNon as [|a2 r2];
      cbn [length Nat.ltb Nat.leb]; send_cases env period;
      intros Hrun Hs; inversion Hrun; subst; cbn;
      rewrite ?app_nil_r, <- ?app_assoc; auto.
Qed.

(** X5.  The first generation's [POST] turns an error of its gathering
    into a 500 answer with [success: false] and the error's message, and
    sends nothing.  It answers [success: true] only with status 200,
    with credentials set, and after one message per group that is not
    empty was sent. *)
Theorem first_post_answer (pages : nat) (config : list (string * string))
  (env : Env) (period : Period) (s : State) :
  (forall e,
     fst (GenerateAndEmail.gather pages config period s) = Threw e ->
     fst (GenerateAndEmail.POST pages config env (Window period) s)
     = Returned (mkResponse (mkBody (Some false) (Some e) None None None)
                            500) /\
     sent (snd (GenerateAndEmail.POST pages config env (Window period) s))
     = sent s) /\
  (forall groups response s',
     fst (GenerateAndEmail.gather pages config period s) = Returned groups ->
     GenerateAndEmail.POST pages config env (Window period) s
     = (Returned response, s') ->
     success (body response) = Some true ->
     http_status response = 200 /\ credentials_missing env = false /\
     sent s' = (sent s ++ due_mails env period groups)%list).
Proof.
  pose proof (first_gather_sends_nothing pages config period s) as Hq.
  unfold GenerateAndEmail.POST, try_catch, bind.
  destruct (GenerateAndEmail.gather pages config period s) as [out s1].
  cbn in Hq. split.
  - intros e Hg. cbn in Hg. subst out. cbn. auto.
  - intros groups response s' Hg Hrun Hs. cbn in Hg. subst out.
    destruct (GenerateAndEmail.dispatch env period groups s1)
      as [[r|e|] s2] eqn:Hd; cbn in Hrun.
    + inversion Hrun; subst.
      destruct (first_dispatch_success env period groups s1 _ _ Hd Hs)
        as (H1 & H2 & H3).
      rewrite H3, Hq. auto.
    + inversion Hrun; subst. discriminate.
    + discriminate.
Qed.

Lemma second_dispatch_sends env period groups s :
  credentials_missing env = false ->
  fst (ScheduledPost.dispatch env period groups s)
  = Returned (mkResponse (mkBody (Some true) None None None None) 200) /\
  sent (snd (ScheduledPost.dispatch env period groups s))
  = (sent s ++ due_mails env period groups)%list.
Proof.
  intros Hc. destruct groups as [aET aNon]. unfold ScheduledPost.dispatch.
  unfold credentials_missing in Hc. rewrite Hc. unfold due_mails. cbn [fst snd].
  destruct aET as [|a1 r1]; destruct aNon as [|a2 r2];
    cbn [length Nat.ltb Nat.leb]; send_cases env period;
    rewrite ?app_nil_r, <- ?app_assoc; split; reflexivity.
Qed.

(** X6.  The second [POST] of scheduled/route.js turns an error of its
    gathering into a 500 answer with [success: false] and sends nothing;
    when the gathering returns and the credentials are set it attempts
    one message per group that is not empty, whatever the mailer
    answers, and reports [success: true]. *)
Theorem second_post_answer (pages : nat) (env : Env) (period : Period)
  (s : State) :
  (forall e,
     fst (ScheduledPost.gather pages env period s) = Threw e ->
     fst (ScheduledPost.POST pages env (Window period) s)
     = Returned (mkResponse (mkBody (Some false) (Some e) None None None)
                            500) /\
     sent (snd (ScheduledPost.POST pages env (Window period) s)) = sent s) /\
  (forall groups,
     fst (ScheduledPost.gather pages env period s) = Returned groups ->
     credentials_missing env = false ->
     fst (ScheduledPost.POST pages env (Window period) s)
     = Returned (mkResponse (mkBody (Some true) None None None None) 200) /\
     sent (snd (ScheduledPost.POST pages env (Window period) s))
     = (sent s ++ due_mails env period groups)%list).
Proof.
  pose proof (second_gather_sends_nothing pages env period s) as Hq.
  unfold ScheduledPost.POST, try_catch, bind.
  destruct (ScheduledPost.gather pages env period s) as [out s1].
  cbn in Hq. split.
  - intros e Hg. cbn in Hg. subst out. cbn. auto.
  - intros groups Hg Hc. cbn in Hg. subst out.
    destruct (second_dispatch_sends env period groups s1 Hc) as [H1 H2].
    destruct (ScheduledPost.dispatch env period groups s1) as [out2 s2].
    cbn in H1, H2. subst out2. cbn. rewrite H2, Hq. auto.
Qed.

End PostFacts.

(** Witness of X5: the listing of "sk_flaky" raises on its second
    page. *)
Lemma first_post_answer_witness :
  fst (GenerateAndEmail.gather 5 [("PC", "sk_flaky")] Demo.period Demo.start)
  = Threw "rate limited" /\
  fst (GenerateAndEmail.POST 5 [("PC", "sk_flaky")] Demo.env_full
         (Window Demo.period) Demo.start)
  = Returned (mkResponse
                (mkBody (Some false) (Some "rate limited") None None None)
                500).
Proof.
  assert (fst (GenerateAndEmail.gather 5 [("PC", "sk_flaky")] Demo.period
                 Demo.start) = Threw "rate limited") as Hg
    by (vm_compute; reflexivity).
  split; [exact Hg|].
  exact (proj1 (proj1 (first_post_answer 5 [("PC", "sk_flaky")] Demo.env_full
                         Demo.period Demo.start) "rate limited" Hg)).
Defined.

(** Witness of X6: the same account in the second [POST]. *)
Lemma second_post_answer_witness :
  fst (ScheduledPost.gather 5
         (mkEnv (Some "sk_flaky") None None (Some "admin@example.com")
                (Some "app-password"))
         Demo.period Demo.start)
  = Threw "rate limited" /\
  fst (ScheduledPost.POST 5
         (mkEnv (Some "sk_flaky") None None (Some "admin@example.com")
                (Some "app-password"))
         (Window Demo.period) Demo.start)
  = Returned (mkResponse
                (mkBody (Some false) (Some "rate limited") None None None)
                500).
Proof.
  assert (fst (ScheduledPost.gather 5
                 (mkEnv (Some "sk_flaky") None None (Some "admin@example.com")
                        (Some "app-password"))
                 Demo.period Demo.start) = Threw "rate limited") as Hg
    by (vm_compute; reflexivity).
  split; [exact Hg|].
  exact (proj1 (proj1 (second_post_answer 5 _ Demo.period Demo.start)
                  "rate limited" Hg)).
Defined.

(** ** The composite of a category *)

Section Composites.
Context {R : Remote}.

Lemma monthly_merge_step_agrees :
  @MonthlyJob.merge_step R = @Scheduled.merge_step R.
Proof. reflexivity. Qed.

Lemma second_merge_step_agrees :
  @ScheduledPost.merge_step R = @Scheduled.merge_step R.
Proof. reflexivity. Qed.

Lemma monthly_merge buffers s :
  MonthlyJob.mergePdfs buffers s =
  match merged_pages buffers with
  | inr pages => (Returned (Some (PDFDocument_save pages)), s)
  | inl e =>
      (Returned None,
       mkState (world s)
               (console s ++ ["Error merging PDF buffers: " ++ show_error e])
               (logs s ++ ["Error merging PDF buffers: " ++ show_error e])
               (listed s) (fetched s) (sent s))
  end.
Proof.
  unfold MonthlyJob.mergePdfs, try_catch, bind.
  rewrite monthly_merge_step_agrees, merge_loop.
  destruct (merged_pages buffers); reflexivity.
Qed.

Lemma second_merge buffers s :
  ScheduledPost.mergePdfs buffers s =
  match merged_pages buffers with
  | inr pages => (Returned (PDFDocument_save pages), s)
  | inl e => (Threw e, s)
  end.
Proof.
  unfold ScheduledPost.mergePdfs, bind.
  rewrite second_merge_step_agrees, merge_loop.
  destruct (merged_pages buffers); reflexivity.
Qed.

Lemma present_cons b bs : present (b :: bs) = (present [b] ++ present bs)%list.
Proof. destruct b; reflexivity. Qed.

(** A loop that pushes what a download returned, unless it is [null],
    builds the array of the downloads' results that are not [null]. *)
Lemma for_of_results
  (download : option string -> string -> M (option Bytes))
  (body : list (option Bytes) -> PdfLink -> M (list (option Bytes))) :
  (forall acc link s b s1,
     download (link_invoice_pdf link) (link_invoice_number link) s
     = (Returned b, s1) ->
     body acc link s = (Returned (acc ++ present [b])%list, s1)) ->
  forall links acc s results s',
    each_download download links s = (Returned results, s') ->
    for_of body acc links s = (Returned (acc ++ present results)%list, s').
Proof.
  intros Hbody. induction links as [|link rest IH];
    intros acc s results s' Hrun; cbn [each_download for_of] in *.
  - inversion Hrun; subst. cbn. rewrite app_nil_r. reflexivity.
  - unfold bind at 1 in Hrun. unfold bind at 1.
    destruct (download (link_invoice_pdf link) (link_invoice_number link) s)
      as [[b|e|] s1] eqn:Hd; try discriminate.
    rewrite (Hbody acc link s b s1 Hd).
    unfold bind in Hrun.
    destruct (each_download download rest s1) as [[bs|e|] s2] eqn:Hrest;
      try discriminate.
    inversion Hrun; subst.
    rewrite (IH _ _ _ _ Hrest), (present_cons b bs), app_assoc. reflexivity.
Qed.

(** Downloads that always return give a result for every record. *)
Lemma each_download_returns
  (download : option string -> string -> M (option Bytes)) :
  (forall url num s, exists b s1, download url num s = (Returned b, s1)) ->
  forall links s, exists results s',
    each_download download links s = (Returned results, s') /\
    length results = length links.
Proof.
  intros Htotal. induction links as [|link rest IH]; intros s;
    cbn [each_download].
  - exists [], s. split; reflexivity.
  - destruct (Htotal (link_invoice_pdf link) (link_invoice_number link) s)
      as (b & s1 & Hd).
    destruct (IH s1) as (bs & s2 & Hrest & Hlen).
    exists (b :: bs), s2. unfold bind. rewrite Hd, Hrest. cbn.
    split; [reflexivity|]. rewrite Hlen. reflexivity.
Qed.

Lemma scheduled_download_returns url num s :
  exists b s1, Scheduled.downloadPdfInMemory url num s = (Returned b, s1).
Proof.
  destruct (retry_from_bounded _ None (show url)
              (scheduled_attempt_bounded url num) 5 1 s eq_refl)
    as (v & n & s' & Hrun & _).
  eauto.
Qed.

Lemma monthly_download_returns url num s :
  exists b s1, MonthlyJob.downloadPdfInMemory url num s = (Returned b, s1).
Proof.
  destruct (retry_from_bounded _ None (show url)
              (monthly_attempt_bounded url num) 5 1 s eq_refl)
    as (v & n & s' & Hrun & _).
  eauto.
Qed.

Lemma second_download_returns url num s :
  exists b s1, ScheduledPost.downloadPdfInMemory url num s = (Returned b, s1).
Proof.
  destruct (retry_from_bounded _ None (show url)
              (second_attempt_bounded url num) 5 1 s eq_refl)
    as (v & n & s' & Hrun & _).
  eauto.
Qed.

Lemma scheduled_download_calm_all links :
  never_raises (Scheduled.download_all links) /\
  halts (Scheduled.download_all links).
Proof.
  split; autounfold with further; [calm|ending].
Qed.

(** X7.  The download loop of a category always returns, and its array
    is made of what the downloads of the records returned, one after the
    other: the results that are not [null], in the order of the records,
    and nothing else; the run is left as these downloads leave it.  So
    in the scheduled handler, in the second [POST] and in the
    trailing-range job. *)
Theorem downloads_hold_results (links : list PdfLink) (s : State) :
  (exists results s',
     each_download Scheduled.downloadPdfInMemory links s
     = (Returned results, s') /\
     length results = length links /\
     Scheduled.download_all links s = (Returned (present results), s')) /\
  (exists results s',
     each_download ScheduledPost.downloadPdfInMemory links s
     = (Returned results, s') /\
     length results = length links /\
     ScheduledPost.download_all links s = (Returned (present results), s')) /\
  (exists results s',
     each_download RangeJob.downloadPdfInMemory links s
     = (Returned results, s') /\
     length results = length links /\
     RangeJob.download_all links s = (Returned (present results), s')).
Proof.
  split; [|split].
  - destruct (each_download_returns _ scheduled_download_returns links s)
      as (results & s' & Hrun & Hlen).
    exists results, s'. split; [exact Hrun|]. split; [exact Hlen|].
    unfold Scheduled.download_all.
    change (present results) with ([] ++ present results)%list.
    apply (for_of_results Scheduled.downloadPdfInMemory); [|exact Hrun].
    clear. intros acc link s b s1 Hd. unfold try_catch, bind. rewrite Hd.
    destruct b; cbn; rewrite ?app_nil_r; reflexivity.
  - destruct (each_download_returns _ second_download_returns links s)
      as (results & s' & Hrun & Hlen).
    exists results, s'. split; [exact Hrun|]. split; [exact Hlen|].
    unfold ScheduledPost.download_all.
    change (present results) with ([] ++ present results)%list.
    apply (for_of_results ScheduledPost.downloadPdfInMemory); [|exact Hrun].
    clear. intros acc link s b s1 Hd. unfold bind. rewrite Hd.
    destruct b; cbn; rewrite ?app_nil_r; reflexivity.
  - destruct (each_download_returns _ monthly_download_returns links s)
      as (results & s' & Hrun & Hlen).
    exists results, s'. split; [exact Hrun|]. split; [exact Hlen|].
    unfold RangeJob.download_all.
    change (present results) with ([] ++ present results)%list.
    apply (for_of_results RangeJob.downloadPdfInMemory); [|exact Hrun].
    clear. intros acc link s b s1 Hd. unfold bind. rewrite Hd.
    destruct b; cbn; rewrite ?app_nil_r; reflexivity.
Qed.

(** [finalPdfBuffer] of the scheduled handler, by what the downloads and
    the merge give. *)
Lemma scheduled_final_pdf configKey name links s :
  Scheduled.finalPdf configKey name links s =
  match links with
  | [] => (Returned (Some placeholder), s)
  | _ :: _ =>
      match Scheduled.download_all links s with
      | (Returned bufs, s1) =>
          match merged_pages bufs with
          | inr pages => (Returned (Some (PDFDocument_save pages)), s1)
          | inl e =>
              (Returned (Some placeholder),
               mkState (world s1)
                 (console s1
                  ++ ["Error merging PDF buffers: " ++ inspect_error e;
                      "Merging failed or empty for " ++ configKey ++ "-"
                      ++ name ++ ", creating fallback PDF..."])
                 (logs s1) (listed s1) (fetched s1) (sent s1))
          end
      | (Threw e, s1) => (Threw e, s1)
      | (Diverged, s1) => (Diverged, s1)
      end
  end.
Proof.
  unfold Scheduled.finalPdf. destruct links as [|link rest]; [reflexivity|].
  cbn [length Nat.ltb Nat.leb]. unfold bind at 1.
  destruct (Scheduled.download_all (link :: rest) s) as [[bufs|e|] s1];
    try reflexivity.
  unfold bind. rewrite scheduled_merge.
  destruct (merged_pages bufs) as [e|pages]; [|reflexivity].
  unfold console_warn, console_log, Scheduled.createEmptyPdf, try_catch, ret.
  cbn. rewrite <- app_assoc. reflexivity.
Qed.

Lemma scheduled_final_pdf_returns configKey name links s :
  exists bytes s',
    Scheduled.finalPdf configKey name links s = (Returned (Some bytes), s').
Proof.
  rewrite scheduled_final_pdf.
  destruct links as [|link rest]; [eauto|].
  destruct (scheduled_download_calm_all (link :: rest)) as [Hcalm Hends].
  specialize (Hcalm s). specialize (Hends s).
  destruct (Scheduled.download_all (link :: rest) s) as [[bufs|e|] s1];
    [|exfalso; apply (Hcalm e); reflexivity|exfalso; apply Hends; reflexivity].
  destruct (merged_pages bufs); eauto.
Qed.

(** X8.  [finalPdfBuffer] of the scheduled handler is never null and
    nothing is raised for it: it is the placeholder for a category
    without records and when the merge of the downloaded buffers fails
    (after the merge error and a warning are logged), and the saved
    merge otherwise. *)
Theorem scheduled_composite (configKey name : string) (links : list PdfLink)
  (s : State) :
  (exists bytes s',
     Scheduled.finalPdf configKey name links s = (Returned (Some bytes), s')) /\
  (links = [] ->
   Scheduled.finalPdf configKey name links s = (Returned (Some placeholder), s)) /\
  (forall bufs s1 e,
     links <> [] ->
     Scheduled.download_all links s = (Returned bufs, s1) ->
     merged_pages bufs = inl e ->
     fst (Scheduled.finalPdf configKey name links s)
     = Returned (Some placeholder) /\
     console (snd (Scheduled.finalPdf configKey name links s))
     = (console s1
        ++ [("Error merging PDF buffers: " ++ inspect_error e)%string;
            ("Merging failed or empty for " ++ configKey ++ "-" ++ name
             ++ ", creating fallback PDF...")%string])%list) /\
  (forall bufs s1 pages,
     links <> [] ->
     Scheduled.download_all links s = (Returned bufs, s1) ->
     merged_pages bufs = inr pages ->
     Scheduled.finalPdf configKey name links s
     = (Returned (Some (PDFDocument_save pages)), s1)).
Proof.
  split; [apply scheduled_final_pdf_returns|].
  rewrite scheduled_final_pdf.
  split; [|split].
  - intros ->. reflexivity.
  - intros bufs s1 e Hl Hd Hm. destruct links; [congruence|].
    rewrite Hd, Hm. auto.
  - intros bufs s1 pages Hl Hd Hm. destruct links; [congruence|].
    rewrite Hd, Hm. reflexivity.
Qed.

(** X9.  In the trailing-range job and in the second [POST], a category
    whose downloads are all unavailable gets the placeholder, the merge
    not being called.  When the merge of downloaded buffers fails, the
    trailing-range job has no fallback: the category is skipped with a
    log line and the groups stay as they were; the second [POST] raises
    the failure. *)
Theorem later_composites (period : Period) (configKey name : string)
  (links : list PdfLink) (groups : RangeJob.Groups) (s s1 : State)
  (bufs : list (option Bytes)) :
  links <> [] ->
  (RangeJob.download_all links s = (Returned [], s1) ->
   RangeJob.finalPdf configKey name links s
   = (Returned (Some placeholder),
      mkState (world s1)
        (console s1 ++ ["No valid PDFs for " ++ configKey ++ "-" ++ name
                        ++ ", creating empty PDF"])
        (logs s1 ++ ["No valid PDFs for " ++ configKey ++ "-" ++ name
                     ++ ", creating empty PDF"])
        (listed s1) (fetched s1) (sent s1))) /\
  (ScheduledPost.download_all links s = (Returned [], s1) ->
   ScheduledPost.finalPdf links s = (Returned placeholder, s1)) /\
  (forall e,
     bufs <> [] -> merged_pages bufs = inl e ->
     RangeJob.download_all links s = (Returned bufs, s1) ->
     RangeJob.category_step period configKey groups (name, links) s
     = (Returned groups,
        mkState (world s1)
          (console s1
           ++ ["Error merging PDF buffers: " ++ show_error e;
               "Could not create final PDF for " ++ configKey ++ "-" ++ name
               ++ ", skipping"])
          (logs s1
           ++ ["Error merging PDF buffers: " ++ show_error e;
               "Could not create final PDF for " ++ configKey ++ "-" ++ name
               ++ ", skipping"])
          (listed s1) (fetched s1) (sent s1))) /\
  (forall e,
     bufs <> [] -> merged_pages bufs = inl e ->
     ScheduledPost.download_all links s = (Returned bufs, s1) ->
     ScheduledPost.finalPdf links s = (Threw e, s1)).
Proof.
  intros Hl. destruct links as [|link rest]; [congruence|].
  split; [|split; [|split]].
  - intros Hd. unfold RangeJob.finalPdf. cbn [length Nat.ltb Nat.leb].
    unfold bind at 1. rewrite Hd. reflexivity.
  - intros Hd. unfold ScheduledPost.finalPdf. cbn [length Nat.ltb Nat.leb].
    unfold bind at 1. rewrite Hd. reflexivity.
  - intros e Hb Hm Hd. unfold RangeJob.category_step, RangeJob.finalPdf.
    cbn [length Nat.ltb Nat.leb]. unfold bind at 1 2. rewrite Hd.
    destruct bufs as [|b0 bufs0]; [congruence|]. cbn [length Nat.ltb Nat.leb].
    unfold RangeJob.mergePdfs. rewrite monthly_merge, Hm.
    unfold pushLog, ret. cbn. rewrite <- !app_assoc. reflexivity.
  - intros e Hb Hm Hd. unfold ScheduledPost.finalPdf.
    cbn [length Nat.ltb Nat.leb]. unfold bind at 1. rewrite Hd.
    destruct bufs as [|b0 bufs0]; [congruence|]. cbn [length Nat.ltb Nat.leb].
    rewrite second_merge, Hm. reflexivity.
Qed.

End Composites.

(** ** The attachments of a run *)

Section Attachments.
Context {R : Remote}.

Lemma scheduled_listing_calm pages stripe gte lte :
  never_raises (Scheduled.getInvoices pages stripe gte lte).
Proof. autounfold with further. calm. Qed.

(** A category of the scheduled handler adds one attachment, named after
    the account and the category, to the group of the account. *)
Lemma scheduled_category_names period configKey groups name links s groups' s' :
  Scheduled.category_step period configKey groups (name, links) s
  = (Returned groups', s') ->
  group_names groups'
  = if String.eqb configKey "ET"
    then ((fst (group_names groups)
           ++ [(toUpperCase configKey ++ "-" ++ name ++ "-"
                ++ monthName period ++ "-" ++ periodYear period
                ++ ".pdf")%string])%list,
          snd (group_names groups))
    else (fst (group_names groups),
          (snd (group_names groups)
           ++ [(toUpperCase configKey ++ "-" ++ name ++ "-"
                ++ monthName period ++ "-" ++ periodYear period
                ++ ".pdf")%string])%list).
Proof.
  unfold Scheduled.category_step, bind.
  destruct (scheduled_final_pdf_returns configKey name links s)
    as (bytes & s1 & ->).
  destruct (String.eqb configKey "ET"); intros Hrun; inversion Hrun; subst;
    unfold group_names; cbn; rewrite map_app; reflexivity.
Qed.

Lemma scheduled_key_names pages period groups configKey keyVal s groups' s' :
  Scheduled.key_step pages period groups (configKey, keyVal) s
  = (Returned groups', s') ->
  group_names groups'
  = if account_ready keyVal then
      if String.eqb configKey "ET"
      then ((fst (group_names groups) ++ account_files period configKey)%list,
            snd (group_names groups))
      else (fst (group_names groups),
            (snd (group_names groups) ++ account_files period configKey)%list)
    else group_names groups.
Proof.
  unfold Scheduled.key_step, account_ready. intros Hrun.
  destruct (falsy keyVal); cbn [negb andb].
  - unfold bind, console_error, console_log, ret in Hrun.
    injection Hrun as <- _. reflexivity.
  - unfold bind at 1 in Hrun. unfold try_catch, bind at 1 in Hrun.
    unfold lift, throw, ret in Hrun.
    destruct (initStripe (show keyVal)) as [e|stripe]; cbv beta iota in Hrun.
    + unfold bind, console_error, console_log in Hrun.
      injection Hrun as <- _. reflexivity.
    + pose proof (scheduled_listing_calm pages stripe (gte period) (lte period)
                    s) as Hcalm.
      unfold bind at 1 in Hrun.
      destruct (Scheduled.getInvoices pages stripe (gte period) (lte period) s)
        as [[links|e|] s1]; cbv beta iota in Hrun; try discriminate;
        [|exfalso; apply (Hcalm e); reflexivity].
      cbn [for_of] in Hrun.
      unfold bind at 1 in Hrun.
      destruct (Scheduled.category_step period configKey groups
                  ("Paid_And_Open", paidAndOpenLinks links) s1)
        as [[g1|e|] s2] eqn:H1; try discriminate.
      unfold bind at 1 in Hrun.
      destruct (Scheduled.category_step period configKey g1
                  ("Other_Status", otherStatusLinks links) s2)
        as [[g2|e|] s3] eqn:H2; try discriminate.
      apply scheduled_category_names in H1, H2.
      injection Hrun as <- _.
      rewrite H2, H1. unfold account_files.
      destruct (String.eqb configKey "ET"); cbn [fst snd map];
        rewrite <- app_assoc; reflexivity.
Qed.

(** X10.  Whatever the remote services answer, a scheduled run that
    gathers to the end holds exactly one attachment per category of
    every account that has a key (and a client), named
    KEY-Category-Month-Year.pdf: those of ET in the first group, those
    of PC and then PCP in the second.  An account without a key adds
    nothing and takes nothing from the others. *)
Theorem scheduled_attachments (pages : nat) (env : Env) (period : Period)
  (s : State) (groups : Scheduled.Groups) :
  fst (Scheduled.gather pages env period s) = Returned groups ->
  group_names groups = group_files env period.
Proof.
  unfold Scheduled.gather. unfold bind at 1 2 3 4 5.
  unfold console_log. cbn [fst snd].
  match goal with |- context [for_of _ _ _ ?s0] => generalize s0 end.
  intros s0. unfold Scheduled.STRIPE_KEYS. cbn [for_of]. intros Hrun.
  unfold bind at 1 in Hrun.
  destruct (Scheduled.key_step pages period ([], []) ("PC", STRIPE_PC env) s0)
    as [[g1|e|] s1] eqn:H1; try discriminate.
  unfold bind at 1 in Hrun.
  destruct (Scheduled.key_step pages period g1 ("ET", STRIPE_ET env) s1)
    as [[g2|e|] s2] eqn:H2; try discriminate.
  unfold bind at 1 in Hrun.
  destruct (Scheduled.key_step pages period g2 ("PCP", STRIPE_PCP env) s2)
    as [[g3|e|] s3] eqn:H3; try discriminate.
  apply scheduled_key_names in H1, H2, H3.
  unfold ret in Hrun. cbn in Hrun. injection Hrun as <-.
  rewrite H3, H2, H1. unfold group_files, group_names. cbn [fst snd map].
  change (String.eqb "PC" "ET") with false.
  change (String.eqb "ET" "ET") with true.
  change (String.eqb "PCP" "ET") with false.
  destruct (account_ready (STRIPE_PC env)), (account_ready (STRIPE_ET env)),
    (account_ready (STRIPE_PCP env)); cbn [fst snd app];
    rewrite ?app_nil_r; reflexivity.
Qed.

End Attachments.

(** Witness of X10: the demonstration, where every account has a key. *)
Lemma scheduled_attachments_witness :
  fst (Scheduled.gather 5 Demo.env_full Demo.period Demo.start)
  = Returned Demo.scheduled_groups /\
  group_names Demo.scheduled_groups
  = (["ET-Paid_And_Open-January-2025.pdf"; "ET-Other_Status-January-2025.pdf"],
     ["PC-Paid_And_Open-January-2025.pdf"; "PC-Other_Status-January-2025.pdf";
      "PCP-Paid_And_Open-January-2025.pdf";
      "PCP-Other_Status-January-2025.pdf"]).
Proof.
  assert (fst (Scheduled.gather 5 Demo.env_full Demo.period Demo.start)
          = Returned Demo.scheduled_groups) as Hg by (vm_compute; reflexivity).
  split; [exact Hg|].
  exact (scheduled_attachments 5 Demo.env_full Demo.period Demo.start
           Demo.scheduled_groups Hg).
Defined.

(** ** A listing without an end *)

Section Endless.
Context {R : Remote}.

Lemma listing_goes_on stripe gte lte :
  (forall cursor w, exists p w',
     invoices_list stripe (mkListParams 10 cursor gte lte) w = (inr p, w') /\
     final_page p = false) ->
  forall pages cursor acc s,
    fst (Scheduled.getInvoices_loop pages stripe gte lte cursor acc s)
    = Diverged /\
    length (listed (snd (Scheduled.getInvoices_loop pages stripe gte lte
                           cursor acc s)))
    = length (listed s) + pages.
Proof.
  intros Hsource. induction pages as [|pages IH]; intros cursor acc s.
  - cbn. split; [reflexivity|lia].
  - rewrite listing_turn. cbn zeta.
    destruct (Hsource cursor (world s)) as (p & w' & -> & Hp).
    unfold final_page in Hp.
    destruct (records_of p) as [|invoice rest] eqn:Hrec; [discriminate|].
    apply negb_false_iff in Hp.
    match goal with |- context [bind _ _ ?s1] =>
      destruct (collect_page (invoice :: rest) acc s1)
        as (s2 & Hcol & (Hw & Hli & Hfe & Hse)) end.
    unfold bind. rewrite Hcol, Hp. cbn [negb].
    destruct (IH (last_id p) (append_links acc (classified (invoice :: rest)))
                s2) as [H1 H2].
    rewrite H1, H2, Hli. cbn. rewrite length_app. cbn. split; [reflexivity|lia].
Qed.

(** X11.  The listing has no page limit of its own: against a source
    whose every page holds records and signals more, it is still asking
    when any budget of pages is used up, having made one request per
    page of the budget, in the scheduled handler as in the first
    generation. *)
Theorem listing_never_ends (stripe : Stripe) (gte lte : Z) (pages : nat)
  (s : State) :
  (forall cursor w, exists p w',
     invoices_list stripe (mkListParams 10 cursor gte lte) w = (inr p, w') /\
     final_page p = false) ->
  (fst (Scheduled.getInvoices pages stripe gte lte s) = Diverged /\
   length (listed (snd (Scheduled.getInvoices pages stripe gte lte s)))
   = length (listed s) + pages) /\
  (fst (GenerateAndEmail.getInvoices pages stripe gte lte s) = Diverged /\
   length (listed (snd (GenerateAndEmail.getInvoices pages stripe gte lte s)))
   = length (listed s) + pages).
Proof.
  intros Hsource.
  destruct (listing_goes_on stripe gte lte Hsource pages None (mkLinks [] []) s)
    as [H1 H2].
  unfold GenerateAndEmail.getInvoices. rewrite first_loop_agrees.
  unfold Scheduled.getInvoices, try_catch.
  destruct (Scheduled.getInvoices_loop pages stripe gte lte None
              (mkLinks [] []) s) as [out s1].
  cbn in H1, H2. subst out. cbn. auto.
Qed.

End Endless.

(** Witness of X11: the source that never runs out. *)
Lemma listing_never_ends_witness :
  (forall cursor w, exists p w',
     @invoices_list Endless.remote "sk_any"
       (mkListParams 10 cursor Demo.window_start Demo.window_end) w
     = (inr p, w') /\
     final_page p = false) /\
  fst (@Scheduled.getInvoices Endless.remote 7 "sk_any"
         Demo.window_start Demo.window_end Endless.start)
  = Diverged /\
  length (listed (snd (@GenerateAndEmail.getInvoices Endless.remote 7 "sk_any"
                         Demo.window_start Demo.window_end Endless.start)))
  = 7.
Proof.
  assert (forall cursor w, exists p w',
            @invoices_list Endless.remote "sk_any"
              (mkListParams 10 cursor Demo.window_start Demo.window_end) w
            = (inr p, w') /\
            final_page p = false) as Hsource.
  { intros cursor w. do 2 eexists. split; reflexivity. }
  split; [exact Hsource|].
  exact (conj
           (proj1 (proj1 (@listing_never_ends Endless.remote "sk_any"
                            Demo.window_start Demo.window_end 7 Endless.start
                            Hsource)))
           (proj2 (proj2 (@listing_never_ends Endless.remote "sk_any"
                            Demo.window_start Demo.window_end 7 Endless.start
                            Hsource)))).
Defined.

(** ** The log of the jobs *)

Section Mirror.
Context {R : Remote}.

Lemma mirrors_same {A} (m : M A) :
  (forall s, console (snd (m s)) = console s /\ logs (snd (m s)) = logs s) ->
  mirrors m.
Proof.
  intros H s. exists []. rewrite !app_nil_r. apply H.
Qed.

Lemma mirrors_ret {A} (a : A) : mirrors (ret a).
Proof. apply mirrors_same. intros s. split; reflexivity. Qed.

Lemma mirrors_throw {A} e : mirrors (@throw R A e).
Proof. apply mirrors_same. intros s. split; reflexivity. Qed.

Lemma mirrors_diverge {A} : mirrors (@diverge R A).
Proof. apply mirrors_same. intros s. split; reflexivity. Qed.

Lemma mirrors_readLogs : mirrors readLogs.
Proof. apply mirrors_same. intros s. split; reflexivity. Qed.

Lemma mirrors_lift {A} (r : string + A) : mirrors (lift r).
Proof. apply mirrors_same. intros s. destruct r; split; reflexivity. Qed.

Lemma mirrors_http url : mirrors (http_get_call url).
Proof.
  apply mirrors_same. intros s. unfold http_get_call.
  destruct (http_get url (world s)) as [[e|b] w]; split; reflexivity.
Qed.

Lemma mirrors_list stripe params : mirrors (invoices_list_call stripe params).
Proof.
  apply mirrors_same. intros s. unfold invoices_list_call.
  destruct (invoices_list stripe params (world s)) as [[e|p] w];
    split; reflexivity.
Qed.

Lemma mirrors_send transporter mail :
  mirrors (sendMail_call transporter mail).
Proof.
  apply mirrors_same. intros s. unfold sendMail_call.
  destruct (sendMail transporter mail (world s)) as [[e|u] w];
    split; reflexivity.
Qed.

Lemma mirrors_pushLog line : mirrors (pushLog line).
Proof. intros s. exists [line]. split; reflexivity. Qed.

Lemma mirrors_bind {A B} (m : M A) (k : A -> M B) :
  mirrors m -> (forall a, mirrors (k a)) -> mirrors (bind m k).
Proof.
  intros Hm Hk s. unfold bind. destruct (Hm s) as (l1 & Hc & Hl).
  destruct (m s) as [[a|e|] s1]; cbn in *; eauto.
  destruct (Hk a s1) as (l2 & Hc2 & Hl2). exists (l1 ++ l2)%list.
  rewrite Hc2, Hl2, Hc, Hl, !app_assoc. auto.
Qed.

Lemma mirrors_try_catch {A} (m : M A) (h : string -> M A) :
  mirrors m -> (forall e, mirrors (h e)) -> mirrors (try_catch m h).
Proof.
  intros Hm Hh s. unfold try_catch. destruct (Hm s) as (l1 & Hc & Hl).
  destruct (m s) as [[a|e|] s1]; cbn in *; eauto.
  destruct (Hh e s1) as (l2 & Hc2 & Hl2). exists (l1 ++ l2)%list.
  rewrite Hc2, Hl2, Hc, Hl, !app_assoc. auto.
Qed.

Lemma mirrors_for_of {A X} (body : A -> X -> M A) xs :
  (forall acc x, mirrors (body acc x)) ->
  forall acc, mirrors (for_of body acc xs).
Proof.
  intros Hbody. induction xs as [|x rest IH]; intros acc; cbn [for_of].
  - apply mirrors_ret.
  - apply mirrors_bind; [apply Hbody|exact IH].
Qed.

Lemma mirrors_retry {A} (body : nat -> M (Flow A)) after :
  (forall a, mirrors (body a)) ->
  forall a, mirrors (retry_from body after a).
Proof.
  intros Hbody a. remember (S maxAttempts - a) as k eqn:Hk.
  revert a Hk. induction k as [|k IH]; intros a Hk s;
    rewrite retry_from_turn;
    destruct (le_dec a maxAttempts) as [Hle|Hgt]; try lia;
    try (apply (mirrors_ret after s)).
  revert s. apply mirrors_bind; [apply Hbody|].
  intros [v|]; [apply mirrors_ret|].
  destruct k as [|k'].
  - intros s. rewrite retry_from_turn.
    destruct (le_dec (S a) maxAttempts); [lia|apply (mirrors_ret after s)].
  - apply IH. lia.
Qed.

End Mirror.

Create HintDb mirror.
#[local] Hint Resolve
  mirrors_ret mirrors_throw mirrors_diverge mirrors_readLogs mirrors_lift
  mirrors_http mirrors_list mirrors_send mirrors_pushLog : mirror.

Ltac mirror :=
  repeat first
    [ progress cbv beta
    | solve [auto with mirror]
    | match goal with
      | |- mirrors (try_catch _ _) => apply mirrors_try_catch
      | |- mirrors (bind _ _) => apply mirrors_bind
      | |- mirrors (for_of _ _ _) => apply mirrors_for_of
      | |- mirrors (retry_from _ _ _) => apply mirrors_retry
      | |- forall _, _ => intro
      | |- mirrors (if ?b then _ else _) => destruct b
      | |- mirrors (match ?x with _ => _ end) => destruct x
      | |- mirrors (let (_, _) := ?p in _) => destruct p
      end ].

Section JobLogs.
Context {R : Remote}.

Lemma job_listing_mirrors line pages :
  forall stripe gte lte cursor acc,
    mirrors (MonthlyJob.getInvoices_loop line pages stripe gte lte cursor acc).
Proof.
  induction pages as [|pages IH]; intros;
    cbn [MonthlyJob.getInvoices_loop]; autounfold with further; mirror.
Qed.

Lemma monthly_job_mirrors pages env period :
  mirrors (groups <- MonthlyJob.gather pages env period ;;
           MonthlyJob.dispatch env period groups).
Proof.
  autounfold with further. mirror; apply job_listing_mirrors.
Qed.

Lemma range_job_mirrors pages env period :
  mirrors (groups <- RangeJob.gather pages env period ;;
           RangeJob.dispatch env period groups).
Proof.
  autounfold with further. mirror; apply job_listing_mirrors.
Qed.

(** X12.  In both jobs of part_000 the run creates its [logs] array
    and every line goes through [pushLog]: when the run ends, however it
    ends and whatever an earlier run logged, the console has grown by
    exactly the lines of the array, in the same order. *)
Theorem job_log_complete (pages : nat) (env : Env) (period : Period)
  (s : State) :
  console (snd (MonthlyJob.runMonthlyJob pages env period s))
  = (console s ++ logs (snd (MonthlyJob.runMonthlyJob pages env period s)))%list
  /\
  console (snd (RangeJob.runMonthlyJob pages env period s))
  = (console s ++ logs (snd (RangeJob.runMonthlyJob pages env period s)))%list.
Proof.
  split.
  - change (MonthlyJob.runMonthlyJob pages env period s)
      with ((groups <- MonthlyJob.gather pages env period ;;
             MonthlyJob.dispatch env period groups) (fresh_logs s)).
    destruct (monthly_job_mirrors pages env period (fresh_logs s))
      as (lines & Hc & Hl).
    rewrite Hc, Hl. reflexivity.
  - change (RangeJob.runMonthlyJob pages env period s)
      with ((groups <- RangeJob.gather pages env period ;;
             RangeJob.dispatch env period groups) (fresh_logs s)).
    destruct (range_job_mirrors pages env period (fresh_logs s))
      as (lines & Hc & Hl).
    rewrite Hc, Hl. reflexivity.
Qed.

End JobLogs.

(** A second run in the same process does not return the lines of the
    first: the lines of the answer are those of the run. *)
Example job_logs_are_fresh :
  let first := snd (MonthlyJob.GET 5 Demo.env_no_mailer Demo.period Demo.start) in
  match fst (MonthlyJob.GET 5 Demo.env_no_mailer Demo.period first),
        fst (MonthlyJob.GET 5 Demo.env_no_mailer Demo.period Demo.start) with
  | Returned second, Returned once =>
      body_logs (body second) = body_logs (body once)
  | _, _ => False
  end.
Proof. vm_compute. reflexivity. Qed.

(** ** [formatDate] *)

Section DateFacts.

Lemma to_uint_not_nil n : Nat.to_uint n <> Decimal.Nil.
Proof.
  intros H. pose proof (Unsigned.of_to n) as Hn. rewrite H in Hn.
  cbn in Hn. subst n. discriminate.
Qed.

Lemma show_nat_inj a b : show_nat a = show_nat b -> a = b.
Proof.
  unfold show_nat. intros H.
  apply (f_equal NilZero.uint_of_string) in H.
  rewrite !NilZero.usu in H by apply to_uint_not_nil.
  injection H as H. apply Unsigned.to_uint_inj. exact H.
Qed.

Lemma append_same_length a : forall a' b b',
  String.length a = String.length a' -> a ++ b = a' ++ b' ->
  a = a' /\ b = b'.
Proof.
  induction a as [|c a IH]; intros [|c' a'] b b' Hlen H;
    try discriminate; cbn in *.
  - auto.
  - injection H as -> H. injection Hlen as Hlen.
    destruct (IH a' b b' Hlen H) as [-> ->]. auto.
Qed.

Lemma pad_length n :
  n <= 99 -> String.length (Dates.padStart 2 "0" (show_nat n)) = 2.
Proof.
  intros Hn.
  assert (forallb (fun n => (String.length
                               (Dates.padStart 2 "0" (show_nat n)) =? 2)%nat)
            (seq 0 100) = true) as Hall by (vm_compute; reflexivity).
  rewrite forallb_forall in Hall.
  apply Nat.eqb_eq. apply Hall. apply in_seq. lia.
Qed.

Lemma pad_inj a b :
  a <= 99 -> b <= 99 ->
  Dates.padStart 2 "0" (show_nat a) = Dates.padStart 2 "0" (show_nat b) ->
  a = b.
Proof.
  intros Ha Hb H.
  assert (forallb
            (fun a =>
               forallb
                 (fun b =>
                    implb (String.eqb (Dates.padStart 2 "0" (show_nat a))
                                      (Dates.padStart 2 "0" (show_nat b)))
                          (a =? b)%nat)
                 (seq 0 100))
            (seq 0 100) = true) as Hall by (vm_compute; reflexivity).
  rewrite forallb_forall in Hall.
  specialize (Hall a ltac:(apply in_seq; lia)).
  rewrite forallb_forall in Hall.
  specialize (Hall b ltac:(apply in_seq; lia)).
  apply String.eqb_eq in H. rewrite H in Hall. cbn in Hall.
  apply Nat.eqb_eq. exact Hall.
Qed.

Lemma plain_date_bounds d :
  Dates.plain_date d = true ->
  String.length (show_nat (fullYear d)) = 4 /\ monthIndex d <= 11 /\
  1 <= dayOfMonth d <= 31.
Proof.
  unfold Dates.plain_date.
  rewrite !andb_true_iff, !Nat.leb_le, Nat.eqb_eq. lia.
Qed.

Lemma pad_two n :
  n <= 99 -> Dates.padStart 2 "0" (show_nat n) = Dates.two_digits n.
Proof.
  intros Hn.
  assert (forallb (fun n => String.eqb (Dates.padStart 2 "0" (show_nat n))
                                       (Dates.two_digits n))
            (seq 0 100) = true) as Hall by (vm_compute; reflexivity).
  rewrite forallb_forall in Hall.
  apply String.eqb_eq. apply Hall. apply in_seq. lia.
Qed.

Lemma read_two n : n <= 99 -> Dates.read_number (Dates.two_digits n) = Some n.
Proof.
  intros Hn.
  assert (forallb (fun n => match Dates.read_number (Dates.two_digits n) with
                            | Some k => (k =? n)%nat
                            | None => false
                            end)
            (seq 0 100) = true) as Hall by (vm_compute; reflexivity).
  rewrite forallb_forall in Hall.
  specialize (Hall n ltac:(apply in_seq; lia)).
  destruct (Dates.read_number (Dates.two_digits n)) as [k|]; [|discriminate].
  apply Nat.eqb_eq in Hall. congruence.
Qed.

Lemma read_show n : Dates.read_number (show_nat n) = Some n.
Proof.
  unfold Dates.read_number, show_nat.
  rewrite NilZero.usu by apply to_uint_not_nil.
  cbn. rewrite Unsigned.of_to. reflexivity.
Qed.

(** A text of four characters, a dash, two characters, a dash and two
    characters is read back field by field. *)
Lemma read_date_fields yyyy mm dd :
  String.length yyyy = 4 -> String.length mm = 2 -> String.length dd = 2 ->
  String.length (yyyy ++ "-" ++ mm ++ "-" ++ dd) = 10 /\
  Dates.read_date (yyyy ++ "-" ++ mm ++ "-" ++ dd)
  = match Dates.read_number yyyy, Dates.read_number mm,
          Dates.read_number dd with
    | Some y, Some (S m), Some d => Some (mkDateParts y m d)
    | _, _, _ => None
    end.
Proof.
  intros Hy Hm Hd.
  destruct yyyy as [|a [|b [|c [|e [|]]]]]; try discriminate.
  destruct mm as [|f [|g [|]]]; try discriminate.
  destruct dd as [|h [|i [|]]]; try discriminate.
  split; reflexivity.
Qed.

(** X13.  For a date with a four-digit year [formatDate] writes the
    year, a dash, the two digits of the month counted from 1, a dash and
    the two digits of the day: ten characters that read back as the date
    they were made of, so that two such dates have the same text only if
    they are the same date. *)
Theorem formatDate_plain (d : DateParts) :
  Dates.plain_date d = true ->
  Dates.formatDate d
  = show_nat (fullYear d) ++ "-" ++ Dates.two_digits (monthIndex d + 1)
    ++ "-" ++ Dates.two_digits (dayOfMonth d) /\
  String.length (Dates.formatDate d) = 10 /\
  Dates.read_date (Dates.formatDate d) = Some d /\
  (forall d2, Dates.plain_date d2 = true ->
              Dates.formatDate d = Dates.formatDate d2 -> d = d2).
Proof.
  assert (forall d, Dates.plain_date d = true ->
            Dates.formatDate d
            = show_nat (fullYear d) ++ "-"
              ++ Dates.two_digits (monthIndex d + 1)
              ++ "-" ++ Dates.two_digits (dayOfMonth d) /\
            String.length (Dates.formatDate d) = 10 /\
            Dates.read_date (Dates.formatDate d) = Some d) as Hone.
  { clear d. intros d Hd.
    destruct (plain_date_bounds d Hd) as (Ly & Hm & Hday).
    assert (Dates.formatDate d
            = show_nat (fullYear d) ++ "-"
              ++ Dates.two_digits (monthIndex d + 1)
              ++ "-" ++ Dates.two_digits (dayOfMonth d)) as Heq.
    { unfold Dates.formatDate. cbn zeta.
      rewrite (pad_two (monthIndex d + 1)) by lia.
      rewrite (pad_two (dayOfMonth d)) by lia. reflexivity. }
    split; [exact Heq|]. rewrite Heq.
    destruct (read_date_fields (show_nat (fullYear d))
                (Dates.two_digits (monthIndex d + 1))
                (Dates.two_digits (dayOfMonth d)) Ly eq_refl eq_refl)
      as [Hlen Hread].
    split; [exact Hlen|]. rewrite Hread, read_show.
    rewrite (read_two (monthIndex d + 1)) by lia.
    rewrite (read_two (dayOfMonth d)) by lia.
    rewrite Nat.add_1_r. destruct d; reflexivity. }
  intros Hd. destruct (Hone d Hd) as (H1 & H2 & H3).
  split; [exact H1|]. split; [exact H2|]. split; [exact H3|].
  intros d2 Hd2 Heq. destruct (Hone d2 Hd2) as (_ & _ & H4).
  rewrite Heq in H3. congruence.
Qed.

End DateFacts.

(** Witness of X13: the date of the comment in the source. *)
Lemma formatDate_plain_witness :
  Dates.plain_date (mkDateParts 2025 0 28) = true /\
  Dates.formatDate (mkDateParts 2025 0 28) = "2025-01-28" /\
  Dates.read_date (Dates.formatDate (mkDateParts 2025 0 28))
  = Some (mkDateParts 2025 0 28).
Proof.
  assert (Dates.plain_date (mkDateParts 2025 0 28) = true) as H
    by (vm_compute; reflexivity).
  split; [exact H|]. split; [vm_compute; reflexivity|].
  exact (proj1 (proj2 (proj2 (formatDate_plain _ H)))).
Defined.

(** A text with the fields in another order, or with the month counted
    from 0, does not read back as the date. *)
Example read_date_tells :
  Dates.read_date "2025-28-01" = Some (mkDateParts 2025 27 1) /\
  Dates.read_date "2025-00-28" = None /\
  Dates.read_date "2025-1-28" = None.
Proof. repeat split; vm_compute; reflexivity. Qed.

(** ** One record against a whole category, in the first generation *)

Section FirstComposite.
Context {R : Remote}.

Lemma for_of_app {A X} (body : A -> X -> M A) xs : forall ys acc s,
  for_of body acc (xs ++ ys) s
  = (acc' <- for_of body acc xs ;; for_of body acc' ys) s.
Proof.
  induction xs as [|x rest IH]; intros ys acc s; cbn [for_of app].
  - reflexivity.
  - unfold bind at 1 2 3. destruct (body acc x s) as [[acc1|e|] s1];
      try reflexivity.
    rewrite IH. reflexivity.
Qed.

(** The first generation's download of a record whose document is
    missing, or never answers, raises. *)
Lemma first_download_fails link s :
  falsy (link_invoice_pdf link) = true \/
  fetch_fails maxAttempts (show (link_invoice_pdf link)) (world s) = true ->
  fst (GenerateAndEmail.downloadPdfInMemory (link_invoice_pdf link)
         (link_invoice_number link) s)
  = Threw ("Failed to download " ++ link_invoice_number link
           ++ " after 5 attempts") /\
  exists n, n <= 5 /\
    fetched (snd (GenerateAndEmail.downloadPdfInMemory
                    (link_invoice_pdf link) (link_invoice_number link) s))
    = (fetched s ++ repeat (show (link_invoice_pdf link)) n)%list.
Proof.
  intros Hcase. unfold GenerateAndEmail.downloadPdfInMemory.
  assert (1 <= maxAttempts <= maxAttempts) as Hk
    by (unfold maxAttempts; lia).
  destruct (falsy (link_invoice_pdf link)) eqn:Hu.
  - destruct (retry_from_idle _ None _
                (first_attempt_absent (link_invoice_pdf link)
                   (link_invoice_number link) Hu) maxAttempts s Hk)
      as (H1 & H2 & _).
    split; [exact H1|]. exists 0. cbn. rewrite app_nil_r.
    split; [lia|exact H2].
  - destruct Hcase as [Hc|Hf]; [discriminate|].
    destruct (retry_from_dead _ None (show (link_invoice_pdf link)) _
                (first_attempt_dead (link_invoice_pdf link)
                   (link_invoice_number link) Hu) maxAttempts s Hk Hf)
      as (H1 & H2).
    split; [exact H1|]. exists 5. split; [lia|exact H2].
Qed.

(** X14.  In the first generation one record whose document is missing,
    or never answers, fails its whole category, wherever it stands in
    it: once the records before it are downloaded, the failure of its
    download is raised, [finalPdfBuffer] is not built, its reference was
    fetched 5 times at most and the records after it are not fetched. *)
Theorem first_composite_fails (before : list PdfLink) (link : PdfLink)
  (rest : list PdfLink) (s s1 : State) (results : list (option Bytes)) :
  each_download GenerateAndEmail.downloadPdfInMemory before s
  = (Returned results, s1) ->
  falsy (link_invoice_pdf link) = true \/
  fetch_fails maxAttempts (show (link_invoice_pdf link)) (world s1) = true ->
  fst (GenerateAndEmail.finalPdf (before ++ link :: rest) s)
  = Threw ("Failed to download " ++ link_invoice_number link
           ++ " after 5 attempts") /\
  exists n,
    n <= 5 /\
    fetched (snd (GenerateAndEmail.finalPdf (before ++ link :: rest) s))
    = (fetched s1 ++ repeat (show (link_invoice_pdf link)) n)%list.
Proof.
  intros Hbefore Hcase.
  destruct (first_download_fails link s1 Hcase) as [Hout Hfetched].
  destruct (GenerateAndEmail.downloadPdfInMemory (link_invoice_pdf link)
              (link_invoice_number link) s1) as [out s2] eqn:Hd.
  cbn in Hout, Hfetched. subst out.
  assert (GenerateAndEmail.finalPdf (before ++ link :: rest) s
          = (Threw ("Failed to download " ++ link_invoice_number link
                    ++ " after 5 attempts"), s2)) as Hrun.
  { unfold GenerateAndEmail.finalPdf.
    assert ((0 <? length (before ++ link :: rest))%nat = true) as Hlen
      by (apply Nat.ltb_lt; rewrite length_app; cbn; lia).
    rewrite Hlen. unfold bind at 1. unfold GenerateAndEmail.download_all.
    rewrite for_of_app. unfold bind at 1.
    match goal with |- context [for_of ?body [] before s] =>
      assert (forall acc l s b s1,
                GenerateAndEmail.downloadPdfInMemory (link_invoice_pdf l)
                  (link_invoice_number l) s = (Returned b, s1) ->
                body acc l s = (Returned (acc ++ present [b])%list, s1))
        as Hbody
        by (clear; intros acc l s b s1 Hd; unfold bind; rewrite Hd;
            destruct b; cbn; rewrite ?app_nil_r; reflexivity);
      rewrite (for_of_results GenerateAndEmail.downloadPdfInMemory body Hbody
                 before [] s results s1 Hbefore)
    end.
    cbn [for_of]. cbv beta. unfold bind. rewrite Hd. reflexivity. }
  rewrite Hrun. cbn. auto.
Qed.

End FirstComposite.

(** Witness of X14: the invoice of the demonstration whose host never
    answers, after one that downloads and before another. *)
Lemma first_composite_fails_witness :
  each_download GenerateAndEmail.downloadPdfInMemory [pdfLink_of Demo.inv1]
    Demo.start
  = (Returned [Some [1; 2]],
     @mkState Demo.remote 1 ["File downloaded in memory for invoice: INV-1"]
       [] [] ["https://files/1.pdf"] []) /\
  fst (GenerateAndEmail.finalPdf
         [pdfLink_of Demo.inv1; pdfLink_of Demo.inv3; pdfLink_of Demo.inv1]
         Demo.start)
  = Threw "Failed to download INV-3 after 5 attempts".
Proof.
  assert (each_download GenerateAndEmail.downloadPdfInMemory
            [pdfLink_of Demo.inv1] Demo.start
          = (Returned [Some [1; 2]],
             @mkState Demo.remote 1
               ["File downloaded in memory for invoice: INV-1"]
               [] [] ["https://files/1.pdf"] [])) as Hb
    by (vm_compute; reflexivity).
  assert (falsy (link_invoice_pdf (pdfLink_of Demo.inv3)) = true \/
          @fetch_fails Demo.remote maxAttempts
            (show (link_invoice_pdf (pdfLink_of Demo.inv3))) 1 = true) as H
    by (right; vm_compute; reflexivity).
  split; [exact Hb|].
  exact (proj1 (first_composite_fails [pdfLink_of Demo.inv1]
                  (pdfLink_of Demo.inv3) [pdfLink_of Demo.inv1]
                  Demo.start _ _ Hb H)).
Defined.

(** Witness of X9: a record without a document in the demonstration, and
    a download that does not parse where no buffer does. *)
Lemma later_composites_witness :
  [pdfLink_of Demo.inv2] <> [] /\
  RangeJob.download_all [pdfLink_of Demo.inv2] Demo.start
  = (Returned [],
     mkState (world Demo.start) ["No PDF URL for invoice INV-2"]
             ["No PDF URL for invoice INV-2"] [] [] []) /\
  RangeJob.finalPdf "ET" "Other_Status" [pdfLink_of Demo.inv2] Demo.start
  = (Returned (Some placeholder),
     mkState (world Demo.start)
       ["No PDF URL for invoice INV-2";
        "No valid PDFs for ET-Other_Status, creating empty PDF"]
       ["No PDF URL for invoice INV-2";
        "No valid PDFs for ET-Other_Status, creating empty PDF"]
       [] [] []).
Proof.
  assert ([pdfLink_of Demo.inv2] <> []) as Hl by discriminate.
  assert (RangeJob.download_all [pdfLink_of Demo.inv2] Demo.start
          = (Returned [],
             mkState (world Demo.start) ["No PDF URL for invoice INV-2"]
                     ["No PDF URL for invoice INV-2"] [] [] []))
    as Hd by (vm_compute; reflexivity).
  split; [exact Hl|]. split; [exact Hd|].
  exact (proj1 (later_composites Demo.period "ET" "Other_Status"
                  [pdfLink_of Demo.inv2] ([], []) Demo.start _ [] Hl) Hd).
Defined.

(** The scheduled handler falls back and the trailing-range job skips
    where a downloaded buffer does not parse. *)
Example unparsable_download :
  fst (@Scheduled.finalPdf Endless.remote "PC" "Paid_And_Open"
         [pdfLink_of Demo.inv1] Endless.start)
  = Returned (Some placeholder) /\
  fst (@RangeJob.category_step Endless.remote Demo.period "PC" ([], [])
         ("Paid_And_Open", [pdfLink_of Demo.inv1]) Endless.start)
  = Returned ([], []) /\
  fst (@ScheduledPost.finalPdf Endless.remote [pdfLink_of Demo.inv1]
         Endless.start)
  = Threw "not a PDF".
Proof. repeat split; vm_compute; reflexivity. Qed.

(** ** The form and its route *)

Section PageFacts.
Context {R : Remote}.

Ltac send_cases :=
  unfold bind, try_catch, sendMail_call, console_log, console_error, ret;
  repeat match goal with
  | |- context [sendMail ?t ?m ?w] =>
      destruct (sendMail t m w) as [[?|[]] ?]; cbn
  end.

Lemma first_dispatch_answers env period groups s response s' :
  GenerateAndEmail.dispatch env period groups s = (Returned response, s') ->
  post_answer response.
Proof.
  destruct groups as [aET aNon]. unfold GenerateAndEmail.dispatch.
  destruct (falsy (ADMIN_EMAIL env) || falsy (GMAIL_APP_PASSWORD env)).
  - intros Hrun. injection Hrun as <- _. right. cbn. split; [auto|discriminate].
  - destruct aET as [|a1 r1]; destruct aNon as [|a2 r2];
      cbn [length Nat.ltb Nat.leb]; send_cases;
      intros Hrun; try discriminate; injection Hrun as <- _; left; auto.
Qed.

Lemma second_dispatch_answers env period groups s response s' :
  ScheduledPost.dispatch env period groups s = (Returned response, s') ->
  post_answer response.
Proof.
  destruct groups as [aET aNon]. unfold ScheduledPost.dispatch.
  destruct (falsy (ADMIN_EMAIL env) || falsy (GMAIL_APP_PASSWORD env)).
  - intros Hrun. injection Hrun as <- _. right. cbn. split; [auto|discriminate].
  - destruct aET as [|a1 r1]; destruct aNon as [|a2 r2];
      cbn [length Nat.ltb Nat.leb]; send_cases;
      intros Hrun; try discriminate; injection Hrun as <- _; left; auto.
Qed.

Lemma first_post_answers pages config env request s response s' :
  GenerateAndEmail.POST pages config env request s = (Returned response, s') ->
  post_answer response.
Proof.
  unfold GenerateAndEmail.POST, try_catch.
  destruct request as [e| | |period]; cbn.
  - intros Hrun. injection Hrun as <- _. right. cbn. split; [auto|discriminate].
  - intros Hrun. injection Hrun as <- _. right. cbn. split; [auto|discriminate].
  - intros Hrun. injection Hrun as <- _. right. cbn. split; [auto|discriminate].
  - unfold bind at 1.
    destruct (GenerateAndEmail.gather pages config period s)
      as [[groups|e|] s1]; cbn.
    + destruct (GenerateAndEmail.dispatch env period groups s1)
        as [[r|e|] s2] eqn:Hd; cbn; intros Hrun; try discriminate.
      * injection Hrun as <- _. apply (first_dispatch_answers _ _ _ _ _ _ Hd).
      * injection Hrun as <- _. right. cbn. split; [auto|discriminate].
    + intros Hrun. injection Hrun as <- _. right. cbn.
      split; [auto|discriminate].
    + discriminate.
Qed.

Lemma second_post_answers pages env request s response s' :
  ScheduledPost.POST pages env request s = (Returned response, s') ->
  post_answer response.
Proof.
  unfold ScheduledPost.POST, try_catch.
  destruct request as [e| | |period]; cbn.
  - intros Hrun. injection Hrun as <- _. right. cbn. split; [auto|discriminate].
  - intros Hrun. injection Hrun as <- _. right. cbn. split; [auto|discriminate].
  - intros Hrun. injection Hrun as <- _. right. cbn. split; [auto|discriminate].
  - unfold bind at 1.
    destruct (ScheduledPost.gather pages env period s)
      as [[groups|e|] s1]; cbn.
    + destruct (ScheduledPost.dispatch env period groups s1)
        as [[r|e|] s2] eqn:Hd; cbn; intros Hrun; try discriminate.
      * injection Hrun as <- _. apply (second_dispatch_answers _ _ _ _ _ _ Hd).
      * injection Hrun as <- _. right. cbn. split; [auto|discriminate].
    + intros Hrun. injection Hrun as <- _. right. cbn.
      split; [auto|discriminate].
    + discriminate.
Qed.

Lemma page_of_answer response :
  post_answer response ->
  Page.handleSubmit (Answer response)
  = match success (body response) with
    | Some true => "PDFs generated and emailed successfully!"
    | _ => "An error occurred: "
           ++ (if falsy (message (body response)) then "Unknown error"
               else show (message (body response)))
    end.
Proof.
  unfold Page.handleSubmit, Page.ok.
  intros [[-> ->]|[[->| ->] Hs]]; cbn; [reflexivity| |];
    destruct (success (body response)) as [[|]|]; congruence.
Qed.

(** X15.  For every answer of the [POST] the form calls
    (generateAndEmail/route.js), and likewise of the [POST] with keys
    from the environment, the page shows the success text exactly when
    the answer says [success: true], and "An error occurred: " with the
    message of the answer otherwise; its text "Failed to send PDFs." is
    shown for none of them. *)
Theorem page_message (pages : nat) (config : list (string * string))
  (env : Env) (request : Request) (s : State) :
  (forall response s',
     GenerateAndEmail.POST pages config env request s
     = (Returned response, s') ->
     Page.handleSubmit (Answer response)
     = match success (body response) with
       | Some true => "PDFs generated and emailed successfully!"
       | _ => "An error occurred: "
              ++ (if falsy (message (body response)) then "Unknown error"
                  else show (message (body response)))
       end) /\
  (forall response s',
     ScheduledPost.POST pages env request s = (Returned response, s') ->
     Page.handleSubmit (Answer response)
     = match success (body response) with
       | Some true => "PDFs generated and emailed successfully!"
       | _ => "An error occurred: "
              ++ (if falsy (message (body response)) then "Unknown error"
                  else show (message (body response)))
       end).
Proof.
  split; intros response s' Hrun; apply page_of_answer.
  - apply (first_post_answers _ _ _ _ _ _ _ Hrun).
  - apply (second_post_answers _ _ _ _ _ _ Hrun).
Qed.

End PageFacts.

(** What the page shows for the demonstration without mailer
    credentials, and when the first recipient rejects its message. *)
Example page_messages :
  (match fst (GenerateAndEmail.POST 5 Demo.config Demo.env_no_mailer
                (Window Demo.period) Demo.start) with
   | Returned response => Page.handleSubmit (Answer response)
   | _ => ""
   end
   = "An error occurred: Missing credentials. Make sure ADMIN_EMAIL and GMAIL_APP_PASSWORD are set.") /\
  (match fst (GenerateAndEmail.POST 5 Demo.config Demo.env_full
                (Window Demo.period) Demo.start) with
   | Returned response => Page.handleSubmit (Answer response)
   | _ => ""
   end
   = "An error occurred: rejected").
Proof. split; vm_compute; reflexivity. Qed.
